(** * BadgerDB buffer manager (src/buffer.cpp): a shallow embedding

    The buffer manager keeps a fixed pool of page frames, a descriptor per
    frame, a hash index from (file, page number) to frame index and a clock
    hand.  The C++ methods mutate the manager in place, call into [File]
    objects and throw exceptions; here each method is a function in a
    state-and-exception monad over the manager, the disk and a log of the
    file calls that were issued. *)

From Stdlib Require Import NArith ZArith Lia.
From stdpp Require Import base option list gmap fin_maps.

Local Open Scope N_scope.

(** ** Machine integers and identities *)

(** [std::uint32_t] arithmetic is arithmetic modulo [2^32]. *)
Definition wrap32 (x : N) : N := x mod 2 ^ 32.

(** [File*] values are compared by address only: a file is its identity.
    [PageId] and [FrameId] are [std::uint32_t]. *)
Abbreviation FileId := N (only parsing).
Abbreviation PageId := N (only parsing).
Abbreviation FrameId := N (only parsing).

(** Modelled from the spec: the [Page] class (declared outside buffer.cpp), a
    block of bytes tagged with its on-disk page number. *)
Record Page : Type := mkPage {
  page_number : PageId;
  page_data : list N
}.

(** ** Frame descriptors *)

(** Modelled from the spec: the [BufDesc] class of buffer.h (section 3,
    "Frame").  [file] is a borrowed pointer, [None] being the null pointer;
    [pinCnt] ranges over the naturals. *)
Record BufDesc : Type := mkBufDesc {
  file : option FileId;
  pageNo : PageId;
  frameNo : FrameId;
  pinCnt : N;
  dirty : bool;
  valid : bool;
  refbit : bool
}.

(** The page number a descriptor carries when it is bound to no page. *)
Definition INVALID_NUMBER : PageId := 0.

(** Modelled from the spec: [BufDesc::Set] (section 4.1): assigns the owner,
    [valid = true], [pinCnt = 1], [dirty = false], [refbit = false]. *)
Definition BufDesc_Set (f : FileId) (p : PageId) (d : BufDesc) : BufDesc :=
  {| file := Some f; pageNo := p; frameNo := frameNo d;
     pinCnt := 1; dirty := false; valid := true; refbit := false |}.

(** Modelled from the spec: [BufDesc::Clear] (section 4.1): [valid = false],
    [pinCnt = 0], [dirty = false], [refbit = false], owner forgotten. *)
Definition BufDesc_Clear (d : BufDesc) : BufDesc :=
  {| file := None; pageNo := INVALID_NUMBER; frameNo := frameNo d;
     pinCnt := 0; dirty := false; valid := false; refbit := false |}.

(** Single-field assignments [bufferDesc.x = v]. *)
Definition set_refbit (b : bool) (d : BufDesc) : BufDesc :=
  {| file := file d; pageNo := pageNo d; frameNo := frameNo d;
     pinCnt := pinCnt d; dirty := dirty d; valid := valid d; refbit := b |}.

Definition set_dirty (b : bool) (d : BufDesc) : BufDesc :=
  {| file := file d; pageNo := pageNo d; frameNo := frameNo d;
     pinCnt := pinCnt d; dirty := b; valid := valid d; refbit := refbit d |}.

Definition set_pinCnt (n : N) (d : BufDesc) : BufDesc :=
  {| file := file d; pageNo := pageNo d; frameNo := frameNo d;
     pinCnt := n; dirty := dirty d; valid := valid d; refbit := refbit d |}.

(** ** The manager *)

(** Keys of the hash index: the file pointer and the page number. *)
Abbreviation HashKey := (option N * N)%type (only parsing).

Record BufMgr : Type := mkBufMgr {
  numBufs : N;
  bufDescTable : list BufDesc;
  bufPool : list Page;
  hashTable : gmap (option N * N) N;
  clockHand : FrameId
}.

Definition set_bufDescTable (t : list BufDesc) (m : BufMgr) : BufMgr :=
  {| numBufs := numBufs m; bufDescTable := t; bufPool := bufPool m;
     hashTable := hashTable m; clockHand := clockHand m |}.

Definition set_bufPool (p : list Page) (m : BufMgr) : BufMgr :=
  {| numBufs := numBufs m; bufDescTable := bufDescTable m; bufPool := p;
     hashTable := hashTable m; clockHand := clockHand m |}.

Definition set_hashTable (h : gmap (option N * N) N) (m : BufMgr) : BufMgr :=
  {| numBufs := numBufs m; bufDescTable := bufDescTable m; bufPool := bufPool m;
     hashTable := h; clockHand := clockHand m |}.

Definition set_clockHand (c : FrameId) (m : BufMgr) : BufMgr :=
  {| numBufs := numBufs m; bufDescTable := bufDescTable m; bufPool := bufPool m;
     hashTable := hashTable m; clockHand := c |}.

(** Modelled from the spec: the state of a default-constructed [BufDesc]
    (buffer.h), bound to nothing: section 3, invariant 2. *)
Definition BufDesc_new : BufDesc :=
  {| file := None; pageNo := INVALID_NUMBER; frameNo := 0;
     pinCnt := 0; dirty := false; valid := false; refbit := false |}.

(** Modelled from the spec: a default-constructed [Page], carrying no page
    number and no bytes. *)
Definition Page_new : Page := {| page_number := INVALID_NUMBER; page_data := [] |}.

(** The descriptor of frame [i] after the loop of the constructor:
    [bufDescTable[i].frameNo = i; bufDescTable[i].valid = false]. *)
Definition BufDesc_init (i : FrameId) : BufDesc :=
  {| file := file BufDesc_new; pageNo := pageNo BufDesc_new; frameNo := i;
     pinCnt := pinCnt BufDesc_new; dirty := dirty BufDesc_new; valid := false;
     refbit := refbit BufDesc_new |}.

(** The members as [BufMgr::BufMgr(bufs)] sets them (lines 20 to 28, 31 and
    33); [clockHand = bufs - 1] in [std::uint32_t].  The hash index of the
    model has no capacity, so the size computed at line 30 does not show in
    the members: it is [hashTblSize] below, and [BufMgr_ctor] is the
    constructor as a whole, which is undefined where that computation is. *)
Definition BufMgr_new (bufs : N) : BufMgr :=
  {| numBufs := bufs;
     bufDescTable := (λ i, BufDesc_init (N.of_nat i)) <$> seq 0 (N.to_nat bufs);
     bufPool := replicate (N.to_nat bufs) Page_new;
     hashTable := ∅;
     clockHand := wrap32 (bufs + (2 ^ 32 - 1)) |}.

(** *** Line 30: the size of the hash table *)

(** The literal [1.2] is the IEEE 754 binary64 number
    [5404319552844595 * 2^-52]. *)
Definition double_1_2 : Z := 5404319552844595.

(** A positive integer rounded to the 53 significant bits of a [double], to
    nearest with ties to even: what a floating-point multiplication does to
    the exact product. *)
Definition round_double (n : Z) : Z :=
  let shift := (Z.log2 n - 52)%Z in
  if (shift <=? 0)%Z then n
  else
    let q := (n / 2 ^ shift)%Z in
    let r := (n mod 2 ^ shift)%Z in
    let half := (2 ^ (shift - 1))%Z in
    if (half <? r)%Z || ((r =? half)%Z && Z.odd q)
    then ((q + 1) * 2 ^ shift)%Z
    else (q * 2 ^ shift)%Z.

(** A value of type [int] (32 bits): a result outside its range is
    undefined, for a conversion from [double] as for signed arithmetic. *)
Definition int_of (z : Z) : option Z :=
  if (- 2 ^ 31 <=? z)%Z && (z <=? 2 ^ 31 - 1)%Z then Some z else None.

(** [int hashTblSize = ((((int) (bufs * 1.2)) * 2) / 2) + 1].  [bufs]
    converts to [double] exactly; [product] is the rounded product in units
    of [2^-52], which [(int)] truncates. *)
Definition hashTblSize (bufs : N) : option Z :=
  let product := round_double (Z.of_N bufs * double_1_2) in
  a ← int_of (product / 2 ^ 52);
  b ← int_of (a * 2);
  c ← int_of (Z.quot b 2);
  int_of (c + 1).

(** ** Exceptions, file calls and outcomes *)

Inductive Exn : Type :=
| BufferExceededException
| PageNotPinnedException (f : FileId) (p : PageId) (frame : FrameId)
| PagePinnedException (f : FileId) (p : PageId) (frame : FrameId)
| BadBufferException (frame : FrameId) (dirty valid refbit : bool)
| HashNotFoundException
| HashAlreadyPresentException
| FileException (code : N)
  (** an exception thrown by a [File] method *)
| UndefinedBehaviour
  (** an array access out of bounds, a null [File*] dereferenced, a
      remainder by zero or an [int] out of range: the C++ program has no
      defined behaviour *).

(** [BufMgr::BufMgr(bufs)], lines 19 to 34: the members of [BufMgr_new],
    provided the size of the hash table at line 30 is defined. *)
Definition BufMgr_ctor (bufs : N) : Exn + BufMgr :=
  match hashTblSize bufs with
  | Some _ => inr (BufMgr_new bufs)
  | None => inl UndefinedBehaviour
  end.

(** Calls of [File] methods, in the order they are issued. *)
Inductive IOEvent : Type :=
| EvReadPage (f : FileId) (p : PageId)
| EvWritePage (f : FileId) (pg : Page)
| EvAllocatePage (f : FileId)
| EvDeletePage (f : FileId) (p : PageId).

(** The [File] interface the manager consumes (section 6 of the spec).  A
    call either fails with an error code or gives its result and the new
    disk. *)
Class FileOps (Disk : Type) : Type := {
  file_readPage : FileId → PageId → Disk → N + Page;
  file_writePage : FileId → Page → Disk → N + Disk;
  file_allocatePage : FileId → Disk → N + Page * Disk;
  file_deletePage : FileId → PageId → Disk → N + Disk
}.

Inductive Res (A : Type) : Type :=
| Ok (a : A)
| Throw (e : Exn)
| OutOfFuel.
Arguments Ok {A} a.
Arguments Throw {A} e.
Arguments OutOfFuel {A}.

Section Manager.
Context {Disk : Type} `{FileOps Disk}.

Record St : Type := mkSt {
  mgr : BufMgr;
  disk : Disk;
  iolog : list IOEvent
}.

Definition M (A : Type) : Type := St → Res A * St.

Definition ret {A} (a : A) : M A := λ s, (Ok a, s).

Definition bind {A B} (c : M A) (k : A → M B) : M B :=
  λ s, match c s with
       | (Ok a, s') => k a s'
       | (Throw e, s') => (Throw e, s')
       | (OutOfFuel, s') => (OutOfFuel, s')
       end.

Definition throw {A} (e : Exn) : M A := λ s, (Throw e, s).

Definition out_of_fuel {A} : M A := λ s, (OutOfFuel, s).

Definition gets {A} (g : BufMgr → A) : M A := λ s, (Ok (g (mgr s)), s).

Definition modify (g : BufMgr → BufMgr) : M unit :=
  λ s, (Ok tt, {| mgr := g (mgr s); disk := disk s; iolog := iolog s |}).

(** [try { body } catch (const HashNotFoundException &) { handler }]
    followed by [rest]: only the exception of that class thrown by [body]
    is caught; what [handler] and [rest] throw propagates. *)
Definition catch_HashNotFound {A B} (body : M A) (handler : M B)
    (rest : A → M B) : M B :=
  λ s, match body s with
       | (Ok a, s') => rest a s'
       | (Throw HashNotFoundException, s') => handler s'
       | (Throw e, s') => (Throw e, s')
       | (OutOfFuel, s') => (OutOfFuel, s')
       end.

#[local] Instance M_ret : MRet M := @ret.
#[local] Instance M_bind : MBind M := λ A B k c, bind c k.

(** *** Arrays *)

(** [bufDescTable[i]] read through a reference; an index outside the array
    is undefined behaviour. *)
Definition frame_at (i : FrameId) : M BufDesc :=
  λ s, match bufDescTable (mgr s) !! N.to_nat i with
       | Some d => (Ok d, s)
       | None => (Throw UndefinedBehaviour, s)
       end.

(** A write through the reference [BufDesc &bufferDesc = bufDescTable[i]]. *)
Definition set_frame (i : FrameId) (d : BufDesc) : M unit :=
  modify (λ m, set_bufDescTable (<[N.to_nat i := d]> (bufDescTable m)) m).

(** [bufPool[i]] *)
Definition pool_at (i : FrameId) : M Page :=
  λ s, match bufPool (mgr s) !! N.to_nat i with
       | Some pg => (Ok pg, s)
       | None => (Throw UndefinedBehaviour, s)
       end.

(** [bufPool[i] = pg] *)
Definition set_pool (i : FrameId) (pg : Page) : M unit :=
  _ ← pool_at i;
  modify (λ m, set_bufPool (<[N.to_nat i := pg]> (bufPool m)) m).

(** *** The hash index *)

(** Modelled from the spec: [BufHashTbl::lookup] (section 4.2): the frame
    index of the key, or NotFound. *)
Definition hash_lookup (k : HashKey) : M FrameId :=
  λ s, match hashTable (mgr s) !! k with
       | Some i => (Ok i, s)
       | None => (Throw HashNotFoundException, s)
       end.

(** Modelled from the spec: [BufHashTbl::insert] (section 4.2); its
    precondition is that the key is absent, and a call that breaks it
    fails. *)
Definition hash_insert (k : HashKey) (i : FrameId) : M unit :=
  λ s, match hashTable (mgr s) !! k with
       | Some _ => (Throw HashAlreadyPresentException, s)
       | None => modify (λ m, set_hashTable (<[k := i]> (hashTable m)) m) s
       end.

(** Modelled from the spec: [BufHashTbl::remove] (section 4.2): fails with
    NotFound if the key is absent. *)
Definition hash_remove (k : HashKey) : M unit :=
  λ s, match hashTable (mgr s) !! k with
       | Some _ => modify (λ m, set_hashTable (delete k (hashTable m)) m) s
       | None => (Throw HashNotFoundException, s)
       end.

(** *** Calls into a file *)

Definition log_io (ev : IOEvent) (s : St) : St :=
  {| mgr := mgr s; disk := disk s; iolog := iolog s ++ [ev] |}.

Definition set_disk (d : Disk) (s : St) : St :=
  {| mgr := mgr s; disk := d; iolog := iolog s |}.

(** [fp->writePage(pg)] *)
Definition File_writePage (fp : option FileId) (pg : Page) : M unit :=
  λ s, match fp with
       | None => (Throw UndefinedBehaviour, s)
       | Some f =>
           let s1 := log_io (EvWritePage f pg) s in
           match file_writePage f pg (disk s) with
           | inl e => (Throw (FileException e), s1)
           | inr d => (Ok tt, set_disk d s1)
           end
       end.

(** [f->readPage(p)] *)
Definition File_readPage (f : FileId) (p : PageId) : M Page :=
  λ s, let s1 := log_io (EvReadPage f p) s in
       match file_readPage f p (disk s) with
       | inl e => (Throw (FileException e), s1)
       | inr pg => (Ok pg, s1)
       end.

(** [f->allocatePage()] *)
Definition File_allocatePage (f : FileId) : M Page :=
  λ s, let s1 := log_io (EvAllocatePage f) s in
       match file_allocatePage f (disk s) with
       | inl e => (Throw (FileException e), s1)
       | inr (pg, d) => (Ok pg, set_disk d s1)
       end.

(** [f->deletePage(p)] *)
Definition File_deletePage (f : FileId) (p : PageId) : M unit :=
  λ s, let s1 := log_io (EvDeletePage f p) s in
       match file_deletePage f p (disk s) with
       | inl e => (Throw (FileException e), s1)
       | inr d => (Ok tt, set_disk d s1)
       end.

(** ** The methods of [BufMgr] *)

(** [clockHand = (clockHand + 1) % numBufs] *)
Definition advanceClock : M unit :=
  n ← gets numBufs;
  if n =? 0 then throw UndefinedBehaviour
  else modify (λ m, set_clockHand (wrap32 (clockHand m + 1) mod n) m).

(** The [while (true)] loop of [allocBuf]; [fuel] bounds the number of
    iterations and [pinnedCnt] is the local counter. *)
Fixpoint allocBuf_loop (fuel : nat) (pinnedCnt : N) : M FrameId :=
  match fuel with
  | O => out_of_fuel
  | S fuel' =>
      hand ← gets clockHand;
      bufferDesc ← frame_at hand;
      if 0 <? pinCnt bufferDesc then
        let pinnedCnt' := wrap32 (pinnedCnt + 1) in
        n ← gets numBufs;
        if pinnedCnt' =? n then throw BufferExceededException
        else
          _ ← set_frame hand (set_refbit false bufferDesc);
          _ ← advanceClock;
          allocBuf_loop fuel' pinnedCnt'
      else if negb (refbit bufferDesc) then
        _ ← (if dirty bufferDesc
             then pg ← pool_at hand; File_writePage (file bufferDesc) pg
             else ret tt);
        _ ← hash_remove (file bufferDesc, pageNo bufferDesc);
        _ ← set_frame hand (BufDesc_Clear bufferDesc);
        ret (frameNo bufferDesc)
      else
        _ ← set_frame hand (set_refbit false bufferDesc);
        _ ← advanceClock;
        allocBuf_loop fuel' pinnedCnt
  end.

(** Enough iterations for the loop to finish (see [allocBuf_loop_total]):
    every pass over a pinned frame counts towards [numBufs], and an unpinned
    frame is passed over at most once. *)
Definition allocBuf_fuel (m : BufMgr) : nat :=
  S (N.to_nat (numBufs m) + length (bufDescTable m)).

Definition allocBuf : M FrameId :=
  λ s, allocBuf_loop (allocBuf_fuel (mgr s)) 0 s.

(** [readPage]; the result is the frame whose pool slot [page] points to. *)
Definition readPage (f : FileId) (p : PageId) : M FrameId :=
  catch_HashNotFound (hash_lookup (Some f, p))
    (frameId ← allocBuf;
     pg ← File_readPage f p;
     _ ← set_pool frameId pg;
     _ ← hash_insert (Some f, p) frameId;
     d ← frame_at frameId;
     _ ← set_frame frameId (BufDesc_Set f p d);
     ret frameId)
    (λ frameId,
     d ← frame_at frameId;
     _ ← set_frame frameId (set_pinCnt (pinCnt d + 1) (set_refbit true d));
     ret frameId).

Definition unPinPage (f : FileId) (p : PageId) (isDirty : bool) : M unit :=
  catch_HashNotFound (hash_lookup (Some f, p))
    (ret tt)
    (λ frameId,
     bufferDesc ← frame_at frameId;
     _ ← (if 0 <? pinCnt bufferDesc
          then set_frame frameId (set_pinCnt (pinCnt bufferDesc - 1) bufferDesc)
          else throw (PageNotPinnedException f p frameId));
     if isDirty
     then d ← frame_at frameId; set_frame frameId (set_dirty true d)
     else ret tt).

(** The body of the [for] loop of [flushFile] at frame [i]. *)
Definition flushFile_body (f : FileId) (i : FrameId) : M unit :=
  bufferDesc ← frame_at i;
  if decide (file bufferDesc = Some f) then
    if 0 <? pinCnt bufferDesc then
      throw (PagePinnedException f (pageNo bufferDesc) (frameNo bufferDesc))
    else if negb (valid bufferDesc) then
      throw (BadBufferException (frameNo bufferDesc) (dirty bufferDesc)
               (valid bufferDesc) (refbit bufferDesc))
    else
      _ ← (if dirty bufferDesc
           then pg ← pool_at i;
                _ ← File_writePage (file bufferDesc) pg;
                set_frame i (set_dirty false bufferDesc)
           else ret tt);
      _ ← hash_remove (Some f, pageNo bufferDesc);
      d ← frame_at i;
      set_frame i (BufDesc_Clear d)
  else ret tt.

(** [count] iterations of the [for] loop of [flushFile], from frame [i] on;
    [i++] does not wrap, [i] being below [numBufs]. *)
Fixpoint flushFile_loop (count : nat) (f : FileId) (i : FrameId) : M unit :=
  match count with
  | O => ret tt
  | S count' => _ ← flushFile_body f i; flushFile_loop count' f (i + 1)
  end.

Definition flushFile (f : FileId) : M unit :=
  n ← gets numBufs;
  flushFile_loop (N.to_nat n) f 0.

(** [allocPage]; the result is [pageNo] and the frame whose pool slot [page]
    points to.  [bufDescTable->Set(...)] goes through the pointer to the
    first element of the array. *)
Definition allocPage (f : FileId) : M (PageId * FrameId) :=
  filePage ← File_allocatePage f;
  let pageNo := page_number filePage in
  frameId ← allocBuf;
  _ ← hash_insert (Some f, pageNo) frameId;
  d ← frame_at 0;
  _ ← set_frame 0 (BufDesc_Set f pageNo d);
  ret (pageNo, frameId).

Definition disposePage (f : FileId) (p : PageId) : M unit :=
  catch_HashNotFound (hash_lookup (Some f, p))
    (ret tt)
    (λ frameId,
     bufferDesc ← frame_at frameId;
     if valid bufferDesc then
       _ ← hash_remove (Some f, p);
       _ ← set_frame frameId (BufDesc_Clear bufferDesc);
       File_deletePage f p
     else ret tt).

(** *** Sequences of calls *)

(** The public operations, as a client issues them. *)
Inductive Op : Type :=
| OpReadPage (f : FileId) (p : PageId)
| OpUnPinPage (f : FileId) (p : PageId) (isDirty : bool)
| OpAllocPage (f : FileId)
| OpDisposePage (f : FileId) (p : PageId)
| OpFlushFile (f : FileId).

(** The state a call leaves behind, whether it returns or throws (the client
    catches the exception and goes on with the same manager). *)
Definition run_op (o : Op) (s : St) : St :=
  match o with
  | OpReadPage f p => (readPage f p s).2
  | OpUnPinPage f p b => (unPinPage f p b s).2
  | OpAllocPage f => (allocPage f s).2
  | OpDisposePage f p => (disposePage f p s).2
  | OpFlushFile f => (flushFile f s).2
  end.

Definition run_ops (ops : list Op) (s : St) : St :=
  fold_left (λ s o, run_op o s) ops s.

(** A freshly constructed manager over a disk, before any file call: the
    members the constructor sets (for the sizes it is defined for, see
    [BufMgr_ctor]). *)
Definition fresh (bufs : N) (d : Disk) : St :=
  {| mgr := BufMgr_new bufs; disk := d; iolog := [] |}.

(** *** The two ways an iteration of [allocBuf] goes on or ends *)

(** The state after [bufferDesc.refbit = false] on the frame under the hand,
    whose descriptor was [d]. *)
Definition clear_ref (d : BufDesc) (s : St) : St :=
  {| mgr := set_bufDescTable
              (<[N.to_nat (clockHand (mgr s)) := set_refbit false d]>
                 (bufDescTable (mgr s))) (mgr s);
     disk := disk s; iolog := iolog s |}.

(** The state after [bufferDesc.refbit = false; advanceClock();]. *)
Definition pass_over (d : BufDesc) (s : St) : St :=
  let s1 := clear_ref d s in
  {| mgr := set_clockHand
              (wrap32 (clockHand (mgr s1) + 1) mod numBufs (mgr s1)) (mgr s1);
     disk := disk s1; iolog := iolog s1 |}.

(** The state in which descriptor [i] has been overwritten with [d]. *)
Definition put_frame (i : FrameId) (d : BufDesc) (s : St) : St :=
  {| mgr := set_bufDescTable (<[N.to_nat i := d]> (bufDescTable (mgr s))) (mgr s);
     disk := disk s; iolog := iolog s |}.

(** The branch of [allocBuf] that takes the frame under the hand: lines
    54 to 60 of buffer.cpp. *)
Definition evict (hand : FrameId) (d : BufDesc) : M FrameId :=
  _ ← (if dirty d
       then pg ← pool_at hand; File_writePage (file d) pg
       else ret tt);
  _ ← hash_remove (file d, pageNo d);
  _ ← set_frame hand (BufDesc_Clear d);
  ret (frameNo d).

(** What the passing clock hand may do to a descriptor: nothing, or clear
    its reference bit. *)
Definition swept_frame (d d' : BufDesc) : Prop :=
  d' = d ∨ d' = set_refbit false d.

(** [s'] is [s] after the hand has passed over some frames: only reference
    bits and the hand itself have changed. *)
Definition swept (s s' : St) : Prop :=
  numBufs (mgr s') = numBufs (mgr s) ∧
  bufPool (mgr s') = bufPool (mgr s) ∧
  hashTable (mgr s') = hashTable (mgr s) ∧
  disk s' = disk s ∧
  iolog s' = iolog s ∧
  Forall2 swept_frame (bufDescTable (mgr s)) (bufDescTable (mgr s')).

(** Two descriptors with the same binding: owner, validity, pins, dirt. *)
Definition same_binding (d d' : BufDesc) : Prop :=
  file d' = file d ∧ pageNo d' = pageNo d ∧ frameNo d' = frameNo d ∧
  valid d' = valid d ∧ pinCnt d' = pinCnt d ∧ dirty d' = dirty d.

(** *** Vocabulary for what the methods keep *)

(** [c] keeps [P]: whatever way [c] ends, returning or throwing, [P] holds
    of the state it leaves if it held of the state it started in. *)
Definition preserves {A} (P : St → Prop) (c : M A) : Prop :=
  ∀ s r s', c s = (r, s') → P s → P s'.

(** The state after [k] calls of [advanceClock]. *)
Definition advance_n (k : nat) (s : St) : St :=
  Nat.iter k (λ s0, (advanceClock s0).2) s.

End Manager.

Arguments St Disk : clear implicits.
Arguments M Disk A : clear implicits.
#[export] Existing Instances M_ret M_bind.

(** ** Invariants of the data model (section 3 of the spec) *)

(** Invariant 1: the hash index and the valid frames are in bijection. *)
Definition hash_frames_bijection (m : BufMgr) : Prop :=
  (∀ (i : nat) (d : BufDesc),
     bufDescTable m !! i = Some d → valid d = true →
     hashTable m !! (file d, pageNo d) = Some (N.of_nat i)) ∧
  (∀ (k : option N * N) (i : N),
     hashTable m !! k = Some i →
     ∃ d, bufDescTable m !! N.to_nat i = Some d ∧ valid d = true ∧
          (file d, pageNo d) = k).

(** Invariants 2 and 3 on one descriptor, with the stored frame number and
    the owner of a valid frame. *)
Definition desc_ok (i : nat) (d : BufDesc) : Prop :=
  frameNo d = N.of_nat i ∧
  (valid d = false → pinCnt d = 0 ∧ dirty d = false ∧ refbit d = false) ∧
  (valid d = true → is_Some (file d)).

(** The array sizes, the range of the [uint32_t] fields and invariant 5. *)
Definition shape_ok (m : BufMgr) : Prop :=
  0 < numBufs m < 2 ^ 32 ∧
  length (bufDescTable m) = N.to_nat (numBufs m) ∧
  length (bufPool m) = N.to_nat (numBufs m) ∧
  clockHand m < numBufs m.

Definition wf (m : BufMgr) : Prop :=
  shape_ok m ∧
  (∀ i d, bufDescTable m !! i = Some d → desc_ok i d) ∧
  hash_frames_bijection m.

(** The invariants on the descriptors and the hash index (1 to 3), with what
    the constructor and [Clear] add to them: a frame that is not valid has
    no owner. *)
Definition frames_ok (m : BufMgr) : Prop :=
  (∀ (i : nat) d, bufDescTable m !! i = Some d → desc_ok i d) ∧
  hash_frames_bijection m ∧
  (∀ (i : nat) d, bufDescTable m !! i = Some d → valid d = false → file d = None).

(** A descriptor rewritten without a change of its binding; one that is not
    valid has at most lost its reference bit. *)
Definition rebound (d d' : BufDesc) : Prop :=
  file d' = file d ∧ pageNo d' = pageNo d ∧ frameNo d' = frameNo d ∧
  valid d' = valid d ∧
  (valid d = false → d' = d ∨ d' = set_refbit false d).

Definition is_allocPage (o : Op) : bool :=
  match o with OpAllocPage _ => true | _ => false end.

(** What section 4.4.2 of the spec says [unPinPage] makes of a pinned
    descriptor: one pin less, and dirty if the caller says so. *)
Definition unpinned (isDirty : bool) (d : BufDesc) : BufDesc :=
  {| file := file d; pageNo := pageNo d; frameNo := frameNo d;
     pinCnt := pinCnt d - 1; dirty := isDirty || dirty d; valid := valid d;
     refbit := refbit d |}.

(** The write-backs that [flushFile(f)] owes on a descriptor table and its
    pool: one for each frame of [f] that is dirty, in the order of the
    frames. *)
Definition flush_writes (f : FileId) (t : list BufDesc) (pool : list Page)
    : list IOEvent :=
  omap (λ '(d, pg), if decide (file d = Some f)
                    then if dirty d then Some (EvWritePage f pg) else None
                    else None)
       (zip t pool).

(** The two exceptions with which [flushFile] itself refuses to go on. *)
Definition flush_refusal (e : Exn) : bool :=
  match e with
  | PagePinnedException _ _ _ | BadBufferException _ _ _ _ => true
  | _ => false
  end.

(** The frames the hand can still give a second chance to: unpinned, with
    the reference bit set.  Their number bounds the passes over unpinned
    frames in one call of [allocBuf]. *)
Definition second_chance (d : BufDesc) : nat :=
  if (pinCnt d =? 0) && refbit d then 1%nat else 0%nat.

Definition second_chances (t : list BufDesc) : nat :=
  sum_list_with second_chance t.

(** ** A disk for examples *)

(** Pages are kept per (file, page number); [sd_next] is the next page number
    [allocatePage] hands out and a read-only disk refuses writes. *)
Record SimDisk : Type := mkSimDisk {
  sd_pages : gmap (N * N) (list N);
  sd_next : N;
  sd_readonly : bool
}.

#[export] Instance SimDisk_ops : FileOps SimDisk := {|
  file_readPage f p d :=
    match sd_pages d !! (f, p) with
    | Some bytes => inr (mkPage p bytes)
    | None => inl 1
    end;
  file_writePage f pg d :=
    if sd_readonly d then inl 2
    else inr {| sd_pages := <[(f, page_number pg) := page_data pg]> (sd_pages d);
                sd_next := sd_next d; sd_readonly := sd_readonly d |};
  file_allocatePage f d :=
    inr (mkPage (sd_next d) [],
         {| sd_pages := <[(f, sd_next d) := []]> (sd_pages d);
            sd_next := sd_next d + 1; sd_readonly := sd_readonly d |});
  file_deletePage f p d :=
    match sd_pages d !! (f, p) with
    | Some _ => inr {| sd_pages := delete (f, p) (sd_pages d);
                       sd_next := sd_next d; sd_readonly := sd_readonly d |}
    | None => inl 3
    end
|}.

(** A disk holding pages 1 to 3 of file 7. *)
Definition disk0 : SimDisk :=
  {| sd_pages := {[ (7, 1) := [11]; (7, 2) := [22]; (7, 3) := [33] ]};
     sd_next := 4; sd_readonly := false |}.

(** ** Example states *)

Definition page1 : Page := {| page_number := 1; page_data := [11] |}.
Definition page2 : Page := {| page_number := 2; page_data := [22] |}.

(** A descriptor bound to page [p] of file 7. *)
Definition bound (frame : FrameId) (p : PageId) (pins : N) (isDirty ref : bool)
    : BufDesc :=
  {| file := Some 7; pageNo := p; frameNo := frame; pinCnt := pins;
     dirty := isDirty; valid := true; refbit := ref |}.

(** [disk0] with writes refused. *)
Definition disk_ro : SimDisk :=
  {| sd_pages := sd_pages disk0; sd_next := sd_next disk0; sd_readonly := true |}.

(** Two frames holding pages 1 and 2 of file 7. *)
Definition two_frames (d0 d1 : BufDesc) (hand : FrameId) : BufMgr :=
  {| numBufs := 2;
     bufDescTable := [d0; d1];
     bufPool := [page1; page2];
     hashTable := {[ (Some 7, 1) := 0; (Some 7, 2) := 1 ]};
     clockHand := hand |}.

Definition on_disk (m : BufMgr) (d : SimDisk) : St SimDisk :=
  {| mgr := m; disk := d; iolog := [] |}.

(** Page 1 pinned in frame 0, page 2 unpinned and clean in frame 1, the hand
    on frame [hand]; [ref0] is the reference bit of frame 0. *)
Definition pinned_and_free (ref0 : bool) (hand : FrameId) : St SimDisk :=
  on_disk (two_frames (bound 0 1 1 false ref0) (bound 1 2 0 false false) hand) disk0.

(** Both pages pinned. *)
Definition both_pinned : St SimDisk :=
  on_disk (two_frames (bound 0 1 1 false false) (bound 1 2 1 false false) 0) disk0.

(** Page 1 unpinned and dirty in frame 0; page 2 in frame 1 with [pins]
    pins. *)
Definition dirty_then (pins : N) : St SimDisk :=
  on_disk (two_frames (bound 0 1 0 true false) (bound 1 2 pins false false) 0) disk0.

(** * Properties *)

Section Properties.
Context {Disk : Type} `{FileOps Disk}.
Implicit Types (s : St Disk) (d : BufDesc) (m : BufMgr).

(** Unfold the monad and the primitive accesses down to case analyses. *)
Ltac unfold_monad :=
  repeat progress
    unfold mbind, M_bind, mret, M_ret, bind, ret, throw, out_of_fuel, gets, modify.

Ltac unfold_prims :=
  repeat progress
    unfold mbind, M_bind, mret, M_ret, bind, ret, throw, out_of_fuel, gets, modify,
      catch_HashNotFound, frame_at, set_frame, pool_at, set_pool,
      hash_lookup, hash_insert, hash_remove, advanceClock.

Lemma allocBuf_loop_S (k : nat) (pc : N) s :
  allocBuf_loop (S k) pc s =
  match bufDescTable (mgr s) !! N.to_nat (clockHand (mgr s)) with
  | None => (Throw UndefinedBehaviour, s)
  | Some d =>
      if 0 <? pinCnt d then
        if wrap32 (pc + 1) =? numBufs (mgr s) then (Throw BufferExceededException, s)
        else if numBufs (mgr s) =? 0 then (Throw UndefinedBehaviour, clear_ref d s)
        else allocBuf_loop k (wrap32 (pc + 1)) (pass_over d s)
      else if negb (refbit d) then evict (clockHand (mgr s)) d s
      else if numBufs (mgr s) =? 0 then (Throw UndefinedBehaviour, clear_ref d s)
      else allocBuf_loop k pc (pass_over d s)
  end.
Proof.
  cbn [allocBuf_loop].
  unfold mbind, M_bind, bind, gets, frame_at; cbn.
  destruct (bufDescTable (mgr s) !! N.to_nat (clockHand (mgr s))) as [d|]; [|done].
  destruct (0 <? pinCnt d).
  - destruct (wrap32 (pc + 1) =? numBufs (mgr s)); [done|].
    unfold advanceClock, set_frame, modify, mbind, M_bind, bind, gets, throw; cbn.
    destruct (numBufs (mgr s) =? 0); done.
  - destruct (refbit d); cbn; [|done].
    unfold advanceClock, set_frame, modify, mbind, M_bind, bind, gets, throw; cbn.
    destruct (numBufs (mgr s) =? 0); done.
Qed.

(** *** The sweep of the clock hand *)

#[local] Instance swept_frame_refl : Reflexive swept_frame.
Proof. intros d. by left. Qed.

#[local] Instance swept_frame_trans : Transitive swept_frame.
Proof.
  intros d1 d2 d3 [-> | ->] [-> | ->]; unfold swept_frame; auto.
Qed.

Lemma swept_frame_same_binding d d' : swept_frame d d' → same_binding d d'.
Proof. by intros [-> | ->]. Qed.

Lemma swept_frame_Clear d d' : swept_frame d d' → BufDesc_Clear d' = BufDesc_Clear d.
Proof. by intros [-> | ->]. Qed.

Lemma swept_refl s : swept s s.
Proof. by repeat split. Qed.

Lemma swept_trans s1 s2 s3 : swept s1 s2 → swept s2 s3 → swept s1 s3.
Proof.
  intros (Hn & Hp & Hh & Hd & Hl & Ht) (Hn' & Hp' & Hh' & Hd' & Hl' & Ht').
  repeat split; try congruence. by etrans.
Qed.

Lemma Forall2_swept_insert (t : list BufDesc) (i : nat) d :
  t !! i = Some d → Forall2 swept_frame t (<[i := set_refbit false d]> t).
Proof.
  intros Hd. apply Forall2_same_length_lookup_2; [by rewrite length_insert|].
  intros j x y Hx Hy. destruct (decide (j = i)) as [->|Hne].
  - rewrite list_lookup_insert_eq in Hy by (by eapply lookup_lt_Some).
    right. congruence.
  - rewrite list_lookup_insert_ne in Hy by done. left. congruence.
Qed.

Lemma swept_clear_ref s d :
  bufDescTable (mgr s) !! N.to_nat (clockHand (mgr s)) = Some d →
  swept s (clear_ref d s).
Proof. intros Hd. repeat split. cbn. by apply Forall2_swept_insert. Qed.

Lemma swept_pass_over s d :
  bufDescTable (mgr s) !! N.to_nat (clockHand (mgr s)) = Some d →
  swept s (pass_over d s).
Proof. intros Hd. repeat split. cbn. by apply Forall2_swept_insert. Qed.

(** A run of the loop is a sweep followed by one of the ways out: the fuel
    or the pool is exhausted, the program leaves defined behaviour, or the
    frame under the hand, unpinned and with its reference bit clear, is
    taken. *)
Lemma allocBuf_loop_sweep (k : nat) (pc : N) s (r : Res N) s' :
  allocBuf_loop k pc s = (r, s') →
  (swept s s' ∧
   (r = OutOfFuel ∨ r = Throw BufferExceededException ∨
    r = Throw UndefinedBehaviour)) ∨
  (∃ s1 d,
     swept s s1 ∧
     bufDescTable (mgr s1) !! N.to_nat (clockHand (mgr s1)) = Some d ∧
     pinCnt d = 0 ∧ refbit d = false ∧
     evict (clockHand (mgr s1)) d s1 = (r, s')).
Proof.
  revert pc s. induction k as [|k IH]; intros pc s Hrun.
  { cbn in Hrun. injection Hrun as <- <-. left. split; [apply swept_refl|auto]. }
  rewrite allocBuf_loop_S in Hrun.
  destruct (bufDescTable (mgr s) !! N.to_nat (clockHand (mgr s))) as [d|] eqn:Hd.
  2:{ injection Hrun as <- <-. left. split; [apply swept_refl|auto]. }
  assert (Hgo : ∀ pc', allocBuf_loop k pc' (pass_over d s) = (r, s') →
    (swept s s' ∧ (r = OutOfFuel ∨ r = Throw BufferExceededException ∨
                   r = Throw UndefinedBehaviour)) ∨
    (∃ s1 d1, swept s s1 ∧
       bufDescTable (mgr s1) !! N.to_nat (clockHand (mgr s1)) = Some d1 ∧
       pinCnt d1 = 0 ∧ refbit d1 = false ∧
       evict (clockHand (mgr s1)) d1 s1 = (r, s'))).
  { intros pc' Hrun'. apply IH in Hrun' as [[Hsw Hr]|(s1 & d1 & Hsw & Hrest)].
    - left. split; [|done]. eapply swept_trans; [by apply swept_pass_over|done].
    - right. exists s1, d1. split; [|done].
      eapply swept_trans; [by apply swept_pass_over|done]. }
  destruct (0 <? pinCnt d) eqn:Hpin.
  - destruct (wrap32 (pc + 1) =? numBufs (mgr s)).
    { injection Hrun as <- <-. left. split; [apply swept_refl|auto]. }
    destruct (numBufs (mgr s) =? 0); [|by eapply Hgo].
    injection Hrun as <- <-. left. split; [by apply swept_clear_ref|auto].
  - apply N.ltb_ge in Hpin.
    destruct (refbit d) eqn:Href; cbn in Hrun.
    + destruct (numBufs (mgr s) =? 0); [|by eapply Hgo].
      injection Hrun as <- <-. left. split; [by apply swept_clear_ref|auto].
    + right. exists s, d. split; [apply swept_refl|]. repeat split; [done|lia|done..].
Qed.

(** Taking the frame under the hand changes at most that descriptor. *)
Lemma evict_frames (h : N) d s (r : Res N) s' :
  evict h d s = (r, s') →
  numBufs (mgr s') = numBufs (mgr s) ∧
  bufPool (mgr s') = bufPool (mgr s) ∧
  clockHand (mgr s') = clockHand (mgr s) ∧
  (bufDescTable (mgr s') = bufDescTable (mgr s) ∨
   bufDescTable (mgr s') = <[N.to_nat h := BufDesc_Clear d]> (bufDescTable (mgr s))).
Proof.
  unfold evict, File_writePage. unfold_prims. intros Hrun.
  repeat case_match; simplify_eq; cbn; auto.
Qed.

(** It fails with a file exception only when the write-back of a dirty
    frame does, and then nothing but the log has changed. *)
Lemma evict_FileException (h : N) d s (e : N) s' :
  evict h d s = (Throw (FileException e), s') →
  dirty d = true ∧
  ∃ f pg, file d = Some f ∧ bufPool (mgr s) !! N.to_nat h = Some pg ∧
          file_writePage f pg (disk s) = inl e ∧
          s' = log_io (EvWritePage f pg) s.
Proof.
  unfold evict, File_writePage. unfold_prims. intros Hrun.
  repeat case_match; simplify_eq; cbn; eauto 10.
Qed.

(** A refused write-back ends the taking of the frame before the hash
    index or the descriptor is touched. *)
Lemma evict_refused_write (h : N) d s (f : N) (pg : Page) (e : N) :
  dirty d = true → file d = Some f →
  bufPool (mgr s) !! N.to_nat h = Some pg →
  file_writePage f pg (disk s) = inl e →
  evict h d s = (Throw (FileException e), log_io (EvWritePage f pg) s).
Proof.
  intros Hdirty Hf Hpg Hw. unfold evict, File_writePage. unfold_prims.
  by rewrite Hdirty, Hpg, Hf, Hw.
Qed.

Lemma set_refbit_clear d : refbit d = false → set_refbit false d = d.
Proof. destruct d. cbn. by intros ->. Qed.

Lemma evict_not_exceeded (h : N) d s s' :
  evict h d s ≠ (Throw BufferExceededException, s').
Proof.
  unfold evict, File_writePage. unfold_prims. intros Hrun.
  repeat case_match; simplify_eq.
Qed.

(** What a whole call does to the descriptor of any frame. *)
Lemma allocBuf_loop_frame (k : nat) (pc : N) s (r : Res N) s' (i : nat) d :
  allocBuf_loop k pc s = (r, s') →
  bufDescTable (mgr s) !! i = Some d →
  ∃ d', bufDescTable (mgr s') !! i = Some d' ∧
        (swept_frame d d' ∨ (d' = BufDesc_Clear d ∧ pinCnt d = 0)).
Proof.
  intros Hrun Hd.
  apply allocBuf_loop_sweep in Hrun
    as [[(_ & _ & _ & _ & _ & Ht) _]|(s1 & d1 & (_ & _ & _ & _ & _ & Ht) & Hd1 & Hp1 & _ & Hev)].
  - destruct (Forall2_lookup_l _ _ _ _ _ Ht Hd) as (d' & Hd' & Hsw). eauto.
  - destruct (Forall2_lookup_l _ _ _ _ _ Ht Hd) as (d' & Hd' & Hsw).
    apply evict_frames in Hev as (_ & _ & _ & [-> | ->]); [eauto|].
    destruct (decide (i = N.to_nat (clockHand (mgr s1)))) as [->|Hne].
    + rewrite list_lookup_insert_eq by (by eapply lookup_lt_Some).
      assert (d1 = d') as -> by congruence.
      eexists. split; [done|]. right.
      split; [by apply swept_frame_Clear|].
      apply swept_frame_same_binding in Hsw as (_ & _ & _ & _ & Hpc & _).
      congruence.
    + rewrite list_lookup_insert_ne by done. eauto.
Qed.

(** C5, as the code has it: the hand clears the reference bit of every
    frame it passes over, pinned or not, and looks at no valid flag.  A
    visit to a frame with [pinCnt > 0] that does not exhaust the pool counts
    it, sets its reference bit to false and advances the hand; a visit to an
    unpinned frame whose reference bit is set does the same without
    counting.  Over a whole call a pinned frame keeps all its other fields,
    and any frame is left as it was, with its reference bit cleared, or, if
    unpinned, cleared as the frame that is handed out. *)
Theorem allocBuf_sweep_effect :
  (∀ (k : nat) (pc : N) s d,
     bufDescTable (mgr s) !! N.to_nat (clockHand (mgr s)) = Some d →
     0 < pinCnt d →
     wrap32 (pc + 1) ≠ numBufs (mgr s) → numBufs (mgr s) ≠ 0 →
     allocBuf_loop (S k) pc s = allocBuf_loop k (wrap32 (pc + 1)) (pass_over d s)) ∧
  (∀ (k : nat) (pc : N) s d,
     bufDescTable (mgr s) !! N.to_nat (clockHand (mgr s)) = Some d →
     pinCnt d = 0 → refbit d = true → numBufs (mgr s) ≠ 0 →
     allocBuf_loop (S k) pc s = allocBuf_loop k pc (pass_over d s)) ∧
  (∀ s (r : Res N) s' (i : nat) d,
     allocBuf s = (r, s') →
     bufDescTable (mgr s) !! i = Some d →
     ∃ d', bufDescTable (mgr s') !! i = Some d' ∧
           (d' = d ∨ d' = set_refbit false d ∨
            (d' = BufDesc_Clear d ∧ pinCnt d = 0))).
Proof.
  split; [|split].
  - intros k pc s d Hd Hp Hpc Hn. rewrite allocBuf_loop_S, Hd.
    apply N.ltb_lt in Hp as ->. apply N.eqb_neq in Hpc as ->.
    by apply N.eqb_neq in Hn as ->.
  - intros k pc s d Hd Hp Hr Hn. rewrite allocBuf_loop_S, Hd, Hp, Hr. cbn.
    by apply N.eqb_neq in Hn as ->.
  - intros s r s' i d Hrun Hd.
    destruct (allocBuf_loop_frame _ _ _ _ _ _ _ Hrun Hd) as (d' & Hd' & Hcase).
    exists d'. split; [done|]. unfold swept_frame in Hcase. tauto.
Qed.

(** C10: [allocPage] has the file allocate the page before it asks for a
    frame.  When [allocBuf] then raises BufferExceeded, [allocPage] ends with
    that exception; the only file call made is the allocation, whose effect
    on the disk stays; the hash index is as it was and every frame has the
    binding it had, so neither knows the new page. *)
Theorem allocPage_exhausted_after_allocation (f : N) s (pg : Page) (dk : Disk) s' :
  file_allocatePage f (disk s) = inr (pg, dk) →
  allocBuf (set_disk dk (log_io (EvAllocatePage f) s))
    = (Throw BufferExceededException, s') →
  allocPage f s = (Throw BufferExceededException, s') ∧
  iolog s' = iolog s ++ [EvAllocatePage f] ∧
  disk s' = dk ∧
  hashTable (mgr s') = hashTable (mgr s) ∧
  Forall2 same_binding (bufDescTable (mgr s)) (bufDescTable (mgr s')).
Proof.
  intros Halloc Hrun. split.
  - unfold allocPage, File_allocatePage. unfold_prims. by rewrite Halloc, Hrun.
  - apply allocBuf_loop_sweep in Hrun
      as [[(_ & _ & Hh & Hd & Hl & Ht) _]|(s1 & d1 & _ & _ & _ & _ & Hev)].
    + repeat split; [done..|].
      eapply Forall2_impl; [exact Ht|]. apply swept_frame_same_binding.
    + by apply evict_not_exceeded in Hev.
Qed.

(** X18: when the invariant that only valid frames are dirty holds on entry
    and [allocBuf] ends with an exception of the file, in whichever lap of
    the hand, that exception comes from the write-back of the frame the hand
    stopped on.  That frame is still valid and dirty, with the owner, page
    number and pin count it had on entry (its reference bit alone may have
    been cleared earlier in the call), the attempt is the only file call,
    the hash index, the pool and the disk are as they were, and [readPage]
    on a miss and [allocPage] end with the same exception. *)
Theorem allocBuf_FileException_origin s (e : N) s' :
  (∀ (i : nat) d, bufDescTable (mgr s) !! i = Some d →
                  valid d = false → dirty d = false) →
  allocBuf s = (Throw (FileException e), s') →
  (∃ d0 d (f : N) (pg : Page),
     bufDescTable (mgr s) !! N.to_nat (clockHand (mgr s')) = Some d0 ∧
     bufDescTable (mgr s') !! N.to_nat (clockHand (mgr s')) = Some d ∧
     same_binding d0 d ∧
     valid d = true ∧ dirty d = true ∧ file d = Some f ∧
     bufPool (mgr s') !! N.to_nat (clockHand (mgr s')) = Some pg ∧
     file_writePage f pg (disk s) = inl e ∧
     iolog s' = iolog s ++ [EvWritePage f pg]) ∧
  hashTable (mgr s') = hashTable (mgr s) ∧
  bufPool (mgr s') = bufPool (mgr s) ∧
  disk s' = disk s ∧
  (∀ f' p', hashTable (mgr s) !! (Some f', p') = None →
            readPage f' p' s = (Throw (FileException e), s')) ∧
  (∀ f' s0 pg0 dk,
     file_allocatePage f' (disk s0) = inr (pg0, dk) →
     s = set_disk dk (log_io (EvAllocatePage f') s0) →
     allocPage f' s0 = (Throw (FileException e), s')).
Proof.
  intros Hclean Hrun.
  assert (Hprop : (∀ f' p', hashTable (mgr s) !! (Some f', p') = None →
            readPage f' p' s = (Throw (FileException e), s')) ∧
     (∀ f' s0 pg0 dk,
        file_allocatePage f' (disk s0) = inr (pg0, dk) →
        s = set_disk dk (log_io (EvAllocatePage f') s0) →
        allocPage f' s0 = (Throw (FileException e), s'))).
  { split.
    - intros f' p' Hk. unfold readPage. unfold_prims. by rewrite Hk, Hrun.
    - intros f' s0 pg0 dk Halloc Hs. unfold allocPage, File_allocatePage.
      unfold_prims. by rewrite Halloc, <- Hs, Hrun. }
  destruct Hprop as [Hread Halloc].
  apply allocBuf_loop_sweep in Hrun
    as [[_ [Hr|[Hr|Hr]]]|(s1 & d1 & (_ & Hp & Hh & Hd & Hl & Ht) & Hd1 & _ & _ & Hev)];
    [discriminate Hr..|].
  apply evict_FileException in Hev as (Hdirty & f & pg & Hf & Hpg & Hw & ->).
  cbn. rewrite Hd in Hw.
  destruct (Forall2_lookup_r _ _ _ _ _ Ht Hd1) as (d0 & Hd0 & Hsw).
  apply swept_frame_same_binding in Hsw as Hsame.
  split; [|by repeat split].
  exists d0, d1, f, pg. rewrite Hl.
  repeat split; try done; try apply Hsame.
  destruct (valid d1) eqn:Hv; [done|].
  destruct Hsame as (_ & _ & _ & Hv0 & _ & Hdirty0).
  rewrite Hv in Hv0. symmetry in Hv0.
  rewrite (Hclean _ _ Hd0 Hv0) in Hdirty0. congruence.
Qed.

(** *** Termination of the loop of [allocBuf] *)

Lemma second_chances_insert (t : list BufDesc) (i : nat) d d' :
  t !! i = Some d →
  (second_chances (<[i := d']> t) + second_chance d)%nat
  = (second_chances t + second_chance d')%nat.
Proof.
  intros Hd. unfold second_chances.
  rewrite insert_take_drop by (by eapply lookup_lt_Some).
  rewrite <- (take_drop_middle t i d Hd) at 3.
  rewrite !sum_list_with_app. cbn. lia.
Qed.

Lemma second_chances_le (t : list BufDesc) : (second_chances t ≤ length t)%nat.
Proof.
  unfold second_chances. induction t as [|d t IH]; cbn; [lia|].
  unfold second_chance at 1. destruct (_ && _); lia.
Qed.

Lemma evict_not_OutOfFuel (h : N) d s s' : evict h d s ≠ (OutOfFuel, s').
Proof.
  unfold evict, File_writePage. unfold_prims. intros Hrun.
  repeat case_match; simplify_eq.
Qed.

(** With more fuel than passes are left, the loop ends by itself. *)
Lemma allocBuf_loop_total (k : nat) (pc : N) s :
  numBufs (mgr s) < 2 ^ 32 →
  pc < numBufs (mgr s) ∨ numBufs (mgr s) = 0 →
  (N.to_nat (numBufs (mgr s) - pc) + second_chances (bufDescTable (mgr s)) < k)%nat →
  (allocBuf_loop k pc s).1 ≠ OutOfFuel.
Proof.
  revert pc s. induction k as [|k IH]; intros pc s Hn Hpc Hk; [lia|].
  rewrite allocBuf_loop_S.
  destruct (bufDescTable (mgr s) !! N.to_nat (clockHand (mgr s))) as [d|] eqn:Hd;
    [|done].
  pose proof (second_chances_insert _ _ _ (set_refbit false d) Hd) as Hcnt.
  destruct (0 <? pinCnt d) eqn:Hpin.
  - destruct (wrap32 (pc + 1) =? numBufs (mgr s)) eqn:Hfull; [done|].
    destruct (numBufs (mgr s) =? 0) eqn:Hz; [done|].
    apply N.eqb_neq in Hfull, Hz. apply N.ltb_lt in Hpin.
    destruct Hpc as [Hpc|]; [|done].
    assert (Hw : wrap32 (pc + 1) = pc + 1)
      by (unfold wrap32; apply N.mod_small; lia).
    rewrite Hw in *. apply IH; cbn; [done|left; lia|].
    unfold second_chance in Hcnt. cbn in Hcnt.
    replace (pinCnt d =? 0) with false in Hcnt by (symmetry; apply N.eqb_neq; lia).
    cbn in Hcnt. unfold second_chances in *. lia.
  - apply N.ltb_ge in Hpin. destruct (refbit d) eqn:Href; cbn.
    + destruct (numBufs (mgr s) =? 0) eqn:Hz; [done|].
      apply N.eqb_neq in Hz. destruct Hpc as [Hpc|]; [|done].
      apply IH; cbn; [done|by left|].
      unfold second_chance in Hcnt. cbn in Hcnt. rewrite Href in Hcnt.
      replace (pinCnt d =? 0) with true in Hcnt by (symmetry; apply N.eqb_eq; lia).
      cbn in Hcnt. unfold second_chances in *. lia.
    + destruct (evict (clockHand (mgr s)) d s) as [r s'] eqn:Hev. cbn.
      intros ->. by apply evict_not_OutOfFuel in Hev.
Qed.

(** [allocBuf] always ends: it returns a frame or throws. *)
Lemma allocBuf_total s :
  numBufs (mgr s) < 2 ^ 32 → (allocBuf s).1 ≠ OutOfFuel.
Proof.
  intros Hn. unfold allocBuf, allocBuf_fuel. apply allocBuf_loop_total; [done|lia|].
  pose proof (second_chances_le (bufDescTable (mgr s))). lia.
Qed.

(** More fuel does not change a run that ended by itself. *)
Lemma allocBuf_loop_fuel (k k' : nat) (pc : N) s (r : Res N) s' :
  allocBuf_loop k pc s = (r, s') → r ≠ OutOfFuel → (k ≤ k')%nat →
  allocBuf_loop k' pc s = (r, s').
Proof.
  revert k' pc s. induction k as [|k IH]; intros k' pc s Hrun Hr Hk.
  { cbn in Hrun. by injection Hrun as <- <-. }
  destruct k' as [|k']; [lia|].
  rewrite allocBuf_loop_S in *.
  repeat case_match; try done; (eapply IH; [done..|lia]).
Qed.

(** *** When the pool counts as exhausted *)

Lemma wrap32_small (x : N) : x < 2 ^ 32 → wrap32 x = x.
Proof. intros Hx. unfold wrap32. by apply N.mod_small. Qed.

Lemma shape_ok_frame s :
  shape_ok (mgr s) →
  is_Some (bufDescTable (mgr s) !! N.to_nat (clockHand (mgr s))).
Proof. intros (Hn & Hlen & _ & Hh). apply lookup_lt_is_Some_2. lia. Qed.

Lemma pass_over_shape s d :
  shape_ok (mgr s) →
  shape_ok (mgr (pass_over d s)) ∧
  numBufs (mgr (pass_over d s)) = numBufs (mgr s) ∧
  clockHand (mgr (pass_over d s)) = (clockHand (mgr s) + 1) mod numBufs (mgr s).
Proof.
  intros (Hn & Hlen & Hpool & Hh). cbn.
  rewrite wrap32_small by lia. split; [|done].
  repeat split; cbn; try lia.
  - by rewrite length_insert.
  - apply N.mod_upper_bound. lia.
Qed.

(** While a frame that is unpinned and has its reference bit clear lies
    ahead of the hand, fewer pinned frames have been counted than there are
    frames: the loop reaches it first. *)
Lemma allocBuf_loop_not_exceeded (k : nat) (pc : N) s (j : nat) d (δ : N) :
  shape_ok (mgr s) →
  bufDescTable (mgr s) !! j = Some d → pinCnt d = 0 → refbit d = false →
  N.of_nat j = (clockHand (mgr s) + δ) mod numBufs (mgr s) →
  pc + δ < numBufs (mgr s) →
  (allocBuf_loop k pc s).1 ≠ Throw BufferExceededException.
Proof.
  revert pc s δ. induction k as [|k IH]; intros pc s δ Hshape Hd Hp Hr Hj Hpc;
    [done|].
  rewrite allocBuf_loop_S.
  destruct (shape_ok_frame s Hshape) as [dh Hdh]. rewrite Hdh.
  destruct (pass_over_shape s dh Hshape) as (Hshape' & Hn' & Hh').
  pose proof Hshape as (Hn & Hlen & _ & Hh).
  assert (Hnext : ∀ pc', pc' + (δ - 1) < numBufs (mgr s) → δ ≠ 0 →
            j ≠ N.to_nat (clockHand (mgr s)) →
            (allocBuf_loop k pc' (pass_over dh s)).1 ≠ Throw BufferExceededException).
  { intros pc' Hpc' Hδ Hne. apply (IH pc' _ (δ - 1)); [done| |done|done| |].
    - cbn. by rewrite list_lookup_insert_ne.
    - rewrite Hn', Hh', N.Div0.add_mod_idemp_l, Hj. f_equal. lia.
    - by rewrite Hn'. }
  assert (Hδ : j ≠ N.to_nat (clockHand (mgr s)) → δ ≠ 0).
  { intros Hne ->. apply Hne. rewrite N.add_0_r, N.mod_small in Hj by done. lia. }
  destruct (0 <? pinCnt dh) eqn:Hpin.
  - apply N.ltb_lt in Hpin.
    assert (Hne : j ≠ N.to_nat (clockHand (mgr s))).
    { intros ->. assert (dh = d) as -> by congruence. lia. }
    specialize (Hδ Hne). rewrite wrap32_small by lia.
    destruct (N.eqb_spec (pc + 1) (numBufs (mgr s))); [lia|].
    destruct (N.eqb_spec (numBufs (mgr s)) 0); [lia|].
    apply Hnext; [lia|done..].
  - destruct (refbit dh) eqn:Href; cbn.
    + assert (Hne : j ≠ N.to_nat (clockHand (mgr s))).
      { intros ->. assert (dh = d) as -> by congruence. congruence. }
      specialize (Hδ Hne).
      destruct (N.eqb_spec (numBufs (mgr s)) 0); [lia|].
      apply Hnext; [lia|done..].
    + destruct (evict (clockHand (mgr s)) dh s) as [r s'] eqn:Hev. cbn.
      intros ->. by apply evict_not_exceeded in Hev.
Qed.

(** X5: BufferExceeded is raised only when every frame is pinned or has its
    reference bit set at the call: while some frame is unpinned with its
    reference bit clear, the hand reaches it before the count of pinned
    frames reaches [numBufs]. *)
Lemma allocBuf_exceeded_only_if s s' :
  shape_ok (mgr s) →
  allocBuf s = (Throw BufferExceededException, s') →
  ∀ (j : nat) d, bufDescTable (mgr s) !! j = Some d →
                 0 < pinCnt d ∨ refbit d = true.
Proof.
  intros Hshape Hrun j d Hd.
  destruct (N.eq_dec (pinCnt d) 0) as [Hp|Hp]; [|left; lia].
  destruct (refbit d) eqn:Hr; [by right|]. exfalso.
  pose proof Hshape as (Hn & Hlen & _ & Hh).
  apply lookup_lt_Some in Hd as Hj.
  set (n := numBufs (mgr s)) in *. set (h := clockHand (mgr s)) in *.
  eapply (allocBuf_loop_not_exceeded _ 0 s j d ((N.of_nat j + n - h) mod n));
    try done.
  - fold n h. rewrite N.Div0.add_mod_idemp_r.
    replace (h + (N.of_nat j + n - h)) with (N.of_nat j + 1 * n) by lia.
    rewrite N.Div0.mod_add. symmetry. apply N.mod_small. lia.
  - fold n. rewrite N.add_0_l. apply N.mod_upper_bound. lia.
  - unfold allocBuf in Hrun. by rewrite Hrun.
Qed.

(** With every frame pinned, BufferExceeded is raised. *)
Lemma allocBuf_loop_all_pinned (k : nat) (pc : N) s :
  shape_ok (mgr s) →
  (∀ (j : nat) d, bufDescTable (mgr s) !! j = Some d → 0 < pinCnt d) →
  pc < numBufs (mgr s) →
  (N.to_nat (numBufs (mgr s) - pc) ≤ k)%nat →
  (allocBuf_loop k pc s).1 = Throw BufferExceededException.
Proof.
  revert pc s. induction k as [|k IH]; intros pc s Hshape Hall Hpc Hk; [lia|].
  rewrite allocBuf_loop_S.
  destruct (shape_ok_frame s Hshape) as [dh Hdh]. rewrite Hdh.
  destruct (pass_over_shape s dh Hshape) as (Hshape' & Hn' & _).
  pose proof Hshape as (Hn & _).
  pose proof (Hall _ _ Hdh) as Hpin. apply N.ltb_lt in Hpin as ->.
  rewrite wrap32_small by lia.
  destruct (N.eqb_spec (pc + 1) (numBufs (mgr s))); [done|].
  destruct (N.eqb_spec (numBufs (mgr s)) 0); [lia|].
  apply IH; [done| |lia|lia].
  intros j d Hd. cbn in Hd.
  destruct (decide (j = N.to_nat (clockHand (mgr s)))) as [->|Hne].
  - rewrite list_lookup_insert_eq in Hd by (by eapply lookup_lt_Some).
    injection Hd as <-. cbn. by eapply Hall.
  - rewrite list_lookup_insert_ne in Hd by done. by eapply Hall.
Qed.

Lemma allocBuf_all_pinned s :
  shape_ok (mgr s) →
  (∀ (j : nat) d, bufDescTable (mgr s) !! j = Some d → 0 < pinCnt d) →
  (allocBuf s).1 = Throw BufferExceededException.
Proof.
  intros Hshape Hall. unfold allocBuf, allocBuf_fuel.
  destruct Hshape as (Hn & ?). apply allocBuf_loop_all_pinned; [done..|lia|lia].
Qed.

(** *** A freshly constructed manager *)

Lemma BufMgr_new_frame (n : N) (i : nat) d :
  bufDescTable (BufMgr_new n) !! i = Some d → d = BufDesc_init (N.of_nat i).
Proof.
  cbn. rewrite list_lookup_fmap.
  destruct (seq 0 (N.to_nat n) !! i) as [j|] eqn:Hj; [|done].
  apply lookup_seq in Hj as [-> _]. cbn. congruence.
Qed.

(** On a manager in its initial state [allocBuf] fails at the first frame
    it looks at, and leaves everything as it was. *)
Lemma allocBuf_fresh_fails (n : N) s :
  mgr s = BufMgr_new n →
  allocBuf s = (Throw HashNotFoundException, s) ∨
  allocBuf s = (Throw UndefinedBehaviour, s).
Proof.
  intros Hm. unfold allocBuf, allocBuf_fuel. rewrite allocBuf_loop_S.
  destruct (bufDescTable (mgr s) !! _) as [d|] eqn:Hd; [|by right].
  rewrite Hm in Hd. apply BufMgr_new_frame in Hd. subst d. cbn.
  left. unfold evict, hash_remove, mbind, M_bind, bind, ret. cbn.
  rewrite Hm. cbn. by rewrite lookup_empty.
Qed.

Lemma flushFile_loop_fresh (n : N) (c : nat) (f i : N) s :
  mgr s = BufMgr_new n → mgr (flushFile_loop c f i s).2 = BufMgr_new n.
Proof.
  revert i s. induction c as [|c IH]; intros i s Hm; [done|].
  cbn [flushFile_loop]. unfold flushFile_body. unfold_prims.
  destruct (bufDescTable (mgr s) !! N.to_nat i) as [d|] eqn:Hd; [|done].
  rewrite Hm in Hd. apply BufMgr_new_frame in Hd. subst d.
  rewrite decide_False by done. by apply IH.
Qed.

Lemma run_op_fresh (n : N) (o : Op) s :
  mgr s = BufMgr_new n → mgr (run_op o s) = BufMgr_new n.
Proof.
  intros Hm.
  assert (Hh : ∀ k, hashTable (mgr s) !! k = None)
    by (intros k; rewrite Hm; apply lookup_empty).
  destruct o as [f p|f p b|f|f p|f]; cbn [run_op].
  - unfold readPage, catch_HashNotFound, hash_lookup. rewrite Hh.
    unfold mbind, M_bind, bind.
    by destruct (allocBuf_fresh_fails n s Hm) as [-> | ->].
  - unfold unPinPage, catch_HashNotFound, hash_lookup. by rewrite Hh.
  - unfold allocPage, mbind, M_bind, bind, File_allocatePage.
    destruct (file_allocatePage f (disk s)) as [e|[pg dk]]; [done|].
    set (s1 := set_disk dk (log_io (EvAllocatePage f) s)).
    assert (Hm1 : mgr s1 = BufMgr_new n) by done.
    by destruct (allocBuf_fresh_fails n s1 Hm1) as [-> | ->].
  - unfold disposePage, catch_HashNotFound, hash_lookup. by rewrite Hh.
  - unfold flushFile, mbind, M_bind, bind, gets.
    by apply flushFile_loop_fresh.
Qed.

(** No sequence of calls ever changes a manager that starts out fresh: every
    [allocBuf] fails before a frame is bound, and nothing else binds one. *)
Lemma run_ops_fresh (n : N) (ops : list Op) s :
  mgr s = BufMgr_new n → mgr (run_ops ops s) = BufMgr_new n.
Proof.
  revert s. induction ops as [|o ops IH]; intros s Hm; [done|].
  cbn. apply IH. by apply run_op_fresh.
Qed.

Lemma BufMgr_new_bijection (n : N) : hash_frames_bijection (BufMgr_new n).
Proof.
  split.
  - intros i d Hd Hv. apply BufMgr_new_frame in Hd. by subst d.
  - intros k i Hk. cbn in Hk. by rewrite lookup_empty in Hk.
Qed.

(** *** flushFile *)

(** One iteration that goes through either skips a frame of another file or
    writes back, unhooks and clears a frame of [f]. *)
Lemma flushFile_body_Ok (f i : N) s s' :
  flushFile_body f i s = (Ok tt, s') →
  ∃ d, bufDescTable (mgr s) !! N.to_nat i = Some d ∧
    ((file d ≠ Some f ∧ s' = s) ∨
     (file d = Some f ∧
      numBufs (mgr s') = numBufs (mgr s) ∧
      bufPool (mgr s') = bufPool (mgr s) ∧
      bufDescTable (mgr s') = <[N.to_nat i := BufDesc_Clear d]> (bufDescTable (mgr s)) ∧
      hashTable (mgr s') = delete (Some f, pageNo d) (hashTable (mgr s)) ∧
      ((dirty d = false ∧ iolog s' = iolog s) ∨
       (dirty d = true ∧ ∃ pg, bufPool (mgr s) !! N.to_nat i = Some pg ∧
                               iolog s' = iolog s ++ [EvWritePage f pg])))).
Proof.
  unfold flushFile_body, File_writePage. unfold_prims. intros Hrun.
  destruct (bufDescTable (mgr s) !! N.to_nat i) as [d|] eqn:Hd; [|done].
  exists d. split; [done|].
  destruct (decide (file d = Some f)) as [Hf|Hf]; [|left; by simplify_eq].
  right. split; [done|].
  assert (Hlt : (N.to_nat i < length (bufDescTable (mgr s)))%nat)
    by (by eapply lookup_lt_Some).
  repeat case_match; simplify_eq; cbn in *;
    repeat match goal with
    | Hl : <[_ := _]> _ !! _ = Some _ |- _ =>
        rewrite list_lookup_insert_eq in Hl by done
    | Hl : _ !! _ = Some _, Hl' : _ !! _ = Some _ |- _ =>
        rewrite Hl in Hl'
    end; simplify_eq; cbn;
    rewrite ?list_insert_insert_eq; eauto 10.
Qed.

Lemma flush_writes_cons (f : N) d (t : list BufDesc) (pg : Page) (pool : list Page) :
  flush_writes f (d :: t) (pg :: pool) =
  (if decide (file d = Some f)
   then if dirty d then [EvWritePage f pg] else []
   else []) ++ flush_writes f t pool.
Proof.
  unfold flush_writes. cbn.
  destruct (decide (file d = Some f)); [destruct (dirty d)|]; done.
Qed.

(** The loop from frame [i] to the end of the table. *)
Lemma flushFile_loop_Ok (c : nat) (f i : N) s s' :
  length (bufDescTable (mgr s)) = (N.to_nat i + c)%nat →
  length (bufPool (mgr s)) = length (bufDescTable (mgr s)) →
  flushFile_loop c f i s = (Ok tt, s') →
  iolog s' = iolog s ++ flush_writes f (drop (N.to_nat i) (bufDescTable (mgr s)))
                                       (drop (N.to_nat i) (bufPool (mgr s))) ∧
  numBufs (mgr s') = numBufs (mgr s) ∧
  bufPool (mgr s') = bufPool (mgr s) ∧
  length (bufDescTable (mgr s')) = length (bufDescTable (mgr s)) ∧
  hashTable (mgr s') ⊆ hashTable (mgr s) ∧
  (∀ (j : nat) d, bufDescTable (mgr s) !! j = Some d →
     (N.to_nat i ≤ j)%nat → file d = Some f →
     bufDescTable (mgr s') !! j = Some (BufDesc_Clear d) ∧
     hashTable (mgr s') !! (Some f, pageNo d) = None) ∧
  (∀ (j : nat) d, bufDescTable (mgr s) !! j = Some d →
     (j < N.to_nat i)%nat ∨ file d ≠ Some f →
     bufDescTable (mgr s') !! j = Some d).
Proof.
  revert i s. induction c as [|c IH]; intros i s Hlen Hpool Hrun.
  { cbn in Hrun. injection Hrun as <-.
    rewrite !drop_ge by lia. rewrite app_nil_r.
    split_and!; try done.
    intros j d Hd Hj. apply lookup_lt_Some in Hd. lia. }
  cbn [flushFile_loop] in Hrun. unfold mbind, M_bind, bind in Hrun.
  destruct (flushFile_body f i s) as [[[]| |] s1] eqn:Hbody; try done.
  apply flushFile_body_Ok in Hbody as (d & Hd & Hbody).
  assert (Hi : N.to_nat (i + 1) = S (N.to_nat i)) by lia.
  destruct (lookup_lt_is_Some_2 (bufPool (mgr s)) (N.to_nat i)) as [pg Hpg];
    [apply lookup_lt_Some in Hd; lia|].
  rewrite (drop_S _ _ _ Hd), (drop_S _ _ _ Hpg), flush_writes_cons.
  destruct Hbody as [[Hf ->]|(Hf & Hn1 & Hp1 & Ht1 & Hh1 & Hio)].
  - apply IH in Hrun as (Hio' & Hn' & Hp' & Hl' & Hh' & Hin' & Hout'); [|lia|done].
    rewrite Hi in Hio', Hin', Hout'. rewrite decide_False by done.
    split_and!; try done.
    + intros j dj Hdj Hj Hfj.
      destruct (decide (j = N.to_nat i)) as [->|Hne]; [congruence|].
      apply Hin'; [done|lia|done].
    + intros j dj Hdj Hfj.
      destruct (decide (j = N.to_nat i)) as [->|Hne].
      * assert (dj = d) as -> by congruence. apply Hout'; [done|left; lia].
      * apply Hout'; [done|]. destruct Hfj; [left; lia|by right].
  - apply IH in Hrun as (Hio' & Hn' & Hp' & Hl' & Hh' & Hin' & Hout');
      [|rewrite Ht1, length_insert; lia|rewrite Hp1, Ht1, length_insert; done].
    rewrite Hi, Hp1, Ht1, drop_insert_lt in Hio' by lia.
    rewrite Ht1, length_insert in Hl'. rewrite decide_True by done.
    rewrite Hi, Ht1 in Hin', Hout'.
    assert (Hsub : hashTable (mgr s') ⊆ hashTable (mgr s)).
    { etrans; [exact Hh'|]. rewrite Hh1. apply delete_subseteq. }
    assert (Hkey : hashTable (mgr s') !! (Some f, pageNo d) = None).
    { eapply lookup_weaken_None; [|exact Hh']. rewrite Hh1. apply lookup_delete_eq. }
    assert (Hlt : (N.to_nat i < length (bufDescTable (mgr s)))%nat)
      by (by eapply lookup_lt_Some).
    split_and!; try congruence; try exact Hsub.
    + rewrite Hio'. destruct Hio as [[-> ->]|(-> & pg' & Hpg' & ->)]; [done|].
      rewrite Hpg in Hpg'. injection Hpg' as <-. by rewrite <- app_assoc.
    + intros j dj Hdj Hj Hfj.
      destruct (decide (j = N.to_nat i)) as [->|Hne].
      * assert (dj = d) as -> by congruence. split; [|done].
        apply Hout'; [by rewrite list_lookup_insert_eq|left; lia].
      * apply Hin'; [by rewrite list_lookup_insert_ne|lia|done].
    + intros j dj Hdj Hfj.
      destruct (decide (j = N.to_nat i)) as [->|Hne].
      * assert (dj = d) as -> by congruence. destruct Hfj; [lia|done].
      * apply Hout'; [by rewrite list_lookup_insert_ne|].
        destruct Hfj; [left; lia|by right].
Qed.

(** On a table without frames of [f] the loop does nothing. *)
Lemma flushFile_loop_noop (c : nat) (f i : N) s :
  (N.to_nat i + c ≤ length (bufDescTable (mgr s)))%nat →
  (∀ (j : nat) d, bufDescTable (mgr s) !! j = Some d → file d ≠ Some f) →
  flushFile_loop c f i s = (Ok tt, s).
Proof.
  revert i. induction c as [|c IH]; intros i Hlen Hno; [done|].
  cbn [flushFile_loop]. unfold flushFile_body. unfold_prims.
  destruct (lookup_lt_is_Some_2 (bufDescTable (mgr s)) (N.to_nat i)) as [d Hd];
    [lia|].
  rewrite Hd, decide_False by (by eapply Hno).
  apply IH; [lia|done].
Qed.

(** C7: a [flushFile(F)] that returns has called writePage for exactly the
    frames of [F] that were dirty at the call, in ascending frame order, and
    made no other file call; every frame of [F] is cleared and its key is
    gone from the hash index, the other frames are as they were; afterwards
    no frame refers to [F], and a second [flushFile(F)] returns without any
    write-back or any other change. *)
Theorem flushFile_spec (f : N) s s' :
  length (bufDescTable (mgr s)) = N.to_nat (numBufs (mgr s)) →
  length (bufPool (mgr s)) = N.to_nat (numBufs (mgr s)) →
  flushFile f s = (Ok tt, s') →
  iolog s' = iolog s ++ flush_writes f (bufDescTable (mgr s)) (bufPool (mgr s)) ∧
  (∀ (i : nat) d, bufDescTable (mgr s) !! i = Some d → file d = Some f →
     bufDescTable (mgr s') !! i = Some (BufDesc_Clear d) ∧
     hashTable (mgr s') !! (Some f, pageNo d) = None) ∧
  (∀ (i : nat) d, bufDescTable (mgr s) !! i = Some d → file d ≠ Some f →
     bufDescTable (mgr s') !! i = Some d) ∧
  (∀ (i : nat) d, bufDescTable (mgr s') !! i = Some d → file d ≠ Some f) ∧
  flushFile f s' = (Ok tt, s').
Proof.
  intros Hlen Hpool Hrun. unfold flushFile in Hrun. unfold_prims.
  apply flushFile_loop_Ok in Hrun as (Hio & Hn & Hp & Hl & Hh & Hin & Hout);
    [|cbn; lia|congruence].
  change (N.to_nat 0) with 0%nat in Hio, Hin, Hout. rewrite !drop_0 in Hio.
  assert (Hb : ∀ (i : nat) d, bufDescTable (mgr s) !! i = Some d → file d = Some f →
     bufDescTable (mgr s') !! i = Some (BufDesc_Clear d) ∧
     hashTable (mgr s') !! (Some f, pageNo d) = None).
  { intros i d Hd Hf. apply Hin; [done|lia|done]. }
  assert (Hc : ∀ (i : nat) d, bufDescTable (mgr s) !! i = Some d → file d ≠ Some f →
     bufDescTable (mgr s') !! i = Some d).
  { intros i d Hd Hf. apply Hout; [done|by right]. }
  assert (Hd : ∀ (i : nat) d, bufDescTable (mgr s') !! i = Some d → file d ≠ Some f).
  { intros i d' Hd'.
    destruct (lookup_lt_is_Some_2 (bufDescTable (mgr s)) i) as [d Hd];
      [apply lookup_lt_Some in Hd'; lia|].
    destruct (decide (file d = Some f)) as [Hf|Hf].
    - destruct (Hb i d Hd Hf) as [Hd'' _]. rewrite Hd' in Hd''.
      by injection Hd'' as ->.
    - rewrite (Hc i d Hd Hf) in Hd'. by injection Hd' as ->. }
  split_and!; try done.
  unfold flushFile. unfold_prims.
  apply flushFile_loop_noop; [cbn; lia|done].
Qed.

(** *** unPinPage *)

(** C6: [unPinPage(file, pageNo, dirty)] returns without any change when the
    page is not in the hash index; fails with NotPinned, changing nothing,
    when the mapped frame has [pinCnt = 0]; otherwise takes exactly one pin
    off that frame and sets its dirty flag if [dirty] is true, never
    clearing it. *)
Theorem unPinPage_spec (f p : N) (b : bool) s :
  (hashTable (mgr s) !! (Some f, p) = None →
   unPinPage f p b s = (Ok tt, s)) ∧
  (∀ (i : N) d,
     hashTable (mgr s) !! (Some f, p) = Some i →
     bufDescTable (mgr s) !! N.to_nat i = Some d →
     (pinCnt d = 0 →
      unPinPage f p b s = (Throw (PageNotPinnedException f p i), s)) ∧
     (0 < pinCnt d →
      unPinPage f p b s = (Ok tt, put_frame i (unpinned b d) s) ∧
      pinCnt (unpinned b d) + 1 = pinCnt d ∧
      (dirty d = true → dirty (unpinned b d) = true) ∧
      (b = true → dirty (unpinned b d) = true))).
Proof.
  split.
  - intros Hk. unfold unPinPage. unfold_prims. by rewrite Hk.
  - intros i d Hk Hd. split; intros Hp.
    + unfold unPinPage. unfold_prims. rewrite Hk, Hd, Hp. done.
    + assert (Hlt : (N.to_nat i < length (bufDescTable (mgr s)))%nat)
        by (by eapply lookup_lt_Some).
      apply N.ltb_lt in Hp as Hp'.
      split; [|split; [cbn; lia|split; [cbn; intros ->; by destruct b|by intros ->]]].
      unfold unPinPage. unfold_prims. rewrite Hk, Hd, Hp'. cbn.
      unfold put_frame. destruct b; cbn.
      * rewrite list_lookup_insert_eq by done. cbn.
        by rewrite list_insert_insert_eq.
      * done.
Qed.

(** *** allocPage and disposePage *)

(** Whatever frame [allocBuf] hands out, a successful [allocPage] has [Set]
    the first descriptor of the table and mapped the new page to the frame
    handed out. *)
Lemma allocPage_Ok_first_frame (f : N) s (p i : N) s' :
  allocPage f s = (Ok (p, i), s') →
  (∃ d0, bufDescTable (mgr s') !! 0%nat = Some (BufDesc_Set f p d0)) ∧
  hashTable (mgr s') !! (Some f, p) = Some i.
Proof.
  unfold allocPage, File_allocatePage. unfold_prims. intros Hrun.
  destruct (file_allocatePage f (disk s)) as [e|[pg dk]]; [done|].
  destruct (allocBuf _) as [[i'| |] s1]; try done.
  destruct (hashTable (mgr s1) !! (Some f, page_number pg)); [done|].
  cbn in Hrun. change (N.to_nat 0) with 0%nat in Hrun.
  destruct (bufDescTable (mgr s1) !! 0%nat) as [d0|] eqn:Hd0; [|done].
  injection Hrun as <- <- <-. cbn. split.
  - exists d0. apply list_lookup_insert_eq. by eapply lookup_lt_Some.
  - apply lookup_insert_eq.
Qed.

(** A page that is not in the pool is left alone, on disk as well. *)
Lemma disposePage_absent (f p : N) s :
  hashTable (mgr s) !! (Some f, p) = None → disposePage f p s = (Ok tt, s).
Proof. intros Hk. unfold disposePage. unfold_prims. by rewrite Hk. Qed.

(** A page held by a valid frame is unhooked, its frame cleared and the file
    asked to delete it; no other file call is made, so nothing is written
    back, dirty or not. *)
Lemma disposePage_present (f p i : N) d s (r : Res unit) s' :
  hashTable (mgr s) !! (Some f, p) = Some i →
  bufDescTable (mgr s) !! N.to_nat i = Some d →
  valid d = true →
  disposePage f p s = (r, s') →
  hashTable (mgr s') = delete (Some f, p) (hashTable (mgr s)) ∧
  bufDescTable (mgr s') = <[N.to_nat i := BufDesc_Clear d]> (bufDescTable (mgr s)) ∧
  iolog s' = iolog s ++ [EvDeletePage f p].
Proof.
  intros Hk Hd Hv. unfold disposePage, File_deletePage. unfold_prims.
  rewrite Hk, Hd, Hv, Hk. cbn. intros Hrun.
  destruct (file_deletePage f p (disk s)); by injection Hrun as <- <-.
Qed.

(** [allocBuf] does not look at [valid]: on an unbound frame under the hand
    it asks the hash index to remove a key that is not there. *)
Lemma allocBuf_unbound_frame s d :
  bufDescTable (mgr s) !! N.to_nat (clockHand (mgr s)) = Some d →
  pinCnt d = 0 → refbit d = false → dirty d = false →
  hashTable (mgr s) !! (file d, pageNo d) = None →
  allocBuf s = (Throw HashNotFoundException, s).
Proof.
  intros Hd Hp Hr Hdirty Hk. unfold allocBuf, allocBuf_fuel.
  rewrite allocBuf_loop_S, Hd, Hp, Hr. cbn.
  unfold evict. unfold_prims. by rewrite Hdirty, Hk.
Qed.

End Properties.

(** * Further properties of the methods *)

Section Coverage.
Context {Disk : Type} `{FileOps Disk}.
Implicit Types (s : St Disk) (d : BufDesc) (m : BufMgr) (P : St Disk → Prop).

Ltac unfold_prims :=
  repeat progress
    unfold mbind, M_bind, mret, M_ret, bind, ret, throw, out_of_fuel, gets, modify,
      catch_HashNotFound, frame_at, set_frame, pool_at, set_pool,
      hash_lookup, hash_insert, hash_remove, advanceClock.

(** *** Rules for [preserves] *)

Lemma preserves_ret {A} P (a : A) : preserves P (ret a).
Proof. intros s r s' Hrun HP. by injection Hrun as <- <-. Qed.

Lemma preserves_throw {A} P (e : Exn) : preserves P (throw (A := A) e).
Proof. intros s r s' Hrun HP. by injection Hrun as <- <-. Qed.

Lemma preserves_out_of_fuel {A} P : preserves P (out_of_fuel (A := A)).
Proof. intros s r s' Hrun HP. by injection Hrun as <- <-. Qed.

Lemma preserves_mbind {A B} P (c : M Disk A) (k : A → M Disk B) :
  preserves P c → (∀ a, preserves P (k a)) → preserves P (c ≫= k).
Proof.
  intros Hc Hk s r s' Hrun HP. unfold mbind, M_bind, bind in Hrun.
  destruct (c s) as [[a|e|] s1] eqn:Hcs.
  - eapply Hk; [done|]. by eapply Hc.
  - injection Hrun as <- <-. by eapply Hc.
  - injection Hrun as <- <-. by eapply Hc.
Qed.

Lemma preserves_catch {A B} P (body : M Disk A) (handler : M Disk B)
    (rest : A → M Disk B) :
  preserves P body → preserves P handler → (∀ a, preserves P (rest a)) →
  preserves P (catch_HashNotFound body handler rest).
Proof.
  intros Hb Hh Hr s r s' Hrun HP. unfold catch_HashNotFound in Hrun.
  destruct (body s) as [[a|e|] s1] eqn:Hbs.
  - eapply Hr; [done|]. by eapply Hb.
  - assert (P s1) by (by eapply Hb).
    destruct e; try (by injection Hrun as <- <-). by eapply Hh.
  - injection Hrun as <- <-. by eapply Hb.
Qed.

(** A computation that only reads keeps everything. *)
Lemma preserves_read {A} P (c : M Disk A) :
  (∀ s, (c s).2 = s) → preserves P c.
Proof. intros Hc s r s' Hrun HP. specialize (Hc s). rewrite Hrun in Hc. by subst. Qed.

Lemma preserves_gets {A} P (g : BufMgr → A) : preserves P (gets g).
Proof. by apply preserves_read. Qed.

Lemma preserves_frame_at P (i : N) : preserves P (frame_at i).
Proof. apply preserves_read. intros s. unfold frame_at. by case_match. Qed.

Lemma preserves_pool_at P (i : N) : preserves P (pool_at i).
Proof. apply preserves_read. intros s. unfold pool_at. by case_match. Qed.

Lemma preserves_hash_lookup P (k : option N * N) : preserves P (hash_lookup k).
Proof. apply preserves_read. intros s. unfold hash_lookup. by case_match. Qed.

(** A property of the manager alone is kept by the calls into a file. *)
Lemma preserves_File_writePage (I : BufMgr → Prop) (fp : option N) (pg : Page) :
  preserves (λ s, I (mgr s)) (File_writePage fp pg).
Proof.
  intros s r s' Hrun HP. unfold File_writePage in Hrun.
  repeat case_match; by simplify_eq.
Qed.

Lemma preserves_File_readPage (I : BufMgr → Prop) (f p : N) :
  preserves (λ s, I (mgr s)) (File_readPage f p).
Proof.
  intros s r s' Hrun HP. unfold File_readPage in Hrun.
  repeat case_match; by simplify_eq.
Qed.

Lemma preserves_File_allocatePage (I : BufMgr → Prop) (f : N) :
  preserves (λ s, I (mgr s)) (File_allocatePage f).
Proof.
  intros s r s' Hrun HP. unfold File_allocatePage in Hrun.
  repeat case_match; by simplify_eq.
Qed.

Lemma preserves_File_deletePage (I : BufMgr → Prop) (f p : N) :
  preserves (λ s, I (mgr s)) (File_deletePage f p).
Proof.
  intros s r s' Hrun HP. unfold File_deletePage in Hrun.
  repeat case_match; by simplify_eq.
Qed.

Lemma preserves_modify (I : BufMgr → Prop) (g : BufMgr → BufMgr) :
  (∀ m, I m → I (g m)) → preserves (λ s, I (mgr s)) (modify g).
Proof. intros Hg s r s' Hrun HP. injection Hrun as <- <-. by apply Hg. Qed.

Lemma preserves_hash_insert (I : BufMgr → Prop) (k : option N * N) (i : N) :
  (∀ m, I m → hashTable m !! k = None → I (set_hashTable (<[k := i]> (hashTable m)) m)) →
  preserves (λ s, I (mgr s)) (hash_insert k i).
Proof.
  intros Hg s r s' Hrun HP. unfold hash_insert, modify in Hrun.
  destruct (hashTable (mgr s) !! k) eqn:Hk; injection Hrun as <- <-; [done|].
  by apply Hg.
Qed.

Lemma preserves_hash_remove (I : BufMgr → Prop) (k : option N * N) :
  (∀ m, I m → I (set_hashTable (delete k (hashTable m)) m)) →
  preserves (λ s, I (mgr s)) (hash_remove k).
Proof.
  intros Hg s r s' Hrun HP. unfold hash_remove, modify in Hrun.
  destruct (hashTable (mgr s) !! k) eqn:Hk; injection Hrun as <- <-; [|done].
  by apply Hg.
Qed.

(** Walk through a method along its binds and branches; [leaf] settles the
    assignments. *)
Ltac preserves_go leaf :=
  repeat first
    [ leaf
    | apply preserves_mbind; [|intros ?]
    | apply preserves_catch; [| |intros ?]
    | apply preserves_ret | apply preserves_throw | apply preserves_out_of_fuel
    | apply preserves_gets | apply preserves_frame_at | apply preserves_pool_at
    | apply preserves_hash_lookup
    | apply preserves_File_writePage | apply preserves_File_readPage
    | apply preserves_File_allocatePage | apply preserves_File_deletePage
    | progress cbv zeta
    | match goal with |- preserves _ (if ?b then _ else _) => destruct b end ].

(** *** The shape of the manager *)

Lemma shape_set_frame (i : N) d :
  preserves (λ s, shape_ok (mgr s)) (set_frame i d).
Proof.
  apply preserves_modify. intros m (Hn & Hl & Hp & Hh).
  repeat split; cbn; try done; try lia. by rewrite length_insert.
Qed.

Lemma shape_set_pool (i : N) (pg : Page) :
  preserves (λ s, shape_ok (mgr s)) (set_pool i pg).
Proof.
  unfold set_pool. apply preserves_mbind; [apply preserves_pool_at|intros _].
  apply preserves_modify. intros m (Hn & Hl & Hp & Hh).
  repeat split; cbn; try done; try lia. by rewrite length_insert.
Qed.

Lemma shape_hash_insert (k : option N * N) (i : N) :
  preserves (λ s, shape_ok (mgr s)) (hash_insert k i).
Proof. apply preserves_hash_insert. by intros m Hm _. Qed.

Lemma shape_hash_remove (k : option N * N) :
  preserves (λ s, shape_ok (mgr s)) (hash_remove k).
Proof. by apply preserves_hash_remove. Qed.

Lemma shape_advanceClock : preserves (λ s, shape_ok (mgr s)) advanceClock.
Proof.
  intros s r s' Hrun (Hn & Hl & Hp & Hh). unfold advanceClock in Hrun.
  unfold mbind, M_bind, bind, gets, throw, modify in Hrun.
  destruct (N.eqb_spec (numBufs (mgr s)) 0); injection Hrun as <- <-; [done|].
  repeat split; cbn; try done; try lia. apply N.mod_upper_bound. lia.
Qed.

Ltac shape_leaf :=
  first [ apply shape_set_frame | apply shape_set_pool | apply shape_hash_insert
        | apply shape_hash_remove | apply shape_advanceClock ].

Lemma shape_allocBuf_loop (k : nat) (pc : N) :
  preserves (λ s, shape_ok (mgr s)) (allocBuf_loop k pc).
Proof.
  revert pc. induction k as [|k IH]; intros pc; cbn [allocBuf_loop];
    preserves_go ltac:(first [shape_leaf | apply IH]).
Qed.

Lemma shape_allocBuf : preserves (λ s, shape_ok (mgr s)) allocBuf.
Proof. intros s r s' Hrun. by eapply shape_allocBuf_loop. Qed.

Lemma shape_flushFile_loop (c : nat) (f i : N) :
  preserves (λ s, shape_ok (mgr s)) (flushFile_loop c f i).
Proof.
  revert i. induction c as [|c IH]; intros i; cbn [flushFile_loop];
    unfold flushFile_body; preserves_go ltac:(first [shape_leaf | apply IH]).
Qed.

Lemma shape_run_op (o : Op) s : shape_ok (mgr s) → shape_ok (mgr (run_op o s)).
Proof.
  intros Hs.
  assert (Hgo : ∀ A (c : M Disk A), preserves (λ s, shape_ok (mgr s)) c →
                                    shape_ok (mgr (c s).2)).
  { intros A c Hc. destruct (c s) as [r s'] eqn:Hrun. by eapply Hc. }
  destruct o; cbn [run_op]; apply Hgo.
  - unfold readPage.
    preserves_go ltac:(first [shape_leaf | apply shape_allocBuf]).
  - unfold unPinPage. preserves_go shape_leaf.
  - unfold allocPage.
    preserves_go ltac:(first [shape_leaf | apply shape_allocBuf]).
  - unfold disposePage. preserves_go shape_leaf.
  - unfold flushFile.
    preserves_go ltac:(first [shape_leaf | apply shape_flushFile_loop]).
Qed.

(** Assignments that do not bear on an invariant [I] of the manager: [tac]
    shows that [I] survives the update. *)
Ltac field_leaf I tac :=
  first [ progress unfold set_frame, set_pool, advanceClock
        | apply (preserves_modify I); intros ? ?; tac
        | apply (preserves_hash_insert I); intros ? ? ?; tac
        | apply (preserves_hash_remove I); intros ? ?; tac
        | apply (preserves_File_writePage I) | apply (preserves_File_readPage I)
        | apply (preserves_File_allocatePage I)
        | apply (preserves_File_deletePage I) ].

Lemma numBufs_allocBuf_loop (n : N) (k : nat) (pc : N) :
  preserves (λ s, numBufs (mgr s) = n) (allocBuf_loop k pc).
Proof.
  revert pc. induction k as [|k IH]; intros pc; cbn [allocBuf_loop];
    preserves_go ltac:(first [field_leaf (λ m : BufMgr, numBufs m = n) ltac:(done) | apply IH]).
Qed.

Lemma numBufs_flushFile_loop (n : N) (c : nat) (f i : N) :
  preserves (λ s, numBufs (mgr s) = n) (flushFile_loop c f i).
Proof.
  revert i. induction c as [|c IH]; intros i; cbn [flushFile_loop];
    unfold flushFile_body;
    preserves_go ltac:(first [field_leaf (λ m : BufMgr, numBufs m = n) ltac:(done) | apply IH]).
Qed.

Lemma numBufs_run_op (o : Op) s : numBufs (mgr (run_op o s)) = numBufs (mgr s).
Proof.
  assert (Hgo : ∀ A (c : M Disk A),
            preserves (λ s0, numBufs (mgr s0) = numBufs (mgr s)) c →
            numBufs (mgr (c s).2) = numBufs (mgr s)).
  { intros A c Hc. destruct (c s) as [r s'] eqn:Hrun. by eapply Hc. }
  assert (Hbuf : preserves (λ s0, numBufs (mgr s0) = numBufs (mgr s)) allocBuf).
  { intros s0 r s' Hrun. by eapply numBufs_allocBuf_loop. }
  destruct o; cbn [run_op]; apply Hgo.
  - unfold readPage.
    preserves_go ltac:(first [field_leaf (λ m : BufMgr, numBufs m = numBufs (mgr s)) ltac:(done) | apply Hbuf]).
  - unfold unPinPage. preserves_go ltac:(field_leaf (λ m : BufMgr, numBufs m = numBufs (mgr s)) ltac:(done)).
  - unfold allocPage.
    preserves_go ltac:(first [field_leaf (λ m : BufMgr, numBufs m = numBufs (mgr s)) ltac:(done) | apply Hbuf]).
  - unfold disposePage. preserves_go ltac:(field_leaf (λ m : BufMgr, numBufs m = numBufs (mgr s)) ltac:(done)).
  - unfold flushFile.
    preserves_go ltac:(first [field_leaf (λ m : BufMgr, numBufs m = numBufs (mgr s)) ltac:(done) | apply numBufs_flushFile_loop]).
Qed.

(** X17: whatever the public methods are called with and however they end,
    [numBufs] is what it was, the descriptor table and the pool keep their
    [numBufs] entries and the clock hand stays below [numBufs]. *)
Theorem run_ops_shape (ops : list Op) s :
  shape_ok (mgr s) →
  shape_ok (mgr (run_ops ops s)) ∧
  numBufs (mgr (run_ops ops s)) = numBufs (mgr s).
Proof.
  revert s. induction ops as [|o ops IH]; intros s Hs; [done|].
  cbn. destruct (IH (run_op o s)) as [Hshape Hn]; [by apply shape_run_op|].
  split; [done|]. etrans; [exact Hn|apply numBufs_run_op].
Qed.

(** *** The pool *)

Lemma pool_allocBuf_loop (pool : list Page) (k : nat) (pc : N) :
  preserves (λ s, bufPool (mgr s) = pool) (allocBuf_loop k pc).
Proof.
  revert pc. induction k as [|k IH]; intros pc; cbn [allocBuf_loop];
    preserves_go ltac:(first [field_leaf (λ m : BufMgr, bufPool m = pool) ltac:(done) | apply IH]).
Qed.

Lemma pool_flushFile_loop (pool : list Page) (c : nat) (f i : N) :
  preserves (λ s, bufPool (mgr s) = pool) (flushFile_loop c f i).
Proof.
  revert i. induction c as [|c IH]; intros i; cbn [flushFile_loop];
    unfold flushFile_body;
    preserves_go ltac:(first [field_leaf (λ m : BufMgr, bufPool m = pool) ltac:(done) | apply IH]).
Qed.

(** X14: of all the methods only [readPage] stores into the pool.
    [allocBuf], [allocPage], [unPinPage], [disposePage] and [flushFile]
    leave every slot of [bufPool] as it was, however they end: the page
    that [allocPage] had the file allocate is not copied into the slot it
    hands out. *)
Theorem bufPool_written_by_readPage_only s (f p : N) (b : bool) :
  bufPool (mgr (allocBuf s).2) = bufPool (mgr s) ∧
  bufPool (mgr (allocPage f s).2) = bufPool (mgr s) ∧
  bufPool (mgr (unPinPage f p b s).2) = bufPool (mgr s) ∧
  bufPool (mgr (disposePage f p s).2) = bufPool (mgr s) ∧
  bufPool (mgr (flushFile f s).2) = bufPool (mgr s).
Proof.
  assert (Hgo : ∀ A (c : M Disk A),
            preserves (λ s0, bufPool (mgr s0) = bufPool (mgr s)) c →
            bufPool (mgr (c s).2) = bufPool (mgr s)).
  { intros A c Hc. destruct (c s) as [r s'] eqn:Hrun. by eapply Hc. }
  assert (Hbuf : preserves (λ s0, bufPool (mgr s0) = bufPool (mgr s)) allocBuf).
  { intros s0 r s' Hrun. by eapply pool_allocBuf_loop. }
  split_and!; apply Hgo.
  - done.
  - unfold allocPage.
    preserves_go ltac:(first [field_leaf (λ m : BufMgr, bufPool m = bufPool (mgr s)) ltac:(done) | apply Hbuf]).
  - unfold unPinPage. preserves_go ltac:(field_leaf (λ m : BufMgr, bufPool m = bufPool (mgr s)) ltac:(done)).
  - unfold disposePage. preserves_go ltac:(field_leaf (λ m : BufMgr, bufPool m = bufPool (mgr s)) ltac:(done)).
  - unfold flushFile.
    preserves_go ltac:(first [field_leaf (λ m : BufMgr, bufPool m = bufPool (mgr s)) ltac:(done)
                             | apply pool_flushFile_loop]).
Qed.

(** *** The constructor and the clock hand *)

(** The rounding of [bufs * 1.2] to a [double] does not show in its integer
    part: with [1.2] just below 6/5, the exact product is less than half a
    unit in the last place below a multiple of 6/5 that is an integer, and
    further than that from the next integer. *)
Lemma round_double_trunc (x : Z) :
  (0 ≤ x < 2 ^ 32)%Z → (round_double (x * double_1_2) / 2 ^ 52 = 6 * x / 5)%Z.
Proof.
  intros Hx.
  destruct (Z_lt_le_dec x 2) as [Hsmall|Hbig].
  { assert (x = 0 ∨ x = 1)%Z as [-> | ->] by lia; by vm_compute. }
  assert (Ha : (5 * (6 * x / 5) ≤ 6 * x < 5 * (6 * x / 5) + 5)%Z).
  { pose proof (Z.div_mod (6 * x) 5 ltac:(lia)).
    pose proof (Z.mod_pos_bound (6 * x) 5 ltac:(lia)). lia. }
  set (a := (6 * x / 5)%Z) in *. clearbody a.
  unfold round_double. set (n := (x * double_1_2)%Z).
  assert (Hn5 : (5 * n = x * (6 * 2 ^ 52 - 1))%Z) by (unfold n, double_1_2; lia).
  assert (Hn : (2 ^ 53 ≤ n < 2 ^ 85)%Z) by lia.
  assert (HL : (53 ≤ Z.log2 n < 85)%Z).
  { split; [apply Z.log2_le_pow2; lia|apply Z.log2_lt_pow2; lia]. }
  destruct (Z.log2_spec n) as [_ Hup]; [lia|].
  set (s := (Z.log2 n - 52)%Z).
  replace (Z.succ (Z.log2 n)) with (54 + (s - 1))%Z in Hup by (unfold s; lia).
  assert (Hs : (1 ≤ s ≤ 32)%Z) by (unfold s; lia).
  clearbody s n.
  rewrite Z.pow_add_r in Hup by lia.
  assert (HP : (2 ^ s = 2 * 2 ^ (s - 1))%Z).
  { rewrite <- Z.pow_succ_r by lia. f_equal. lia. }
  assert (HT : (2 ^ 52 = 2 ^ s * 2 ^ (52 - s))%Z).
  { rewrite <- Z.pow_add_r by lia. f_equal. lia. }
  assert (Hh1 : (0 < 2 ^ (s - 1))%Z) by (apply Z.pow_pos_nonneg; lia).
  assert (Hh2 : (2 ^ (s - 1) ≤ 2 ^ 31)%Z) by (apply Z.pow_le_mono_r; lia).
  pose proof (Z.div_mod n (2 ^ s) ltac:(lia)) as Hdm.
  pose proof (Z.mod_pos_bound n (2 ^ s) ltac:(lia)) as Hr.
  set (h := (2 ^ (s - 1))%Z) in *. set (P := (2 ^ s)%Z) in *.
  set (T := (2 ^ (52 - s))%Z) in *.
  set (q := (n / P)%Z) in *. set (r := (n mod P)%Z) in *.
  assert (HaP : (a * 2 ^ 52 = (a * T) * P)%Z) by (rewrite HT; ring).
  (* the exact product lies less than half a unit in the last place below
     a * 2^52, and more than that below (a + 1) * 2^52 *)
  assert (Hlow : (a * 2 ^ 52 - h < n)%Z) by lia.
  assert (Hhigh : (n + h < (a + 1) * 2 ^ 52)%Z) by lia.
  destruct (Z.leb_spec s 0) as [?|_]; [lia|].
  assert (Hround : ∀ c : Z, (c = 0 ∧ r ≤ h ∨ c = 1 ∧ h ≤ r)%Z →
            ((q + c) * P / 2 ^ 52 = a)%Z).
  { intros c Hc. symmetry.
    apply Z.div_unique with (r := ((q + c) * P - a * 2 ^ 52)%Z); [|lia].
    left. split.
    - assert (a * T < q + c + 1)%Z; [|nia].
      apply (Z.mul_lt_mono_pos_r P); [lia|]. nia.
    - nia. }
  destruct (_ || _) eqn:Hc.
  - apply (Hround 1%Z). right. split; [done|].
    apply orb_true_iff in Hc as [Hc|Hc]; [apply Z.ltb_lt in Hc; lia|].
    apply andb_true_iff in Hc as [Hc _]. apply Z.eqb_eq in Hc. lia.
  - replace (q * P)%Z with ((q + 0) * P)%Z by ring.
    apply (Hround 0%Z). left. split; [done|].
    apply orb_false_iff in Hc as [Hc _]. apply Z.ltb_ge in Hc. lia.
Qed.

Lemma int_of_Some (z : Z) : (- 2 ^ 31 ≤ z ≤ 2 ^ 31 - 1)%Z → int_of z = Some z.
Proof.
  intros Hz. unfold int_of.
  destruct (Z.leb_spec (- 2 ^ 31) z); [|lia].
  destruct (Z.leb_spec z (2 ^ 31 - 1)); [done|lia].
Qed.

Lemma int_of_None (z : Z) : (2 ^ 31 - 1 < z)%Z → int_of z = None.
Proof.
  intros Hz. unfold int_of.
  destruct (Z.leb_spec z (2 ^ 31 - 1)); [lia|]. by rewrite andb_false_r.
Qed.

Lemma hashTblSize_spec (bufs : N) :
  bufs < 2 ^ 32 →
  hashTblSize bufs =
    if bufs <? 894784854 then Some (Z.of_N (6 * bufs / 5) + 1)%Z else None.
Proof.
  intros Hb. unfold hashTblSize. cbv zeta.
  rewrite round_double_trunc by lia.
  replace (6 * Z.of_N bufs / 5)%Z with (Z.of_N (6 * bufs / 5))
    by (by rewrite N2Z.inj_div, N2Z.inj_mul).
  assert (Ha : (0 ≤ Z.of_N (6 * bufs / 5))%Z
               ∧ (Z.of_N (6 * bufs / 5) < 2 ^ 30 ↔ Z.of_N bufs < 894784854)%Z).
  { pose proof (N.div_mod (6 * bufs) 5 ltac:(lia)) as Hdm.
    pose proof (N.mod_upper_bound (6 * bufs) 5 ltac:(lia)) as Hm.
    set (a := 6 * bufs / 5) in *. set (r := (6 * bufs) mod 5) in *.
    clearbody a r. lia. }
  set (a := Z.of_N (6 * bufs / 5)) in *. clearbody a.
  destruct (N.ltb_spec bufs 894784854) as [Hlt|Hge].
  - rewrite (int_of_Some a) by lia. cbn [mbind option_bind].
    rewrite (int_of_Some (a * 2)) by lia. cbn [mbind option_bind].
    rewrite Z.quot_mul by lia.
    rewrite (int_of_Some a) by lia. cbn [mbind option_bind].
    apply int_of_Some. lia.
  - destruct (int_of a) as [a'|] eqn:Ha'; [|done]. cbn [mbind option_bind].
    assert (a' = a) as ->.
    { unfold int_of in Ha'. by destruct (_ && _); simplify_eq. }
    rewrite int_of_None by lia. done.
Qed.

(** The members the constructor sets satisfy the invariants of the data
    model, with the hand on the last frame. *)
Lemma BufMgr_new_wf (bufs : N) (dk : Disk) :
  0 < bufs < 2 ^ 32 →
  wf (BufMgr_new bufs) ∧
  clockHand (BufMgr_new bufs) = bufs - 1 ∧
  clockHand (mgr (advanceClock (fresh bufs dk)).2) = 0 ∧
  hashTable (BufMgr_new bufs) = ∅ ∧
  (∀ (i : nat) d, bufDescTable (BufMgr_new bufs) !! i = Some d →
     valid d = false ∧ pinCnt d = 0 ∧ file d = None).
Proof.
  intros Hb.
  assert (Hhand : clockHand (BufMgr_new bufs) = bufs - 1).
  { cbn. unfold wrap32.
    replace (bufs + (2 ^ 32 - 1)) with (bufs - 1 + 1 * 2 ^ 32) by lia.
    rewrite N.Div0.mod_add. apply N.mod_small. lia. }
  split_and!; try done.
  - split_and!.
    + split_and!; [cbn; lia..| | |rewrite Hhand; cbn; lia].
      * cbn. by rewrite length_fmap, length_seq.
      * cbn. by rewrite length_replicate.
    + intros i d Hd. apply BufMgr_new_frame in Hd as ->. by split_and!.
    + apply BufMgr_new_bijection.
  - unfold advanceClock, fresh. unfold mbind, M_bind, bind, gets, modify, throw.
    cbn [mgr numBufs BufMgr_new].
    destruct (N.eqb_spec bufs 0); [lia|]. cbn [snd mgr set_clockHand clockHand].
    fold (clockHand (BufMgr_new bufs)). rewrite Hhand.
    cbn [numBufs BufMgr_new]. rewrite wrap32_small by lia.
    replace (bufs - 1 + 1) with bufs by lia. apply N.Div0.mod_same.
  - intros i d Hd. apply BufMgr_new_frame in Hd as ->. done.
Qed.

(** X1: the constructor computes the size of the hash table in [int], from
    the [double] product [bufs * 1.2] (line 30).  For a [bufs] that fits
    [std::uint32_t] the computation is defined exactly when
    [bufs < 894784854]: the size is then [6 * bufs / 5 + 1] and the
    constructor leaves the members of [BufMgr_new]; from 894784854 on the
    doubling overflows [int] and the constructor has no defined behaviour.
    A manager it does construct, for [bufs > 0], satisfies the invariants of
    the data model: [bufs] unbound, unpinned descriptors numbered by their
    index, a pool of [bufs] pages, an empty hash index and the hand on the
    last frame, from where the first [advanceClock] puts it on frame 0. *)
Theorem BufMgr_ctor_spec (bufs : N) (dk : Disk) :
  bufs < 2 ^ 32 →
  (bufs < 894784854 →
   hashTblSize bufs = Some (Z.of_N (6 * bufs / 5) + 1)%Z ∧
   BufMgr_ctor bufs = inr (BufMgr_new bufs)) ∧
  (894784854 ≤ bufs →
   hashTblSize bufs = None ∧ BufMgr_ctor bufs = inl UndefinedBehaviour) ∧
  (∀ m, BufMgr_ctor bufs = inr m → 0 < bufs →
     bufs < 894784854 ∧
     wf m ∧
     numBufs m = bufs ∧
     clockHand m = bufs - 1 ∧
     clockHand (mgr (advanceClock {| mgr := m; disk := dk; iolog := [] |}).2) = 0 ∧
     hashTable m = ∅ ∧
     (∀ (i : nat) d, bufDescTable m !! i = Some d →
        valid d = false ∧ pinCnt d = 0 ∧ file d = None)).
Proof.
  intros Hb. pose proof (hashTblSize_spec bufs Hb) as Hsize.
  unfold BufMgr_ctor. rewrite Hsize.
  destruct (N.ltb_spec bufs 894784854) as [Hlt|Hge].
  - split_and!; [done|lia|].
    intros m [= <-] Hpos.
    destruct (BufMgr_new_wf bufs dk) as (Hwf & Hhand & Hfirst & Hh & Hfr); [lia|].
    by split_and!.
  - split_and!; [lia|done|]. intros m [=].
Qed.

Lemma advance_n_hand s (k : nat) :
  shape_ok (mgr s) →
  advance_n k s =
  {| mgr := set_clockHand ((clockHand (mgr s) + N.of_nat k) mod numBufs (mgr s))
                          (mgr s);
     disk := disk s; iolog := iolog s |}.
Proof.
  intros (Hn & Hl & Hp & Hh). induction k as [|k IH].
  - cbn. rewrite N.add_0_r, N.mod_small by done. by destruct s as [[] ? ?].
  - change (advance_n (S k) s) with (advanceClock (advance_n k s)).2.
    rewrite IH.
    unfold advanceClock, mbind, M_bind, bind, gets, modify, throw. cbn.
    destruct (N.eqb_spec (numBufs (mgr s)) 0); [lia|]. cbn.
    assert ((clockHand (mgr s) + N.of_nat k) mod numBufs (mgr s) < numBufs (mgr s))
      by (apply N.mod_upper_bound; lia).
    rewrite wrap32_small by lia.
    rewrite N.Div0.add_mod_idemp_l. unfold set_clockHand. cbn.
    do 3 f_equal. lia.
Qed.

(** X2: on a manager of the right shape [advanceClock] moves the hand round
    the frames and touches nothing else: after [k] calls the hand is [k]
    frames further modulo [numBufs], always below [numBufs], and [numBufs]
    calls bring the manager back to the state it was in. *)
Theorem advanceClock_cycle s :
  shape_ok (mgr s) →
  advance_n (N.to_nat (numBufs (mgr s))) s = s ∧
  ∀ k : nat,
    clockHand (mgr (advance_n k s))
      = (clockHand (mgr s) + N.of_nat k) mod numBufs (mgr s) ∧
    clockHand (mgr (advance_n k s)) < numBufs (mgr s) ∧
    set_clockHand (clockHand (mgr s)) (mgr (advance_n k s)) = mgr s.
Proof.
  intros Hs. pose proof Hs as (Hn & Hl & Hp & Hh). split.
  - rewrite advance_n_hand by done. rewrite N2Nat.id.
    replace (clockHand (mgr s) + numBufs (mgr s))
      with (clockHand (mgr s) + 1 * numBufs (mgr s)) by lia.
    rewrite N.Div0.mod_add, N.mod_small by done. by destruct s as [[] ? ?].
  - intros k. rewrite advance_n_hand by done. cbn. split_and!; [done| |].
    + apply N.mod_upper_bound. lia.
    + by destruct s as [[] ? ?].
Qed.

(** *** The loop of [allocBuf] *)

(** X3: for a pool size that fits [std::uint32_t] the [while (true)] loop of
    [allocBuf] ends after at most [numBufs] passes over pinned frames and
    one pass over each other frame: the model never runs out of fuel, and
    running the loop with any larger bound gives the same outcome and
    state. *)
Theorem allocBuf_terminates s :
  numBufs (mgr s) < 2 ^ 32 →
  (allocBuf s).1 ≠ OutOfFuel ∧
  ∀ k : nat, (allocBuf_fuel (mgr s) ≤ k)%nat → allocBuf_loop k 0 s = allocBuf s.
Proof.
  intros Hn. pose proof (allocBuf_total s Hn) as Hend. split; [done|].
  intros k Hk. destruct (allocBuf s) as [r s'] eqn:Hrun.
  eapply allocBuf_loop_fuel; [exact Hrun|done|done].
Qed.

(** X4: when every frame is pinned, [allocBuf] raises BufferExceeded, and
    all it has done is clear reference bits and move the hand: the hash
    index, the pool, the disk and every binding are as before.  No file
    call was made: a [readPage] that misses ends with the same exception
    before it has asked the file for the page. *)
Theorem allocBuf_all_pinned_exceeded s :
  shape_ok (mgr s) →
  (∀ (j : nat) d, bufDescTable (mgr s) !! j = Some d → 0 < pinCnt d) →
  ∃ s', allocBuf s = (Throw BufferExceededException, s') ∧
        hashTable (mgr s') = hashTable (mgr s) ∧
        bufPool (mgr s') = bufPool (mgr s) ∧
        disk s' = disk s ∧ iolog s' = iolog s ∧
        Forall2 same_binding (bufDescTable (mgr s)) (bufDescTable (mgr s')) ∧
        ∀ f p : N, hashTable (mgr s) !! (Some f, p) = None →
                   readPage f p s = (Throw BufferExceededException, s').
Proof.
  intros Hs Hall. pose proof (allocBuf_all_pinned s Hs Hall) as Hr.
  destruct (allocBuf s) as [r s'] eqn:Hrun. cbn in Hr. subst r.
  exists s'. split; [done|].
  assert (Hread : ∀ f p : N, hashTable (mgr s) !! (Some f, p) = None →
                     readPage f p s = (Throw BufferExceededException, s')).
  { intros f p Hk. unfold readPage. unfold_prims. by rewrite Hk, Hrun. }
  apply allocBuf_loop_sweep in Hrun
    as [[(_ & Hp & Hh & Hd & Hl & Ht) _]|(s1 & d1 & _ & _ & _ & _ & Hev)].
  - split_and!; try done.
    eapply Forall2_impl; [exact Ht|]. apply swept_frame_same_binding.
  - by apply evict_not_exceeded in Hev.
Qed.

(** A frame that is taken loses its key and its descriptor; a frame that
    is not taken, because the write-back or the removal failed, keeps both. *)
Lemma evict_effect (h : N) d s (r : Res N) s' :
  evict h d s = (r, s') →
  (bufDescTable (mgr s') = bufDescTable (mgr s) ∧
   hashTable (mgr s') = hashTable (mgr s) ∧ ∀ i, r ≠ Ok i) ∨
  (bufDescTable (mgr s') = <[N.to_nat h := BufDesc_Clear d]> (bufDescTable (mgr s)) ∧
   hashTable (mgr s') = delete (file d, pageNo d) (hashTable (mgr s)) ∧
   is_Some (hashTable (mgr s) !! (file d, pageNo d)) ∧
   r = Ok (frameNo d)).
Proof.
  unfold evict, File_writePage. unfold_prims. intros Hrun.
  repeat case_match; simplify_eq; cbn in *; eauto 10.
Qed.

(** The file calls of the taking of a frame: one write-back if the frame is
    dirty, none otherwise. *)
Lemma evict_Ok_io (h : N) d s (i : N) s' :
  evict h d s = (Ok i, s') →
  (dirty d = false ∧ iolog s' = iolog s ∧ disk s' = disk s) ∨
  (dirty d = true ∧ ∃ (f : N) (pg : Page),
     file d = Some f ∧ bufPool (mgr s) !! N.to_nat h = Some pg ∧
     file_writePage f pg (disk s) = inr (disk s') ∧
     iolog s' = iolog s ++ [EvWritePage f pg]).
Proof.
  unfold evict, File_writePage. unfold_prims.
  destruct (dirty d) eqn:Hdirty; intros Hrun.
  - right. split; [done|].
    destruct (bufPool (mgr s) !! N.to_nat h) as [pg|] eqn:Hpg; [|done].
    destruct (file d) as [f|] eqn:Hf; [|done].
    destruct (file_writePage f pg (disk s)) as [e|dk] eqn:Hw; [done|].
    cbn in Hrun.
    destruct (hashTable (mgr s) !! (Some f, pageNo d)); [|done].
    injection Hrun as <- <-. by exists f, pg.
  - left. cbn in Hrun.
    destruct (hashTable (mgr s) !! (file d, pageNo d)); [|done].
    by injection Hrun as <- <-.
Qed.

(** A call of [allocBuf] is a sweep, after which the frame under the hand is
    taken or the call fails. *)
Lemma allocBuf_effect s (r : Res N) s' :
  allocBuf s = (r, s') →
  ∃ s1,
    swept s s1 ∧
    numBufs (mgr s') = numBufs (mgr s) ∧
    bufPool (mgr s') = bufPool (mgr s) ∧
    ((bufDescTable (mgr s') = bufDescTable (mgr s1) ∧
      hashTable (mgr s') = hashTable (mgr s) ∧ ∀ i, r ≠ Ok i) ∨
     (∃ d1, clockHand (mgr s') = clockHand (mgr s1) ∧
        bufDescTable (mgr s1) !! N.to_nat (clockHand (mgr s1)) = Some d1 ∧
        pinCnt d1 = 0 ∧ refbit d1 = false ∧
        bufDescTable (mgr s')
          = <[N.to_nat (clockHand (mgr s1)) := BufDesc_Clear d1]> (bufDescTable (mgr s1)) ∧
        hashTable (mgr s') = delete (file d1, pageNo d1) (hashTable (mgr s)) ∧
        is_Some (hashTable (mgr s) !! (file d1, pageNo d1)) ∧
        evict (clockHand (mgr s1)) d1 s1 = (r, s') ∧
        r = Ok (frameNo d1))).
Proof.
  intros Hrun. apply allocBuf_loop_sweep in Hrun
    as [[Hsw Hr]|(s1 & d1 & Hsw & Hd1 & Hp1 & Hr1 & Hev)].
  - exists s'. pose proof Hsw as (Hn & Hp & Hh & _). split_and!; try done.
    left. split_and!; try done. intros i ->.
    destruct Hr as [Hr|[Hr|Hr]]; discriminate Hr.
  - exists s1. pose proof Hsw as (Hn & Hp & Hh & _).
    pose proof (evict_frames _ _ _ _ _ Hev) as (Hn' & Hp' & Hc' & _).
    split_and!; try congruence.
    destruct (evict_effect _ _ _ _ _ Hev) as [(Ht & Hh' & Hr)|(Ht & Hh' & Hk & Hr)].
    + left. split_and!; congruence.
    + right. exists d1. rewrite <- Hh. split_and!; done.
Qed.

(** X6: when [allocBuf] returns, the hand is on the frame it took.  That
    frame was unpinned at the call; the frame number stored in it is the
    result; its key was in the hash index and is the only one removed; its
    descriptor is cleared; the other descriptors have at most lost their
    reference bit; and the only file call made is the write-back of the
    frame's pool slot if it was dirty. *)
Theorem allocBuf_Ok_effect s (i : N) s' :
  allocBuf s = (Ok i, s') →
  ∃ d0,
    bufDescTable (mgr s) !! N.to_nat (clockHand (mgr s')) = Some d0 ∧
    pinCnt d0 = 0 ∧ i = frameNo d0 ∧
    bufDescTable (mgr s') !! N.to_nat (clockHand (mgr s')) = Some (BufDesc_Clear d0) ∧
    is_Some (hashTable (mgr s) !! (file d0, pageNo d0)) ∧
    hashTable (mgr s') = delete (file d0, pageNo d0) (hashTable (mgr s)) ∧
    (∀ (j : nat) d, j ≠ N.to_nat (clockHand (mgr s')) →
       bufDescTable (mgr s) !! j = Some d →
       ∃ d', bufDescTable (mgr s') !! j = Some d' ∧ swept_frame d d') ∧
    ((dirty d0 = false ∧ iolog s' = iolog s ∧ disk s' = disk s) ∨
     (dirty d0 = true ∧ ∃ (f : N) (pg : Page),
        file d0 = Some f ∧
        bufPool (mgr s) !! N.to_nat (clockHand (mgr s')) = Some pg ∧
        file_writePage f pg (disk s) = inr (disk s') ∧
        iolog s' = iolog s ++ [EvWritePage f pg])).
Proof.
  intros Hrun.
  destruct (allocBuf_effect _ _ _ Hrun)
    as (s1 & Hsw & _ & _ & [(_ & _ & Hr)|(d1 & Hc & Hd1 & Hp1 & _ & Ht & Hh & Hk & Hev & Hr)]).
  { by destruct (Hr i). }
  destruct Hsw as (_ & Hpool & Hhash & Hdisk & Hlog & Hfr).
  destruct (Forall2_lookup_r _ _ _ _ _ Hfr Hd1) as (d0 & Hd0 & Hsw0).
  pose proof (swept_frame_same_binding _ _ Hsw0) as (Hf & Hpn & Hfn & _ & Hpc & Hdirty).
  rewrite (swept_frame_Clear _ _ Hsw0), Hf, Hpn in *. rewrite Hc.
  exists d0. split_and!; try done; try congruence.
  - rewrite Ht. apply list_lookup_insert_eq. by eapply lookup_lt_Some.
  - intros j d Hj Hd. rewrite Ht, list_lookup_insert_ne by done.
    by eapply Forall2_lookup_l.
  - destruct (evict_Ok_io _ _ _ _ _ Hev) as [(? & ? & ?)|(? & f & pg & ? & ? & ? & ?)].
    + left. split_and!; congruence.
    + right. split; [congruence|]. exists f, pg.
      split_and!; congruence.
Qed.

(** A frame with pins is not the one [allocBuf] takes, and under the
    invariants its key is not the key that is removed. *)
Lemma allocBuf_pinned_stable s (r : Res N) s' (i : nat) d :
  wf (mgr s) →
  (∀ (j : nat) dj, bufDescTable (mgr s) !! j = Some dj →
                   valid dj = false → file dj = None) →
  allocBuf s = (r, s') →
  bufDescTable (mgr s) !! i = Some d → 0 < pinCnt d →
  (∃ d', bufDescTable (mgr s') !! i = Some d' ∧ same_binding d d') ∧
  hashTable (mgr s') !! (file d, pageNo d) = Some (N.of_nat i) ∧
  bufPool (mgr s') !! i = bufPool (mgr s) !! i ∧
  (∀ i', r = Ok i' → N.to_nat i' ≠ i).
Proof.
  intros (Hshape & Hdesc & Hbij1 & Hbij2) Hunbound Hrun Hd Hpin.
  assert (Hvalid : valid d = true).
  { destruct (valid d) eqn:Hv; [done|].
    destruct (Hdesc _ _ Hd) as (_ & Hinv & _). destruct (Hinv Hv). lia. }
  pose proof (Hbij1 _ _ Hd Hvalid) as Hkey.
  destruct (allocBuf_effect _ _ _ Hrun)
    as (s1 & Hsw & _ & Hpool & [(Ht & Hh & Hr)|(d1 & Hc & Hd1 & Hp1 & _ & Ht & Hh & _ & _ & Hr)]).
  - destruct Hsw as (_ & _ & _ & _ & _ & Hfr).
    destruct (Forall2_lookup_l _ _ _ _ _ Hfr Hd) as (d' & Hd' & Hsw').
    rewrite Ht, Hh, Hpool. split_and!; try done.
    + exists d'. split; [done|]. by apply swept_frame_same_binding.
    + intros i' ->. by destruct (Hr i').
  - destruct Hsw as (_ & _ & _ & _ & _ & Hfr).
    destruct (Forall2_lookup_l _ _ _ _ _ Hfr Hd) as (d' & Hd' & Hsw').
    destruct (Forall2_lookup_r _ _ _ _ _ Hfr Hd1) as (d0 & Hd0 & Hsw0).
    pose proof (swept_frame_same_binding _ _ Hsw0) as (Hf & Hpn & Hfn & _ & Hpc & _).
    assert (Hne : i ≠ N.to_nat (clockHand (mgr s1))).
    { intros ->. assert (d0 = d) as -> by congruence. lia. }
    rewrite Ht, Hh, Hpool, list_lookup_insert_ne by done. split_and!; try done.
    + exists d'. split; [done|]. by apply swept_frame_same_binding.
    + rewrite lookup_delete_ne; [done|]. rewrite Hf, Hpn. intros Heq.
      destruct (valid d0) eqn:Hv0.
      * pose proof (Hbij1 _ _ Hd0 Hv0) as Hkey0. rewrite Heq, Hkey in Hkey0.
        injection Hkey0 as Hkey0. lia.
      * rewrite (Hunbound _ _ Hd0 Hv0) in Heq.
        destruct (Hdesc _ _ Hd) as (_ & _ & Hfile). destruct (Hfile Hvalid) as [f Hf'].
        rewrite Hf' in Heq. discriminate Heq.
    + intros i' Hi'. rewrite Hr in Hi'. injection Hi' as <-.
      destruct (Hdesc _ _ Hd0) as (Hno & _). rewrite Hfn, Hno. lia.
Qed.

(** *** Which frame [allocBuf] takes *)

Lemma mod_add_ne (h x n : N) : h < n → 0 < x < n → (h + x) mod n ≠ h.
Proof.
  intros Hh Hx. destruct (N.lt_ge_cases (h + x) n) as [Hlt|Hge].
  - rewrite N.mod_small by done. lia.
  - replace (h + x) with (h + x - n + 1 * n) by lia.
    rewrite N.Div0.mod_add, N.mod_small by lia. lia.
Qed.

Lemma allocBuf_loop_first (k : nat) (pc : N) s (δ : N) d :
  shape_ok (mgr s) →
  bufDescTable (mgr s)
    !! N.to_nat ((clockHand (mgr s) + δ) mod numBufs (mgr s)) = Some d →
  pinCnt d = 0 → refbit d = false →
  (∀ (δ' : N) d', δ' < δ →
     bufDescTable (mgr s)
       !! N.to_nat ((clockHand (mgr s) + δ') mod numBufs (mgr s)) = Some d' →
     0 < pinCnt d' ∨ refbit d' = true) →
  pc + δ < numBufs (mgr s) → (N.to_nat δ < k)%nat →
  ∃ s1, swept s s1 ∧
        clockHand (mgr s1) = (clockHand (mgr s) + δ) mod numBufs (mgr s) ∧
        allocBuf_loop k pc s = evict (clockHand (mgr s1)) d s1.
Proof.
  revert pc s δ. induction k as [|k IH]; intros pc s δ Hshape Hd Hp Hr Hmin Hpc Hk;
    [lia|].
  pose proof Hshape as (Hn & Hlen & _ & Hh).
  rewrite allocBuf_loop_S.
  destruct (N.eq_dec δ 0) as [->|Hδ].
  { rewrite N.add_0_r, N.mod_small in * by done. rewrite Hd, Hp, Hr. cbn.
    exists s. split; [apply swept_refl|done]. }
  destruct (shape_ok_frame s Hshape) as [dh Hdh]. rewrite Hdh.
  destruct (pass_over_shape s dh Hshape) as (Hshape' & Hn' & Hh').
  assert (Hfirst : 0 < pinCnt dh ∨ refbit dh = true).
  { apply (Hmin 0); [lia|]. by rewrite N.add_0_r, N.mod_small. }
  assert (Hidx : ∀ x, 0 < x < numBufs (mgr s) →
            bufDescTable (mgr (pass_over dh s))
              !! N.to_nat ((clockHand (mgr s) + x) mod numBufs (mgr s))
            = bufDescTable (mgr s)
              !! N.to_nat ((clockHand (mgr s) + x) mod numBufs (mgr s))).
  { intros x Hx. cbn. apply list_lookup_insert_ne.
    pose proof (mod_add_ne (clockHand (mgr s)) x (numBufs (mgr s)) Hh Hx). lia. }
  assert (Hshift : ∀ x, 0 < x →
            (clockHand (mgr (pass_over dh s)) + (x - 1)) mod numBufs (mgr (pass_over dh s))
            = (clockHand (mgr s) + x) mod numBufs (mgr s)).
  { intros x Hx. rewrite Hn', Hh', N.Div0.add_mod_idemp_l. f_equal. lia. }
  assert (Hgo : ∀ pc', pc' + (δ - 1) < numBufs (mgr s) →
            ∃ s1, swept s s1 ∧
              clockHand (mgr s1) = (clockHand (mgr s) + δ) mod numBufs (mgr s) ∧
              allocBuf_loop k pc' (pass_over dh s) = evict (clockHand (mgr s1)) d s1).
  { intros pc' Hpc'.
    destruct (IH pc' (pass_over dh s) (δ - 1)) as (s1 & Hsw & Hc & Hrun);
      [exact Hshape'| |exact Hp|exact Hr| | |lia|].
    - rewrite Hshift by lia. rewrite Hidx by lia. done.
    - intros δ' d' Hδ' Hd'.
      replace δ' with (δ' + 1 - 1) in Hd' by lia.
      rewrite Hshift, Hidx in Hd' by lia. apply (Hmin (δ' + 1)); [lia|done].
    - by rewrite Hn'.
    - exists s1. split_and!; [|by rewrite Hc, Hshift by lia|done].
      eapply swept_trans; [by apply swept_pass_over|done]. }
  destruct (0 <? pinCnt dh) eqn:Hpin.
  - rewrite wrap32_small by lia.
    destruct (N.eqb_spec (pc + 1) (numBufs (mgr s))); [lia|].
    destruct (N.eqb_spec (numBufs (mgr s)) 0); [lia|].
    apply Hgo. lia.
  - apply N.ltb_ge in Hpin. destruct Hfirst as [?|Href]; [lia|]. rewrite Href. cbn.
    destruct (N.eqb_spec (numBufs (mgr s)) 0); [lia|].
    apply Hgo. lia.
Qed.

(** X8: [allocBuf] takes the first frame, in clock order from the hand,
    that is unpinned and has its reference bit clear at the call: the
    frames before it only lose their reference bit, the hand stops on it,
    and the call ends as the taking of that frame does. *)
Theorem allocBuf_takes_first_candidate s (δ : N) d :
  shape_ok (mgr s) → δ < numBufs (mgr s) →
  bufDescTable (mgr s)
    !! N.to_nat ((clockHand (mgr s) + δ) mod numBufs (mgr s)) = Some d →
  pinCnt d = 0 → refbit d = false →
  (∀ (δ' : N) d', δ' < δ →
     bufDescTable (mgr s)
       !! N.to_nat ((clockHand (mgr s) + δ') mod numBufs (mgr s)) = Some d' →
     0 < pinCnt d' ∨ refbit d' = true) →
  ∃ s1, swept s s1 ∧
        clockHand (mgr s1) = (clockHand (mgr s) + δ) mod numBufs (mgr s) ∧
        allocBuf s = evict (clockHand (mgr s1)) d s1 ∧
        clockHand (mgr (allocBuf s).2) = (clockHand (mgr s) + δ) mod numBufs (mgr s).
Proof.
  intros Hshape Hδ Hd Hp Hr Hmin.
  destruct (allocBuf_loop_first (allocBuf_fuel (mgr s)) 0 s δ d) as (s1 & Hsw & Hc & Hrun);
    try done.
  { unfold allocBuf_fuel. lia. }
  exists s1. split_and!; try done. unfold allocBuf. rewrite Hrun.
  destruct (evict (clockHand (mgr s1)) d s1) as [r s'] eqn:Hev.
  apply evict_frames in Hev as (_ & _ & Hc' & _). cbn. congruence.
Qed.

(** *** A write-back that the file refuses *)

(** C9: a refused write-back in [allocBuf] ends the call with the exception
    of the file and leaves the victim as it was.  At the visit itself, in
    whichever lap: when the frame under the hand is unpinned, has its
    reference bit clear and is dirty, and the file refuses the page of its
    pool slot, the loop ends there with that exception and nothing but the
    log of file calls has changed.  For the whole call: when the first frame
    from the hand that is unpinned with its reference bit clear is such a
    frame, [allocBuf] ends with the exception, the hand on the victim; the
    victim's descriptor is the one it had on entry, the hash index, the pool
    and the disk are as they were, the attempt is the only file call, the
    frames passed over have at most lost their reference bit, and a
    [readPage] that misses and an [allocPage] that triggered the call end
    with the same exception in the same state. *)
Theorem allocBuf_failed_writeback :
  (∀ (k : nat) (pc : N) s d (f : N) (pg : Page) (e : N),
     bufDescTable (mgr s) !! N.to_nat (clockHand (mgr s)) = Some d →
     pinCnt d = 0 → refbit d = false → dirty d = true → file d = Some f →
     bufPool (mgr s) !! N.to_nat (clockHand (mgr s)) = Some pg →
     file_writePage f pg (disk s) = inl e →
     allocBuf_loop (S k) pc s
     = (Throw (FileException e), log_io (EvWritePage f pg) s)) ∧
  (∀ s (δ : N) d (f : N) (pg : Page) (e : N),
     shape_ok (mgr s) → δ < numBufs (mgr s) →
     bufDescTable (mgr s)
       !! N.to_nat ((clockHand (mgr s) + δ) mod numBufs (mgr s)) = Some d →
     pinCnt d = 0 → refbit d = false →
     (∀ (δ' : N) d', δ' < δ →
        bufDescTable (mgr s)
          !! N.to_nat ((clockHand (mgr s) + δ') mod numBufs (mgr s)) = Some d' →
        0 < pinCnt d' ∨ refbit d' = true) →
     dirty d = true → file d = Some f →
     bufPool (mgr s)
       !! N.to_nat ((clockHand (mgr s) + δ) mod numBufs (mgr s)) = Some pg →
     file_writePage f pg (disk s) = inl e →
     ∃ s', allocBuf s = (Throw (FileException e), s') ∧
           clockHand (mgr s') = (clockHand (mgr s) + δ) mod numBufs (mgr s) ∧
           bufDescTable (mgr s') !! N.to_nat (clockHand (mgr s')) = Some d ∧
           hashTable (mgr s') = hashTable (mgr s) ∧
           bufPool (mgr s') = bufPool (mgr s) ∧
           disk s' = disk s ∧
           iolog s' = iolog s ++ [EvWritePage f pg] ∧
           Forall2 swept_frame (bufDescTable (mgr s)) (bufDescTable (mgr s')) ∧
           (∀ f' p', hashTable (mgr s) !! (Some f', p') = None →
                     readPage f' p' s = (Throw (FileException e), s')) ∧
           (∀ f' s0 pg0 dk,
              file_allocatePage f' (disk s0) = inr (pg0, dk) →
              s = set_disk dk (log_io (EvAllocatePage f') s0) →
              allocPage f' s0 = (Throw (FileException e), s'))).
Proof.
  split.
  - intros k pc s d f pg e Hd Hp Hr Hdirty Hf Hpg Hw.
    rewrite allocBuf_loop_S, Hd, Hp, Hr. cbn.
    by apply evict_refused_write.
  - intros s δ d f pg e Hshape Hδ Hd Hp Hr Hmin Hdirty Hf Hpg Hw.
    destruct (allocBuf_loop_first (allocBuf_fuel (mgr s)) 0 s δ d)
      as (s1 & Hsw & Hc & Hrun); try done.
    { unfold allocBuf_fuel. lia. }
    pose proof Hsw as (_ & Hpool & Hh & Hdk & Hl & Ht).
    assert (Hev : allocBuf s
                  = (Throw (FileException e), log_io (EvWritePage f pg) s1)).
    { unfold allocBuf. rewrite Hrun.
      apply evict_refused_write; [done..| |by rewrite Hdk].
      by rewrite Hpool, Hc. }
    exists (log_io (EvWritePage f pg) s1).
    split_and!; try done.
    + cbn. rewrite Hc.
      destruct (Forall2_lookup_l _ _ _ _ _ Ht Hd) as (d1 & Hd1 & [-> | ->]);
        [done|]. by rewrite set_refbit_clear in Hd1.
    + cbn. by rewrite Hl.
    + intros f' p' Hk. unfold readPage. unfold_prims. by rewrite Hk, Hev.
    + intros f' s0 pg0 dk Halloc Hs. unfold allocPage, File_allocatePage.
      unfold_prims. by rewrite Halloc, <- Hs, Hev.
Qed.

(** *** readPage *)

Lemma unPinPage_pinned (f p i : N) (b : bool) d s :
  hashTable (mgr s) !! (Some f, p) = Some i →
  bufDescTable (mgr s) !! N.to_nat i = Some d → 0 < pinCnt d →
  unPinPage f p b s = (Ok tt, put_frame i (unpinned b d) s).
Proof.
  intros Hk Hd Hp.
  assert (Hlt : (N.to_nat i < length (bufDescTable (mgr s)))%nat)
    by (by eapply lookup_lt_Some).
  apply N.ltb_lt in Hp.
  unfold unPinPage. unfold_prims. rewrite Hk, Hd, Hp. cbn.
  unfold put_frame. destruct b; cbn; [|done].
  rewrite list_lookup_insert_eq by done. cbn.
  by rewrite list_insert_insert_eq.
Qed.

(** X9: on a hit [readPage] makes no file call: it returns the frame the
    hash index gives, with one more pin and the reference bit set, and
    changes nothing else.  A following [unPinPage] takes the pin off again
    and leaves the state as before the two calls, up to the reference bit
    and, if asked for, the dirty flag. *)
Theorem readPage_hit_then_unPinPage (f p i : N) (b : bool) d s :
  hashTable (mgr s) !! (Some f, p) = Some i →
  bufDescTable (mgr s) !! N.to_nat i = Some d →
  let pinned := set_pinCnt (pinCnt d + 1) (set_refbit true d) in
  readPage f p s = (Ok i, put_frame i pinned s) ∧
  unPinPage f p b (put_frame i pinned s)
    = (Ok tt, put_frame i (set_dirty (b || dirty d) (set_refbit true d)) s).
Proof.
  intros Hk Hd pinned.
  assert (Hlt : (N.to_nat i < length (bufDescTable (mgr s)))%nat)
    by (by eapply lookup_lt_Some).
  split.
  - unfold readPage. unfold_prims. by rewrite Hk, Hd.
  - rewrite (unPinPage_pinned f p i b pinned); cbn; try done.
    + unfold put_frame. cbn. rewrite list_insert_insert_eq.
      assert (unpinned b pinned = set_dirty (b || dirty d) (set_refbit true d)) as ->; [|done].
      unfold unpinned, pinned, set_dirty. cbn. by rewrite N.add_sub.
    + by apply list_lookup_insert_eq.
    + lia.
Qed.

(** X10: a [readPage] that misses and returns has bound the page: the frame
    returned is the one [allocBuf] handed out, its pool slot holds what the
    file returned for the page, which was read after the frame was found,
    its descriptor is [Set] to the page with one pin, and the hash index
    maps the page to it.  The next [readPage] of the page is a hit on that
    frame, with two pins and no file call. *)
Theorem readPage_miss_then_hit (f p i : N) s s' :
  hashTable (mgr s) !! (Some f, p) = None →
  readPage f p s = (Ok i, s') →
  ∃ d0 (pg : Page) s1,
    allocBuf s = (Ok i, s1) ∧
    file_readPage f p (disk s1) = inr pg ∧
    iolog s' = iolog s1 ++ [EvReadPage f p] ∧ disk s' = disk s1 ∧
    bufPool (mgr s') = <[N.to_nat i := pg]> (bufPool (mgr s1)) ∧
    bufPool (mgr s') !! N.to_nat i = Some pg ∧
    hashTable (mgr s') = <[(Some f, p) := i]> (hashTable (mgr s1)) ∧
    bufDescTable (mgr s')
      = <[N.to_nat i := BufDesc_Set f p d0]> (bufDescTable (mgr s1)) ∧
    bufDescTable (mgr s') !! N.to_nat i = Some (BufDesc_Set f p d0) ∧
    readPage f p s'
      = (Ok i, put_frame i (set_pinCnt 2 (set_refbit true (BufDesc_Set f p d0))) s').
Proof.
  intros Hk. unfold readPage at 1, File_readPage. unfold_prims. rewrite Hk.
  destruct (allocBuf s) as [[i'| |] s1] eqn:Hbuf; try done.
  destruct (file_readPage f p (disk s1)) as [e|pg] eqn:Hread; [done|]. cbn.
  destruct (bufPool (mgr s1) !! N.to_nat i') as [pg0|] eqn:Hpg0; [|done]. cbn.
  destruct (hashTable (mgr s1) !! (Some f, p)) eqn:Hk1; [done|]. cbn.
  destruct (bufDescTable (mgr s1) !! N.to_nat i') as [d0|] eqn:Hd0; [|done].
  intros Hrun. injection Hrun as <- <-. cbn.
  exists d0, pg, s1.
  assert (Hd : <[N.to_nat i' := BufDesc_Set f p d0]> (bufDescTable (mgr s1))
               !! N.to_nat i' = Some (BufDesc_Set f p d0)).
  { apply list_lookup_insert_eq. by eapply lookup_lt_Some. }
  split_and!; try done.
  - apply list_lookup_insert_eq. by eapply lookup_lt_Some.
  - unfold readPage, catch_HashNotFound, hash_lookup.
    cbn [mgr hashTable bufDescTable set_bufDescTable set_hashTable set_bufPool].
    rewrite lookup_insert_eq. unfold_prims.
    cbn [mgr hashTable bufDescTable set_bufDescTable set_hashTable set_bufPool].
    by rewrite Hd.
Qed.

(** What is left of [readPage] after [allocBuf] has handed out a frame
    keeps a frame that is not the one handed out, and the hash entry of
    another page. *)
Lemma readPage_rest_keeps (f p frameId : N) (i : nat) d (k : option N * N)
    (pg : option Page) :
  N.to_nat frameId ≠ i → k ≠ (Some f, p) →
  preserves (λ s, bufDescTable (mgr s) !! i = Some d ∧
                  hashTable (mgr s) !! k = Some (N.of_nat i) ∧
                  bufPool (mgr s) !! i = pg)
    (pg ← File_readPage f p;
     _ ← set_pool frameId pg;
     _ ← hash_insert (Some f, p) frameId;
     d ← frame_at frameId;
     _ ← set_frame frameId (BufDesc_Set f p d);
     ret frameId).
Proof.
  intros Hne Hk.
  preserves_go ltac:(field_leaf
    (λ m : BufMgr, bufDescTable m !! i = Some d ∧
                   hashTable m !! k = Some (N.of_nat i) ∧
                   bufPool m !! i = pg)
    ltac:(match goal with Hm : _ ∧ _ ∧ _ |- _ => destruct Hm as (? & ? & ?) end;
          split_and!; cbn;
          rewrite ?list_lookup_insert_ne, ?lookup_insert_ne by done; done)).
Qed.

(** X7: under the invariants of the data model a frame with [pinCnt > 0] is
    stable, however the calls end.  Across [allocBuf] its descriptor keeps
    owner, page number, validity, pin count and dirty flag, the hash index
    still maps its page to it, its pool slot is untouched and it is not the
    frame handed out.  The same holds across a [readPage] of any other page,
    hit or miss: the pool slot of a pinned frame is not overwritten. *)
Theorem pinned_frames_are_stable s (i : nat) d :
  wf (mgr s) →
  (∀ (j : nat) dj, bufDescTable (mgr s) !! j = Some dj →
                   valid dj = false → file dj = None) →
  bufDescTable (mgr s) !! i = Some d → 0 < pinCnt d →
  (∀ (r : Res N) s', allocBuf s = (r, s') →
     (∃ d', bufDescTable (mgr s') !! i = Some d' ∧ same_binding d d') ∧
     hashTable (mgr s') !! (file d, pageNo d) = Some (N.of_nat i) ∧
     bufPool (mgr s') !! i = bufPool (mgr s) !! i ∧
     (∀ i', r = Ok i' → N.to_nat i' ≠ i)) ∧
  (∀ (f p : N) (r : Res N) s', readPage f p s = (r, s') →
     (file d, pageNo d) ≠ (Some f, p) →
     (∃ d', bufDescTable (mgr s') !! i = Some d' ∧ same_binding d d') ∧
     hashTable (mgr s') !! (file d, pageNo d) = Some (N.of_nat i) ∧
     bufPool (mgr s') !! i = bufPool (mgr s) !! i).
Proof.
  intros Hwf Hunbound Hd Hpin. split.
  { intros r s' Hrun. by eapply allocBuf_pinned_stable. }
  intros f p r s' Hrun Hother.
  pose proof Hwf as (Hshape & Hdesc & Hbij1 & Hbij2).
  unfold readPage, catch_HashNotFound, hash_lookup in Hrun.
  destruct (hashTable (mgr s) !! (Some f, p)) as [j|] eqn:Hk.
  - destruct (Hbij2 _ _ Hk) as (dj & Hdj & Hvj & Hkj).
    assert (Hne : N.to_nat j ≠ i).
    { intros <-. assert (dj = d) as -> by congruence. done. }
    assert (Hvalid : valid d = true).
    { destruct (valid d) eqn:Hv; [done|].
      destruct (Hdesc _ _ Hd) as (_ & Hinv & _). destruct (Hinv Hv). lia. }
    revert Hrun. unfold_prims. rewrite Hdj. intros Hrun.
    injection Hrun as <- <-. cbn. rewrite list_lookup_insert_ne by done.
    split_and!; [by exists d|by apply Hbij1|done].
  - unfold mbind, M_bind, bind in Hrun.
    destruct (allocBuf s) as [r1 s1] eqn:Hbuf.
    destruct (allocBuf_pinned_stable _ _ _ _ _ Hwf Hunbound Hbuf Hd Hpin)
      as ((d' & Hd' & Hsame) & Hkey & Hpool & Hfr).
    destruct r1 as [frameId| |]; try (injection Hrun as <- <-; by eauto).
    pose proof (readPage_rest_keeps f p frameId i d' (file d, pageNo d)
                  (bufPool (mgr s) !! i) (Hfr _ eq_refl) Hother) as Hrest.
    unfold mbind, M_bind in Hrest.
    destruct (Hrest _ _ _ Hrun) as (Hd'' & Hkey'' & Hpool''); [done|].
    split_and!; [by exists d'|done..].
Qed.

(** *** flushFile, whichever way it ends *)

(** What one iteration may change: the descriptor of frame [i] if it is a
    frame of [f], the key of that frame, the disk and the log by one
    write-back. *)
Lemma flushFile_body_effect (f i : N) s (r : Res unit) s' :
  flushFile_body f i s = (r, s') →
  clockHand (mgr s') = clockHand (mgr s) ∧
  length (bufDescTable (mgr s')) = length (bufDescTable (mgr s)) ∧
  (∀ (j : nat) d, bufDescTable (mgr s) !! j = Some d →
     j ≠ N.to_nat i ∨ file d ≠ Some f → bufDescTable (mgr s') !! j = Some d) ∧
  (∀ k : option N * N, k.1 ≠ Some f →
     hashTable (mgr s') !! k = hashTable (mgr s) !! k) ∧
  hashTable (mgr s') ⊆ hashTable (mgr s) ∧
  (iolog s' = iolog s ∨ ∃ pg, iolog s' = iolog s ++ [EvWritePage f pg]).
Proof.
  unfold flushFile_body, File_writePage. unfold_prims. intros Hrun.
  assert (Hsame : clockHand (mgr s) = clockHand (mgr s) ∧
    length (bufDescTable (mgr s)) = length (bufDescTable (mgr s)) ∧
    (∀ (j : nat) d, bufDescTable (mgr s) !! j = Some d →
       j ≠ N.to_nat i ∨ file d ≠ Some f → bufDescTable (mgr s) !! j = Some d) ∧
    (∀ k : option N * N, k.1 ≠ Some f →
       hashTable (mgr s) !! k = hashTable (mgr s) !! k) ∧
    hashTable (mgr s) ⊆ hashTable (mgr s) ∧
    (iolog s = iolog s ∨ ∃ pg, iolog s = iolog s ++ [EvWritePage f pg]))
    by (split_and!; auto).
  destruct (bufDescTable (mgr s) !! N.to_nat i) as [d|] eqn:Hd;
    [|simplify_eq; exact Hsame].
  destruct (decide (file d = Some f)) as [Hf|Hf]; [|simplify_eq; exact Hsame].
  assert (Hfr : ∀ (t : list BufDesc) x, t = bufDescTable (mgr s) ∨
                  (∃ y, t = <[N.to_nat i := y]> (bufDescTable (mgr s))) →
            ∀ (j : nat) dj, bufDescTable (mgr s) !! j = Some dj →
              j ≠ N.to_nat i ∨ file dj ≠ Some f →
              <[N.to_nat i := x]> t !! j = Some dj).
  { intros t x Ht j dj Hdj [Hne|Hne].
    - rewrite list_lookup_insert_ne by done.
      destruct Ht as [->|[y ->]]; [done|]. by rewrite list_lookup_insert_ne.
    - destruct (decide (j = N.to_nat i)) as [->|Hne']; [congruence|].
      rewrite list_lookup_insert_ne by done.
      destruct Ht as [->|[y ->]]; [done|]. by rewrite list_lookup_insert_ne. }
  assert (Hdel : ∀ (k : option N * N) p, k.1 ≠ Some f →
            delete (Some f, p) (hashTable (mgr s)) !! k = hashTable (mgr s) !! k).
  { intros k p Hk. apply lookup_delete_ne. intros <-. by apply Hk. }
  assert (Hlt : (N.to_nat i < length (bufDescTable (mgr s)))%nat)
    by (by eapply lookup_lt_Some).
  rewrite Hf in Hrun.
  destruct (0 <? pinCnt d); [simplify_eq; exact Hsame|].
  destruct (valid d); cbn in Hrun; [|simplify_eq; exact Hsame].
  destruct (dirty d).
  - destruct (bufPool (mgr s) !! N.to_nat i) as [pg|]; [|simplify_eq; exact Hsame].
    destruct (file_writePage f pg (disk s)) as [e|dk]; cbn in Hrun.
    { injection Hrun as <- <-. cbn. split_and!; eauto. }
    destruct (hashTable (mgr s) !! (Some f, pageNo d)); cbn in Hrun.
    + rewrite list_lookup_insert_eq in Hrun by done. injection Hrun as <- <-. cbn.
      rewrite !length_insert.
      split_and!; [done|done| | |apply delete_subseteq|eauto].
      * intros j dj Hdj Hj. apply Hfr; [eauto|done..].
      * intros k Hk. by apply Hdel.
    + injection Hrun as <- <-. cbn. rewrite !length_insert.
      split_and!; [done|done| |done|done|eauto].
      intros j dj Hdj Hj.
      rewrite <- (list_insert_insert_eq _ _ (set_dirty false d) (set_dirty false d)).
      apply Hfr; [eauto|done..].
  - destruct (hashTable (mgr s) !! (Some f, pageNo d)); cbn in Hrun.
    + rewrite Hd in Hrun. injection Hrun as <- <-. cbn. rewrite !length_insert.
      split_and!; [done|done| | |apply delete_subseteq|eauto].
      * intros j dj Hdj Hj. apply Hfr; [eauto|done..].
      * intros k Hk. by apply Hdel.
    + simplify_eq. exact Hsame.
Qed.

Lemma flushFile_loop_effect (c : nat) (f i : N) s (r : Res unit) s' :
  flushFile_loop c f i s = (r, s') →
  clockHand (mgr s') = clockHand (mgr s) ∧
  length (bufDescTable (mgr s')) = length (bufDescTable (mgr s)) ∧
  (∀ (j : nat) d, bufDescTable (mgr s) !! j = Some d →
     file d ≠ Some f → bufDescTable (mgr s') !! j = Some d) ∧
  (∀ k : option N * N, k.1 ≠ Some f →
     hashTable (mgr s') !! k = hashTable (mgr s) !! k) ∧
  hashTable (mgr s') ⊆ hashTable (mgr s) ∧
  ∃ l, iolog s' = iolog s ++ l ∧ Forall (λ ev, ∃ pg, ev = EvWritePage f pg) l.
Proof.
  revert i s. induction c as [|c IH]; intros i s Hrun.
  { injection Hrun as <- <-. split_and!; try done. exists []. by rewrite app_nil_r. }
  cbn [flushFile_loop] in Hrun. unfold mbind, M_bind, bind in Hrun.
  destruct (flushFile_body f i s) as [r1 s1] eqn:Hbody.
  apply flushFile_body_effect in Hbody as (Hc1 & Hlen1 & Hfr1 & Hh1 & Hsub1 & Hio1).
  assert (Hlog1 : ∃ l, iolog s1 = iolog s ++ l ∧
                       Forall (λ ev, ∃ pg, ev = EvWritePage f pg) l).
  { destruct Hio1 as [->|[pg ->]]; [exists []; by rewrite app_nil_r|].
    exists [EvWritePage f pg]. split; [done|]. repeat constructor. by exists pg. }
  assert (Hhere : clockHand (mgr s1) = clockHand (mgr s) ∧
    length (bufDescTable (mgr s1)) = length (bufDescTable (mgr s)) ∧
    (∀ (j : nat) d, bufDescTable (mgr s) !! j = Some d →
       file d ≠ Some f → bufDescTable (mgr s1) !! j = Some d) ∧
    (∀ k : option N * N, k.1 ≠ Some f →
       hashTable (mgr s1) !! k = hashTable (mgr s) !! k) ∧
    hashTable (mgr s1) ⊆ hashTable (mgr s) ∧
    ∃ l, iolog s1 = iolog s ++ l ∧ Forall (λ ev, ∃ pg, ev = EvWritePage f pg) l).
  { split_and!; try done. intros j d Hd Hf. apply Hfr1; [done|by right]. }
  destruct r1 as [[]|e|]; try (by injection Hrun as <- <-).
  apply IH in Hrun as (Hc2 & Hlen2 & Hfr2 & Hh2 & Hsub2 & l2 & Hio2 & Hl2).
  destruct Hlog1 as (l1 & Hio1' & Hl1).
  split_and!.
  - congruence.
  - congruence.
  - intros j d Hd Hf. apply Hfr2; [|done]. apply Hfr1; [done|by right].
  - intros k Hk. by rewrite Hh2, Hh1.
  - by etrans.
  - exists (l1 ++ l2). split; [by rewrite Hio2, Hio1', app_assoc|].
    by apply Forall_app.
Qed.


(** A part of the loop that went through has flushed the frames of [f] it
    went over and left the others alone. *)
Lemma flushFile_loop_prefix (c : nat) (f i : N) s s' :
  flushFile_loop c f i s = (Ok tt, s') →
  (∀ (j : nat) d, bufDescTable (mgr s) !! j = Some d →
     (N.to_nat i ≤ j < N.to_nat i + c)%nat → file d = Some f →
     bufDescTable (mgr s') !! j = Some (BufDesc_Clear d) ∧
     hashTable (mgr s') !! (Some f, pageNo d) = None) ∧
  (∀ (j : nat) d, bufDescTable (mgr s) !! j = Some d →
     (j < N.to_nat i ∨ N.to_nat i + c ≤ j)%nat →
     bufDescTable (mgr s') !! j = Some d).
Proof.
  revert i s. induction c as [|c IH]; intros i s Hrun.
  { injection Hrun as <-. split; [intros; lia|done]. }
  cbn [flushFile_loop] in Hrun. unfold mbind, M_bind, bind in Hrun.
  destruct (flushFile_body f i s) as [[[]| |] s1] eqn:Hbody; try done.
  pose proof (flushFile_body_effect _ _ _ _ _ Hbody) as (_ & _ & Hfr1 & _).
  pose proof (flushFile_loop_effect _ _ _ _ _ _ Hrun) as (_ & _ & _ & _ & Hsub & _).
  apply flushFile_body_Ok in Hbody as (d & Hd & Hbody).
  assert (Hi : N.to_nat (i + 1) = S (N.to_nat i)) by lia.
  apply IH in Hrun as (Hin & Hout). rewrite Hi in Hin, Hout.
  split.
  - intros j dj Hdj Hj Hf. destruct (decide (j = N.to_nat i)) as [->|Hne].
    + assert (dj = d) as -> by congruence.
      destruct Hbody as [[? _]|(_ & _ & _ & Ht1 & Hh1 & _)]; [done|]. split.
      * apply Hout; [|lia]. rewrite Ht1. apply list_lookup_insert_eq.
        by eapply lookup_lt_Some.
      * eapply lookup_weaken_None; [|exact Hsub]. rewrite Hh1.
        apply lookup_delete_eq.
    + apply Hin; [|lia|done]. apply Hfr1; [done|by left].
  - intros j dj Hdj Hj. apply Hout; [|lia]. apply Hfr1; [done|left; lia].
Qed.

(** A loop that throws has gone through some iterations and thrown in the
    next. *)
Lemma flushFile_loop_Throw (c : nat) (f i : N) s (e : Exn) s' :
  flushFile_loop c f i s = (Throw e, s') →
  ∃ (k : nat) s1,
    (k < c)%nat ∧ flushFile_loop k f i s = (Ok tt, s1) ∧
    flushFile_body f (i + N.of_nat k) s1 = (Throw e, s').
Proof.
  revert i s. induction c as [|c IH]; intros i s Hrun; [done|].
  cbn [flushFile_loop] in Hrun. unfold mbind, M_bind, bind in Hrun.
  destruct (flushFile_body f i s) as [[[]|e1|] s1] eqn:Hbody; try done.
  - apply IH in Hrun as (k & s2 & Hk & Hpre & Hthrow).
    exists (S k), s2. split_and!; [lia| |].
    + cbn [flushFile_loop]. unfold mbind, M_bind, bind. by rewrite Hbody.
    + replace (i + N.of_nat (S k)) with (i + 1 + N.of_nat k) by lia. done.
  - injection Hrun as <- <-. exists 0%nat, s. split_and!; [lia|done|].
    by rewrite N.add_0_r.
Qed.

Lemma flushFile_body_refusal (f i : N) s (e : Exn) s' :
  flushFile_body f i s = (Throw e, s') → flush_refusal e = true →
  s' = s ∧
  ∃ d, bufDescTable (mgr s) !! N.to_nat i = Some d ∧ file d = Some f ∧
       ((e = PagePinnedException f (pageNo d) (frameNo d) ∧ 0 < pinCnt d) ∨
        (e = BadBufferException (frameNo d) (dirty d) (valid d) (refbit d) ∧
         pinCnt d = 0 ∧ valid d = false)).
Proof.
  unfold flushFile_body, File_writePage. unfold_prims. intros Hrun He.
  destruct (bufDescTable (mgr s) !! N.to_nat i) as [d|] eqn:Hd;
    [|by simplify_eq].
  destruct (decide (file d = Some f)) as [Hf|Hf]; [|by simplify_eq].
  rewrite Hf in Hrun.
  destruct (0 <? pinCnt d) eqn:Hp.
  { injection Hrun as <- <-. split; [done|]. exists d. split_and!; try done.
    left. split; [done|]. by apply N.ltb_lt. }
  apply N.ltb_ge in Hp.
  destruct (valid d) eqn:Hv; cbn in Hrun.
  2:{ injection Hrun as <- <-. split; [done|]. exists d. split_and!; try done.
      right. split_and!; [by rewrite Hv|lia|done]. }
  repeat case_match; simplify_eq; cbn in *; done.
Qed.

(** X11: when [flushFile(F)] refuses to go on, with PagePinned at a pinned
    frame of [F] or BadBuffer at an unpinned frame of [F] that is not valid,
    the exception names that frame, nothing is rolled back and nothing
    further is done: the frames of [F] before it are flushed, cleared and
    gone from the hash index, the descriptors from it on are as they were. *)
Theorem flushFile_refusal_no_rollback (f : N) s (e : Exn) s' :
  flushFile f s = (Throw e, s') → flush_refusal e = true →
  ∃ (i : nat) d,
    bufDescTable (mgr s) !! i = Some d ∧ file d = Some f ∧
    ((e = PagePinnedException f (pageNo d) (frameNo d) ∧ 0 < pinCnt d) ∨
     (e = BadBufferException (frameNo d) (dirty d) (valid d) (refbit d) ∧
      pinCnt d = 0 ∧ valid d = false)) ∧
    (∀ (j : nat) dj, (j < i)%nat → bufDescTable (mgr s) !! j = Some dj →
       file dj = Some f →
       bufDescTable (mgr s') !! j = Some (BufDesc_Clear dj) ∧
       hashTable (mgr s') !! (Some f, pageNo dj) = None) ∧
    (∀ (j : nat) dj, (i ≤ j)%nat → bufDescTable (mgr s) !! j = Some dj →
       bufDescTable (mgr s') !! j = Some dj).
Proof.
  intros Hrun He. unfold flushFile in Hrun. revert Hrun. unfold_prims. intros Hrun.
  apply flushFile_loop_Throw in Hrun as (k & s1 & Hk & Hpre & Hthrow).
  apply flushFile_body_refusal in Hthrow as (-> & d & Hd & Hf & Hcase); [|done].
  pose proof (flushFile_loop_effect _ _ _ _ _ _ Hpre) as (_ & Hlen & _).
  apply flushFile_loop_prefix in Hpre as (Hin & Hout).
  change (N.to_nat 0) with 0%nat in Hin, Hout.
  replace (N.to_nat (0 + N.of_nat k)) with k in Hd by lia.
  destruct (lookup_lt_is_Some_2 (bufDescTable (mgr s)) k) as [d0 Hd0];
    [apply lookup_lt_Some in Hd; lia|].
  assert (d0 = d) as ->.
  { pose proof (Hout k d0 Hd0) as Hd0'. rewrite Hd0' in Hd by lia. congruence. }
  exists k, d. split_and!; try done.
  - intros j dj Hj Hdj Hfj. apply Hin; [done|lia|done].
  - intros j dj Hj Hdj. apply Hout; [done|lia].
Qed.

(** Under the invariants every frame of [f] from [i] on is unhooked without
    trouble: the loop ends normally or with the file's refusal of a
    write-back. *)
Lemma flushFile_loop_outcome (c : nat) (f i : N) s :
  length (bufDescTable (mgr s)) = (N.to_nat i + c)%nat →
  length (bufPool (mgr s)) = length (bufDescTable (mgr s)) →
  (∀ (j : nat) d, (N.to_nat i ≤ j)%nat → bufDescTable (mgr s) !! j = Some d →
     file d = Some f →
     pinCnt d = 0 ∧ valid d = true ∧
     hashTable (mgr s) !! (Some f, pageNo d) = Some (N.of_nat j)) →
  ((flushFile_loop c f i s).1 = Ok tt ∨
   ∃ e, (flushFile_loop c f i s).1 = Throw (FileException e)) ∧
  ((∀ (j : nat) d, (N.to_nat i ≤ j)%nat → bufDescTable (mgr s) !! j = Some d →
      file d = Some f → dirty d = false) →
   (flushFile_loop c f i s).1 = Ok tt ∧
   iolog (flushFile_loop c f i s).2 = iolog s).
Proof.
  revert i s. induction c as [|c IH]; intros i s Hlen Hpool Hinv.
  { cbn. split; [by left|done]. }
  assert (Hi : N.to_nat (i + 1) = S (N.to_nat i)) by lia.
  destruct (lookup_lt_is_Some_2 (bufDescTable (mgr s)) (N.to_nat i)) as [d Hd];
    [lia|].
  destruct (lookup_lt_is_Some_2 (bufPool (mgr s)) (N.to_nat i)) as [pg Hpg];
    [lia|].
  cbn [flushFile_loop]. unfold flushFile_body, File_writePage. unfold_prims.
  rewrite Hd.
  destruct (decide (file d = Some f)) as [Hf|Hf].
  2:{ destruct (IH (i + 1) s) as [Hres Hclean]; [lia|done| |].
      - intros j dj Hj. apply Hinv. lia.
      - split; [done|]. intros Hc. apply Hclean. intros j dj Hj. apply (Hc j). lia. }
  destruct (Hinv _ _ (le_n _) Hd Hf) as (Hpin & Hvalid & Hkey).
  rewrite Hf, Hpin, Hvalid. cbn.
  assert (Hnext : ∀ (t : list BufDesc) (dk : Disk) (l : list IOEvent) x,
            length t = length (bufDescTable (mgr s)) →
            (∀ j, j ≠ N.to_nat i → t !! j = bufDescTable (mgr s) !! j) →
            let s1 := {| mgr := set_bufDescTable (<[N.to_nat i := x]> t)
                                  (set_hashTable (delete (Some f, pageNo d) (hashTable (mgr s)))
                                     (mgr s));
                         disk := dk; iolog := l |} in
            ((flushFile_loop c f (i + 1) s1).1 = Ok tt ∨
             ∃ e, (flushFile_loop c f (i + 1) s1).1 = Throw (FileException e)) ∧
            ((∀ (j : nat) dj, (N.to_nat i ≤ j)%nat →
                bufDescTable (mgr s) !! j = Some dj → file dj = Some f →
                dirty dj = false) →
             (flushFile_loop c f (i + 1) s1).1 = Ok tt ∧
             iolog (flushFile_loop c f (i + 1) s1).2 = l)).
  { intros t dk l x Ht Hother s1.
    assert (Hlook : ∀ j, (S (N.to_nat i) ≤ j)%nat →
              bufDescTable (mgr s1) !! j = bufDescTable (mgr s) !! j).
    { intros j Hj. cbn. rewrite list_lookup_insert_ne by lia. apply Hother. lia. }
    destruct (IH (i + 1) s1) as [Hres Hclean].
    - cbn. rewrite length_insert. lia.
    - cbn. rewrite length_insert. lia.
    - intros j dj Hj Hdj Hfj. rewrite Hi in Hj. rewrite Hlook in Hdj by done.
      destruct (Hinv j dj) as (? & ? & Hkj); [lia|done..|].
      split_and!; try done. cbn. rewrite lookup_delete_ne; [done|].
      intros Heq. injection Heq as Heq. rewrite <- Heq, Hkey in Hkj.
      injection Hkj as Hkj. lia.
    - split; [done|]. intros Hc. apply Hclean. intros j dj Hj Hdj.
      rewrite Hi in Hj. rewrite Hlook in Hdj by done. apply (Hc j); [lia|done]. }
  destruct (dirty d) eqn:Hdirty.
  - rewrite Hpg.
    split; [|intros Hc; by rewrite (Hc _ _ (le_n _) Hd Hf) in Hdirty].
    destruct (file_writePage f pg (disk s)) as [e|dk]; cbn; [right; by eexists|].
    rewrite Hkey. cbn. rewrite list_lookup_insert_eq by lia. cbn.
    rewrite list_insert_insert_eq.
    apply (Hnext (bufDescTable (mgr s)) dk _ (BufDesc_Clear (set_dirty false d)));
      done.
  - rewrite Hkey. cbn. rewrite Hd.
    apply (Hnext (bufDescTable (mgr s)) (disk s) (iolog s) (BufDesc_Clear d)); done.
Qed.

(** X12: under the bijection between the hash index and the valid frames,
    a [flushFile(F)] on a pool where every frame of [F] is valid and
    unpinned does not fail by itself: it returns, or ends with the
    exception of a writePage the file refused.  If no frame of [F] is
    dirty it returns without any file call. *)
Theorem flushFile_outcome (f : N) s :
  length (bufDescTable (mgr s)) = N.to_nat (numBufs (mgr s)) →
  length (bufPool (mgr s)) = N.to_nat (numBufs (mgr s)) →
  hash_frames_bijection (mgr s) →
  (∀ (j : nat) d, bufDescTable (mgr s) !! j = Some d → file d = Some f →
     pinCnt d = 0 ∧ valid d = true) →
  ((flushFile f s).1 = Ok tt ∨ ∃ e, (flushFile f s).1 = Throw (FileException e)) ∧
  ((∀ (j : nat) d, bufDescTable (mgr s) !! j = Some d → file d = Some f →
      dirty d = false) →
   (flushFile f s).1 = Ok tt ∧ iolog (flushFile f s).2 = iolog s).
Proof.
  intros Hlen Hpool [Hbij _] Hfr. unfold flushFile. unfold_prims.
  destruct (flushFile_loop_outcome (N.to_nat (numBufs (mgr s))) f 0 s)
    as [Hres Hclean]; [cbn; lia|congruence| |].
  - intros j d _ Hd Hf. destruct (Hfr _ _ Hd Hf) as [Hp Hv].
    split_and!; try done. pose proof (Hbij _ _ Hd Hv) as Hk. by rewrite Hf in Hk.
  - split; [done|]. intros Hc. apply Hclean. intros j d _. apply Hc.
Qed.

(** *** disposePage on a page of the pool *)

(** X15: for a page that the hash index maps to a frame, [disposePage]
    looks only at [valid].  If the frame is valid, pinned or not and dirty
    or not, its hash entry is removed and it is cleared before the file is
    asked to delete the page, which is the only file call, so that this
    holds even when deletePage throws; afterwards the page is unknown to
    [unPinPage] and [disposePage], which return without doing anything.
    If the frame is not valid nothing at all is done. *)
Theorem disposePage_of_pooled_page (f p i : N) (b : bool) d s :
  hashTable (mgr s) !! (Some f, p) = Some i →
  bufDescTable (mgr s) !! N.to_nat i = Some d →
  (valid d = true →
   let s' := (disposePage f p s).2 in
   ((disposePage f p s).1 = Ok tt ∨
    ∃ e, (disposePage f p s).1 = Throw (FileException e)) ∧
   hashTable (mgr s') = delete (Some f, p) (hashTable (mgr s)) ∧
   bufDescTable (mgr s') = <[N.to_nat i := BufDesc_Clear d]> (bufDescTable (mgr s)) ∧
   iolog s' = iolog s ++ [EvDeletePage f p] ∧
   unPinPage f p b s' = (Ok tt, s') ∧
   disposePage f p s' = (Ok tt, s')) ∧
  (valid d = false → disposePage f p s = (Ok tt, s)).
Proof.
  intros Hk Hd. split; intros Hv.
  - destruct (disposePage f p s) as [r s'] eqn:Hrun. cbn.
    pose proof (disposePage_present _ _ _ _ _ _ _ Hk Hd Hv Hrun) as (Hh & Ht & Hio).
    assert (Hgone : hashTable (mgr s') !! (Some f, p) = None)
      by (rewrite Hh; apply lookup_delete_eq).
    split_and!; try done.
    + revert Hrun. unfold disposePage, File_deletePage. unfold_prims.
      rewrite Hk, Hd, Hv, Hk. cbn.
      destruct (file_deletePage f p (disk s)); intros Hrun; injection Hrun as <- _;
        eauto.
    + unfold unPinPage. unfold_prims. by rewrite Hgone.
    + by apply disposePage_absent.
  - unfold disposePage. unfold_prims. by rewrite Hk, Hd, Hv.
Qed.

(** *** A manager that starts out fresh *)

(** X16: no sequence of calls of the public methods gets a freshly
    constructed manager to bind a page: the manager stays in its initial
    state, every [readPage] fails in [allocBuf], with HashNotFound from the
    removal of the unbound frame's key or, for a pool of no frames, with an
    access outside the descriptor table, and [unPinPage], [disposePage]
    and [flushFile] return without doing anything. *)
Theorem fresh_manager_never_binds (bufs : N) (dk : Disk) (ops : list Op)
    (f p : N) (b : bool) :
  bufs < 2 ^ 32 →
  let s := run_ops ops (fresh bufs dk) in
  mgr s = BufMgr_new bufs ∧
  readPage f p s
    = (Throw (if bufs =? 0 then UndefinedBehaviour else HashNotFoundException), s) ∧
  unPinPage f p b s = (Ok tt, s) ∧
  disposePage f p s = (Ok tt, s) ∧
  flushFile f s = (Ok tt, s).
Proof.
  intros Hb s.
  assert (Hm : mgr s = BufMgr_new bufs) by (by apply run_ops_fresh).
  assert (Hh : ∀ k, hashTable (mgr s) !! k = None)
    by (intros k; rewrite Hm; apply lookup_empty).
  split_and!; try done.
  - unfold readPage, catch_HashNotFound, hash_lookup. rewrite Hh.
    unfold mbind, M_bind, bind.
    assert (Hbuf : allocBuf s
      = (Throw (if bufs =? 0 then UndefinedBehaviour else HashNotFoundException), s));
      [|by rewrite Hbuf].
    unfold allocBuf, allocBuf_fuel. rewrite allocBuf_loop_S.
    destruct (bufDescTable (mgr s) !! N.to_nat (clockHand (mgr s))) as [d|] eqn:Hd.
    + assert (Hlt : (N.to_nat (clockHand (mgr s)) < length (bufDescTable (mgr s)))%nat)
        by (by eapply lookup_lt_Some).
      rewrite Hm in Hlt. cbn in Hlt. rewrite length_fmap, length_seq in Hlt.
      destruct (N.eqb_spec bufs 0) as [->|Hne]; [cbn in Hlt; lia|].
      rewrite Hm in Hd. apply BufMgr_new_frame in Hd as ->. cbn.
      unfold evict. unfold_prims. cbn. by rewrite Hh.
    + apply lookup_ge_None in Hd. rewrite Hm in Hd. cbn in Hd.
      rewrite length_fmap, length_seq in Hd.
      destruct (N.eqb_spec bufs 0) as [->|Hne]; [done|].
      exfalso. unfold wrap32 in Hd.
      replace (bufs + (2 ^ 32 - 1)) with (bufs - 1 + 1 * 2 ^ 32) in Hd by lia.
      rewrite N.Div0.mod_add, N.mod_small in Hd by lia. lia.
  - unfold unPinPage. unfold_prims. by rewrite Hh.
  - by apply disposePage_absent.
  - unfold flushFile. unfold_prims.
    apply flushFile_loop_noop.
    + rewrite Hm. cbn. rewrite length_fmap, length_seq. lia.
    + intros j d Hd. rewrite Hm in Hd. by apply BufMgr_new_frame in Hd as ->.
Qed.

(** *** The bijection between the hash index and the valid frames *)

#[local] Instance rebound_refl : Reflexive rebound.
Proof. intros d. unfold rebound. split_and!; auto. Qed.

Lemma swept_frame_rebound d d' : swept_frame d d' → rebound d d'.
Proof. intros [-> | ->]; unfold rebound; cbn; split_and!; auto. Qed.

Lemma Forall2_rebound_insert (t : list BufDesc) (i : nat) d d' :
  t !! i = Some d → rebound d d' → Forall2 rebound t (<[i := d']> t).
Proof.
  intros Hd Hr. rewrite <- (list_insert_id t i d Hd) at 1.
  by apply Forall2_insert.
Qed.

(** Rewriting descriptors without touching their binding keeps the
    invariants. *)
Lemma frames_ok_rebound m m' :
  frames_ok m → hashTable m' = hashTable m →
  Forall2 rebound (bufDescTable m) (bufDescTable m') → frames_ok m'.
Proof.
  intros (Hdesc & [Hb1 Hb2] & Hunb) Hh Ht.
  assert (Hback : ∀ (i : nat) d', bufDescTable m' !! i = Some d' →
            ∃ d, bufDescTable m !! i = Some d ∧ rebound d d').
  { intros i d' Hd'. by apply (Forall2_lookup_r _ _ _ _ _ Ht Hd'). }
  split_and!.
  - intros i d' Hd'. destruct (Hback _ _ Hd') as (d & Hd & Hf & Hp & Hn & Hv & Hinv).
    destruct (Hdesc _ _ Hd) as (Hno & Hclean & Hfile).
    split_and!; [congruence| |rewrite Hv, Hf; exact Hfile].
    rewrite Hv. intros Hv'. destruct (Hclean Hv') as (? & ? & ?).
    destruct (Hinv Hv') as [-> | ->]; cbn; auto.
  - split.
    + intros i d' Hd' Hv'.
      destruct (Hback _ _ Hd') as (d & Hd & Hf & Hp & _ & Hv & _).
      rewrite Hh, Hf, Hp. apply Hb1; [done|congruence].
    + intros k i Hk. rewrite Hh in Hk.
      destruct (Hb2 _ _ Hk) as (d & Hd & Hv & Hkey).
      destruct (Forall2_lookup_l _ _ _ _ _ Ht Hd) as (d' & Hd' & Hf & Hp & _ & Hv' & _).
      exists d'. split_and!; [done|congruence|]. by rewrite Hf, Hp.
  - intros i d' Hd' Hv'.
    destruct (Hback _ _ Hd') as (d & Hd & Hf & _ & _ & Hv & _).
    rewrite Hf. apply (Hunb _ _ Hd). congruence.
Qed.

(** A descriptor whose key the hash index knows is valid, and it is the
    frame the index names. *)
Lemma frames_ok_key m (i : nat) d :
  frames_ok m → bufDescTable m !! i = Some d →
  is_Some (hashTable m !! (file d, pageNo d)) →
  valid d = true ∧ hashTable m !! (file d, pageNo d) = Some (N.of_nat i).
Proof.
  intros (Hdesc & [Hb1 Hb2] & Hunb) Hd [i0 Hk].
  assert (Hv : valid d = true).
  { destruct (valid d) eqn:Hv; [done|].
    destruct (Hb2 _ _ Hk) as (d0 & Hd0 & Hv0 & Hkey).
    destruct (Hdesc _ _ Hd0) as (_ & _ & Hfile). destruct (Hfile Hv0) as [f0 Hf0].
    rewrite (Hunb _ _ Hd Hv) in Hkey. injection Hkey as Hkey _. congruence. }
  split; [done|]. by apply Hb1.
Qed.

(** Taking a page out of its frame: [remove] and [Clear]. *)
Lemma frames_ok_unbind m m' (i : nat) d :
  frames_ok m → bufDescTable m !! i = Some d →
  is_Some (hashTable m !! (file d, pageNo d)) →
  bufDescTable m' = <[i := BufDesc_Clear d]> (bufDescTable m) →
  hashTable m' = delete (file d, pageNo d) (hashTable m) →
  frames_ok m'.
Proof.
  intros Hok Hd Hsome Ht Hh.
  destruct (frames_ok_key m i d Hok Hd Hsome) as [Hv Hk].
  destruct Hok as (Hdesc & [Hb1 Hb2] & Hunb).
  assert (Hlt : (i < length (bufDescTable m))%nat) by (by eapply lookup_lt_Some).
  assert (Hcases : ∀ (j : nat) dj, bufDescTable m' !! j = Some dj →
            (j = i ∧ dj = BufDesc_Clear d) ∨ (j ≠ i ∧ bufDescTable m !! j = Some dj)).
  { intros j dj Hdj. rewrite Ht in Hdj. destruct (decide (j = i)) as [->|Hne].
    - rewrite list_lookup_insert_eq in Hdj by done. left. by simplify_eq.
    - rewrite list_lookup_insert_ne in Hdj by done. by right. }
  split_and!.
  - intros j dj Hdj. destruct (Hcases _ _ Hdj) as [[-> ->]|[_ Hdj']]; [|by apply Hdesc].
    destruct (Hdesc _ _ Hd) as (Hno & _). by split_and!.
  - split.
    + intros j dj Hdj Hvj.
      destruct (Hcases _ _ Hdj) as [[-> ->]|[Hne Hdj']]; [done|].
      rewrite Hh, lookup_delete_ne; [by apply Hb1|].
      intros Heq. pose proof (Hb1 _ _ Hdj' Hvj) as Hkj.
      rewrite <- Heq, Hk in Hkj. injection Hkj as Hkj. lia.
    + intros k i0 Hk0. rewrite Hh in Hk0.
      apply lookup_delete_Some in Hk0 as [Hne Hk0].
      destruct (Hb2 _ _ Hk0) as (d0 & Hd0 & Hv0 & Hkey).
      exists d0. split_and!; [|done..].
      rewrite Ht, list_lookup_insert_ne; [done|].
      intros Heq. rewrite <- Heq, Hd in Hd0. injection Hd0 as <-. by apply Hne.
  - intros j dj Hdj Hvj.
    destruct (Hcases _ _ Hdj) as [[-> ->]|[_ Hdj']]; [done|]. by eapply Hunb.
Qed.

(** Putting a page into a frame that is not valid: [insert] and [Set]. *)
Lemma frames_ok_bind m m' (i f p : N) d :
  frames_ok m → bufDescTable m !! N.to_nat i = Some d → valid d = false →
  hashTable m !! (Some f, p) = None →
  bufDescTable m' = <[N.to_nat i := BufDesc_Set f p d]> (bufDescTable m) →
  hashTable m' = <[(Some f, p) := i]> (hashTable m) →
  frames_ok m'.
Proof.
  intros (Hdesc & [Hb1 Hb2] & Hunb) Hd Hv Hk Ht Hh.
  assert (Hlt : (N.to_nat i < length (bufDescTable m))%nat)
    by (by eapply lookup_lt_Some).
  assert (Hcases : ∀ (j : nat) dj, bufDescTable m' !! j = Some dj →
            (j = N.to_nat i ∧ dj = BufDesc_Set f p d)
            ∨ (j ≠ N.to_nat i ∧ bufDescTable m !! j = Some dj)).
  { intros j dj Hdj. rewrite Ht in Hdj. destruct (decide (j = N.to_nat i)) as [->|Hne].
    - rewrite list_lookup_insert_eq in Hdj by done. left. by simplify_eq.
    - rewrite list_lookup_insert_ne in Hdj by done. by right. }
  split_and!.
  - intros j dj Hdj. destruct (Hcases _ _ Hdj) as [[-> ->]|[_ Hdj']]; [|by apply Hdesc].
    destruct (Hdesc _ _ Hd) as (Hno & _). split_and!; [done|done|by eexists].
  - split.
    + intros j dj Hdj Hvj. rewrite Hh.
      destruct (Hcases _ _ Hdj) as [[-> ->]|[Hne Hdj']].
      * cbn. rewrite lookup_insert_eq. f_equal. lia.
      * rewrite lookup_insert_ne; [by apply Hb1|].
        intros Heq. pose proof (Hb1 _ _ Hdj' Hvj) as Hkj. congruence.
    + intros k i0 Hk0. rewrite Hh in Hk0.
      apply lookup_insert_Some in Hk0 as [[<- <-]|[Hne Hk0]].
      * exists (BufDesc_Set f p d). rewrite Ht, list_lookup_insert_eq by done. done.
      * destruct (Hb2 _ _ Hk0) as (d0 & Hd0 & Hv0 & Hkey).
        exists d0. split_and!; [|done..].
        rewrite Ht, list_lookup_insert_ne; [done|].
        intros Heq. rewrite Heq, Hd0 in Hd. congruence.
  - intros j dj Hdj Hvj.
    destruct (Hcases _ _ Hdj) as [[-> ->]|[_ Hdj']]; [done|]. by eapply Hunb.
Qed.

Lemma frames_ok_unPinPage (f p : N) (b : bool) s :
  frames_ok (mgr s) → frames_ok (mgr (unPinPage f p b s).2).
Proof.
  intros Hok. destruct (hashTable (mgr s) !! (Some f, p)) as [i|] eqn:Hk.
  - pose proof Hok as (_ & [_ Hb2] & _).
    destruct (Hb2 _ _ Hk) as (d & Hd & Hv & Hkey).
    destruct (N.ltb_spec 0 (pinCnt d)) as [Hp|Hp].
    + rewrite (unPinPage_pinned f p i b d s Hk Hd Hp). cbn.
      eapply frames_ok_rebound; [exact Hok|done|]. cbn.
      apply (Forall2_rebound_insert _ _ d); [done|].
      unfold rebound. cbn. split_and!; try done. congruence.
    + apply N.ltb_ge in Hp. unfold unPinPage. unfold_prims.
      by rewrite Hk, Hd, Hp.
  - unfold unPinPage. unfold_prims. by rewrite Hk.
Qed.

Lemma frames_ok_disposePage (f p : N) s :
  frames_ok (mgr s) → frames_ok (mgr (disposePage f p s).2).
Proof.
  intros Hok. destruct (hashTable (mgr s) !! (Some f, p)) as [i|] eqn:Hk.
  - pose proof Hok as (_ & [_ Hb2] & _).
    destruct (Hb2 _ _ Hk) as (d & Hd & Hv & Hkey).
    destruct (disposePage f p s) as [r s'] eqn:Hrun.
    destruct (disposePage_present f p i d s r s' Hk Hd Hv Hrun) as (Hh & Ht & _).
    cbn. apply (frames_ok_unbind (mgr s) _ (N.to_nat i) d); try done.
    + rewrite Hkey. by eexists.
    + by rewrite Hkey.
  - by rewrite disposePage_absent.
Qed.

(** What follows [allocBuf] in [readPage], on a frame that is not valid and
    for a page the index does not know. *)
Lemma frames_ok_read_in (f p frameId : N) d s :
  frames_ok (mgr s) →
  bufDescTable (mgr s) !! N.to_nat frameId = Some d → valid d = false →
  hashTable (mgr s) !! (Some f, p) = None →
  frames_ok (mgr ((pg ← File_readPage f p;
                   _ ← set_pool frameId pg;
                   _ ← hash_insert (Some f, p) frameId;
                   d ← frame_at frameId;
                   _ ← set_frame frameId (BufDesc_Set f p d);
                   ret frameId) s).2).
Proof.
  intros Hok Hd Hv Hk. unfold File_readPage. unfold_prims. cbn.
  destruct (file_readPage f p (disk s)) as [e|pg]; cbn; [done|].
  destruct (bufPool (mgr s) !! N.to_nat frameId); cbn; [|done].
  rewrite Hk. cbn. rewrite Hd. cbn.
  by apply (frames_ok_bind (mgr s) _ frameId f p d).
Qed.

Lemma frames_ok_readPage (f p : N) s :
  frames_ok (mgr s) → frames_ok (mgr (readPage f p s).2).
Proof.
  intros Hok. destruct (hashTable (mgr s) !! (Some f, p)) as [i|] eqn:Hk.
  - pose proof Hok as (_ & [_ Hb2] & _).
    destruct (Hb2 _ _ Hk) as (d & Hd & Hv & Hkey).
    unfold readPage. unfold_prims. rewrite Hk, Hd. cbn.
    eapply frames_ok_rebound; [exact Hok|done|]. cbn.
    apply (Forall2_rebound_insert _ _ d); [done|].
    unfold rebound. cbn. split_and!; try done. congruence.
  - destruct (allocBuf s) as [r s1] eqn:Hbuf.
    assert (Hread : readPage f p s
              = match r with
                | Ok frameId =>
                    (pg ← File_readPage f p;
                     _ ← set_pool frameId pg;
                     _ ← hash_insert (Some f, p) frameId;
                     d ← frame_at frameId;
                     _ ← set_frame frameId (BufDesc_Set f p d);
                     ret frameId) s1
                | Throw e => (Throw e, s1)
                | OutOfFuel => (OutOfFuel, s1)
                end).
    { unfold readPage. unfold catch_HashNotFound, hash_lookup.
      rewrite Hk. unfold mbind at 1, M_bind at 1, bind at 1.
      rewrite Hbuf. by destruct r. }
    destruct (allocBuf_effect _ _ _ Hbuf)
      as (s0 & Hsw & _ & _ & [(Ht & Hh & Hr)|(d1 & Hc & Hd1 & _ & _ & Ht & Hh & Hsome & _ & Hr)]).
    + assert (Hok1 : frames_ok (mgr s1)).
      { eapply frames_ok_rebound; [exact Hok|done|]. rewrite Ht.
        destruct Hsw as (_ & _ & _ & _ & _ & Hfr).
        eapply Forall2_impl; [exact Hfr|]. apply swept_frame_rebound. }
      rewrite Hread. destruct r as [i| |]; [by destruct (Hr i)|done..].
    + pose proof Hsw as (_ & _ & Hh0 & _ & _ & Hfr).
      assert (Hok0 : frames_ok (mgr s0)).
      { eapply frames_ok_rebound; [exact Hok|done|].
        eapply Forall2_impl; [exact Hfr|]. apply swept_frame_rebound. }
      assert (Hok1 : frames_ok (mgr s1)).
      { apply (frames_ok_unbind (mgr s0) _ (N.to_nat (clockHand (mgr s0))) d1);
          try done; by rewrite Hh0. }
      rewrite Hread, Hr.
      destruct Hok0 as (Hdesc0 & _). destruct (Hdesc0 _ _ Hd1) as (Hno & _).
      assert (Hlt : (N.to_nat (clockHand (mgr s0)) < length (bufDescTable (mgr s0)))%nat)
        by (by eapply lookup_lt_Some).
      apply (frames_ok_read_in f p (frameNo d1) (BufDesc_Clear d1)); [done| |done|].
      * rewrite Hno, Nat2N.id, Ht. by apply list_lookup_insert_eq.
      * rewrite Hh. by apply lookup_delete_None; right.
Qed.

Lemma frames_ok_flushFile_body (f i : N) :
  preserves (λ s, frames_ok (mgr s)) (flushFile_body f i).
Proof.
  intros s r s' Hrun Hok. revert Hrun.
  unfold flushFile_body, File_writePage. unfold_prims.
  destruct (bufDescTable (mgr s) !! N.to_nat i) as [d|] eqn:Hd; [|by intros [= <- <-]].
  destruct (decide (file d = Some f)) as [Hf|Hf]; [|by intros [= <- <-]].
  destruct (0 <? pinCnt d); [by intros [= <- <-]|].
  destruct (valid d) eqn:Hv; cbn; [|by intros [= <- <-]].
  pose proof Hok as (_ & [Hb1 _] & _).
  pose proof (Hb1 _ _ Hd Hv) as Hk. rewrite Hf in Hk.
  assert (Hlt : (N.to_nat i < length (bufDescTable (mgr s)))%nat)
    by (by eapply lookup_lt_Some).
  assert (Hend : ∀ m', bufDescTable m' = <[N.to_nat i := BufDesc_Clear d]> (bufDescTable (mgr s)) →
            hashTable m' = delete (Some f, pageNo d) (hashTable (mgr s)) →
            frames_ok m').
  { intros m' Ht Hh. apply (frames_ok_unbind (mgr s) _ (N.to_nat i) d); try done.
    - rewrite Hf. by eexists.
    - by rewrite Hf. }
  rewrite Hf. destruct (dirty d).
  - destruct (bufPool (mgr s) !! N.to_nat i) as [pg|]; [|by intros [= <- <-]].
    destruct (file_writePage f pg (disk s)) as [e|dk]; cbn; [by intros [= <- <-]|].
    rewrite Hk. cbn. rewrite list_lookup_insert_eq by done.
    intros [= <- <-]. apply Hend; cbn; [|done].
    by rewrite list_insert_insert_eq.
  - rewrite Hk. cbn. rewrite Hd. intros [= <- <-]. by apply Hend.
Qed.

Lemma frames_ok_flushFile_loop (c : nat) (f i : N) :
  preserves (λ s, frames_ok (mgr s)) (flushFile_loop c f i).
Proof.
  revert i. induction c as [|c IH]; intros i; cbn [flushFile_loop].
  - apply preserves_ret.
  - apply preserves_mbind; [apply frames_ok_flushFile_body|]. intros _. apply IH.
Qed.

Lemma frames_ok_flushFile (f : N) s :
  frames_ok (mgr s) → frames_ok (mgr (flushFile f s).2).
Proof.
  intros Hok. destruct (flushFile f s) as [r s'] eqn:Hrun.
  unfold flushFile in Hrun. unfold mbind, M_bind, bind, gets in Hrun. cbn in Hrun.
  by eapply frames_ok_flushFile_loop.
Qed.

(** X19: the bijection between the hash index and the valid frames is
    kept by every method but [allocPage].  On a manager whose descriptors
    and hash index satisfy invariants 1 to 3 of the data model and whose
    invalid frames have no owner, any sequence of [readPage], [unPinPage],
    [disposePage] and [flushFile] calls, however each of them ends, leaves
    a manager of which the same holds: every valid frame is mapped to by
    its own key and every hash entry points to the valid frame with that
    key. *)
Theorem frames_ok_kept_without_allocPage (ops : list Op) s :
  Forall (λ o, is_allocPage o = false) ops →
  frames_ok (mgr s) →
  frames_ok (mgr (run_ops ops s)) ∧ hash_frames_bijection (mgr (run_ops ops s)).
Proof.
  intros Hops Hok.
  assert (Hgo : frames_ok (mgr (run_ops ops s))); [|split; [done|apply Hgo]].
  revert s Hok. induction Hops as [|o ops Ho _ IH]; intros s Hok; [done|].
  cbn. apply IH. destruct o; cbn [run_op]; [| |done| |].
  - by apply frames_ok_readPage.
  - by apply frames_ok_unPinPage.
  - by apply frames_ok_disposePage.
  - by apply frames_ok_flushFile.
Qed.

End Coverage.

(** * The claims at concrete states *)

Lemma two_frames_wf (pins0 pins1 : N) (dirty0 ref0 dirty1 ref1 : bool) (hand : N) :
  hand < 2 →
  wf (two_frames (bound 0 1 pins0 dirty0 ref0) (bound 1 2 pins1 dirty1 ref1) hand).
Proof.
  intros Hh. split; [|split].
  - repeat split; cbn; lia.
  - intros [|[|i]] d Hd; cbn in Hd; [| |done]; injection Hd as <-;
      repeat split; cbn; try done; eauto.
  - split.
    + intros [|[|i]] d Hd Hv; cbn in Hd; [| |done]; injection Hd as <-; done.
    + intros k i Hk. cbn in Hk.
      apply lookup_insert_Some in Hk as [[<- <-]|[_ Hk]].
      * by eexists.
      * apply lookup_singleton_Some in Hk as [<- <-]. by eexists.
Qed.

(** C1, at a pool whose clock hand is on frame 1: [allocPage] returns frame 1
    for the new page 4, but it is frame 0 that is [Set] to (7, 4), over its
    pinned page 1; frame 1, which the hash index now maps page 4 to, is left
    cleared, with [valid = false] and [pinCnt = 0]. *)
Theorem allocPage_sets_frame_0 :
  let s := on_disk (two_frames (bound 0 1 1 false false)
                               (bound 1 2 0 false false) 1) disk0 in
  wf (mgr s) ∧
  (allocPage 7 s).1 = Ok (4, 1) ∧
  bufDescTable (mgr (allocPage 7 s).2) = [bound 0 4 1 false false; BufDesc_init 1] ∧
  hashTable (mgr (allocPage 7 s).2) = {[ (Some 7, 1) := 0; (Some 7, 4) := 1 ]}.
Proof.
  split; [by apply two_frames_wf|]. by vm_compute.
Qed.


(** C2, at a freshly constructed manager: the first [readPage] makes
    [allocBuf] look at frame 0, which is not valid; [allocBuf] asks the hash
    index to remove the key of that unbound frame and the call ends with
    HashNotFound, no frame having been handed out. *)
Theorem allocBuf_invalid_frame_HashNotFound :
  allocBuf (fresh 1 disk0) = (Throw HashNotFoundException, fresh 1 disk0) ∧
  readPage 7 1 (fresh 1 disk0) = (Throw HashNotFoundException, fresh 1 disk0).
Proof. by vm_compute. Qed.

(** C3, at a page that is on disk but not in the pool: [disposePage] returns
    without a single call into the file, so page 3 of file 7 is still on
    disk. *)
Theorem disposePage_absent_no_delete :
  disposePage 7 3 (fresh 2 disk0) = (Ok tt, fresh 2 disk0) ∧
  iolog (disposePage 7 3 (fresh 2 disk0)).2 = [] ∧
  sd_pages (disk (disposePage 7 3 (fresh 2 disk0)).2) !! (7, 3) = Some [33].
Proof. by vm_compute. Qed.

(** C4, at a pool of two frames with frame 0 pinned and frame 1 unpinned with
    its reference bit set, the hand on frame 0: [allocBuf] passes over the
    pinned frame, clears the reference bit of frame 1, comes back to the
    pinned frame, counts it a second time and raises BufferExceeded, although
    frame 1 has [pinCnt = 0]. *)
Theorem allocBuf_exceeded_with_unpinned_frame :
  let s := on_disk (two_frames (bound 0 1 1 false false)
                               (bound 1 2 0 false true) 0) disk0 in
  wf (mgr s) ∧
  (allocBuf s).1 = Throw BufferExceededException ∧
  (pinCnt <$> bufDescTable (mgr s) !! 1%nat) = Some 0.
Proof.
  split; [by apply two_frames_wf|]. by vm_compute.
Qed.

(** C5 as the spec states it fails where the hand passes over a pinned frame
    whose reference bit is set: frame 0 has [pinCnt = 1] and [refbit = true]
    before [allocBuf], which takes frame 1, and [refbit = false] after. *)
Lemma allocBuf_clears_refbit_of_pinned_frame :
  let s := on_disk (two_frames (bound 0 1 1 false true)
                               (bound 1 2 0 false false) 0) disk0 in
  wf (mgr s) ∧
  bufDescTable (mgr s) !! 0%nat = Some (bound 0 1 1 false true) ∧
  0 < pinCnt (bound 0 1 1 false true) ∧
  (allocBuf s).1 = Ok 1 ∧
  bufDescTable (mgr (allocBuf s).2) !! 0%nat = Some (bound 0 1 1 false false) ∧
  bufDescTable (mgr (allocBuf s).2) !! 0%nat ≠ bufDescTable (mgr s) !! 0%nat.
Proof.
  split; [by apply two_frames_wf|]. by vm_compute.
Qed.

(** The same pool: the first visit is the one to the pinned frame 0. *)
Lemma allocBuf_sweep_effect_witness :
  let s := on_disk (two_frames (bound 0 1 1 false true)
                               (bound 1 2 0 false false) 0) disk0 in
  allocBuf_loop 3 0 s = allocBuf_loop 2 1 (pass_over (bound 0 1 1 false true) s) ∧
  ∃ d', bufDescTable (mgr (allocBuf s).2) !! 0%nat = Some d' ∧
        (d' = bound 0 1 1 false true ∨
         d' = set_refbit false (bound 0 1 1 false true) ∨
         (d' = BufDesc_Clear (bound 0 1 1 false true) ∧
          pinCnt (bound 0 1 1 false true) = 0)).
Proof.
  intros s.
  destruct (@allocBuf_sweep_effect SimDisk _) as (Hpinned & _ & Hcall).
  split.
  - by apply (Hpinned 2%nat 0 s (bound 0 1 1 false true)).
  - by apply (Hcall s (allocBuf s).1 (allocBuf s).2 0%nat (bound 0 1 1 false true)).
Defined.

(** [unPinPage] on a page that is not in the pool, on an unpinned page and
    on a pinned page. *)
Lemma unPinPage_spec_witness :
  let s := on_disk (two_frames (bound 0 1 1 false false)
                               (bound 1 2 0 false false) 0) disk0 in
  unPinPage 7 3 true s = (Ok tt, s) ∧
  unPinPage 7 2 true s = (Throw (PageNotPinnedException 7 2 1), s) ∧
  unPinPage 7 1 true s = (Ok tt, put_frame 0 (bound 0 1 0 true false) s).
Proof.
  intros s. split; [|split].
  - by apply (proj1 (unPinPage_spec 7 3 true s)).
  - by apply (proj2 (unPinPage_spec 7 2 true s) 1 (bound 1 2 0 false false)).
  - by apply (proj2 (unPinPage_spec 7 1 true s) 0 (bound 0 1 1 false false)).
Defined.

(** [flushFile] on a pool holding a dirty and a clean page of file 7. *)
Lemma flushFile_spec_witness :
  let s := on_disk (two_frames (bound 0 1 0 true true)
                               (bound 1 2 0 false false) 0) disk0 in
  let s' := (flushFile 7 s).2 in
  (length (bufDescTable (mgr s)) = N.to_nat (numBufs (mgr s)) ∧
   length (bufPool (mgr s)) = N.to_nat (numBufs (mgr s)) ∧
   flushFile 7 s = (Ok tt, s')) ∧
  iolog s' = [EvWritePage 7 page1] ∧
  bufDescTable (mgr s') = [BufDesc_init 0; BufDesc_init 1] ∧
  flushFile 7 s' = (Ok tt, s').
Proof.
  intros s s'.
  assert (Hrun : flushFile 7 s = (Ok tt, s')) by (by vm_compute).
  split; [done|].
  destruct (flushFile_spec 7 s s' eq_refl eq_refl Hrun) as (Hio & _ & _ & _ & Hagain).
  split; [exact Hio|]. split; [by vm_compute|exact Hagain].
Defined.

(** [allocBuf] on a disk that refuses writes: the hand passes over the
    pinned frame 0 and stops on the dirty frame 1. *)
Lemma allocBuf_failed_writeback_witness :
  let s := {| mgr := two_frames (bound 0 1 1 false true)
                                (bound 1 2 0 true false) 0;
              disk := disk_ro; iolog := [] |} in
  ∃ s', allocBuf s = (Throw (FileException 2), s') ∧
        readPage 7 3 s = (Throw (FileException 2), s') ∧
        clockHand (mgr s') = 1 ∧
        bufDescTable (mgr s') !! 1%nat = Some (bound 1 2 0 true false) ∧
        hashTable (mgr s') = hashTable (mgr s) ∧
        iolog s' = [EvWritePage 7 page2].
Proof.
  intros s.
  destruct (@allocBuf_failed_writeback SimDisk _) as [_ Hcall].
  destruct (Hcall s 1 (bound 1 2 0 true false) 7 page2 2)
    as (s' & Hrun & Hhand & Hd & Hh & _ & _ & Hl & _ & Hread & _).
  - apply two_frames_wf. lia.
  - cbn. lia.
  - done.
  - done.
  - done.
  - intros δ' d' Hδ' Hd'. assert (δ' = 0) as -> by lia.
    cbn in Hd'. injection Hd' as <-. left. cbn. lia.
  - done.
  - done.
  - done.
  - done.
  - exists s'. split; [exact Hrun|]. split; [by apply Hread|].
    split; [exact Hhand|]. split; [|split; [exact Hh|exact Hl]].
    rewrite Hhand in Hd. exact Hd.
Defined.

(** [allocPage] on a pool with both frames pinned: page 4 is on disk
    afterwards. *)
Lemma allocPage_exhausted_after_allocation_witness :
  let s := on_disk (two_frames (bound 0 1 1 false false)
                               (bound 1 2 1 false false) 0) disk0 in
  (allocPage 7 s).1 = Throw BufferExceededException ∧
  iolog (allocPage 7 s).2 = [EvAllocatePage 7] ∧
  sd_pages (disk (allocPage 7 s).2) !! (7, 4) = Some [] ∧
  hashTable (mgr (allocPage 7 s).2) = hashTable (mgr s).
Proof.
  intros s.
  destruct (file_allocatePage 7 (disk s)) as [e|[pg dk]] eqn:Halloc;
    [discriminate Halloc|].
  destruct (allocBuf (set_disk dk (log_io (EvAllocatePage 7) s)))
    as [r s'] eqn:Hrun.
  assert (r = Throw BufferExceededException) as ->.
  { injection Halloc as <- <-. apply (f_equal fst) in Hrun. cbn in Hrun.
    rewrite <- Hrun. by vm_compute. }
  destruct (allocPage_exhausted_after_allocation 7 s pg dk s' Halloc Hrun)
    as (-> & Hio & Hdk & Hh & _).
  cbn [fst snd]. split; [done|]. split; [exact Hio|]. split; [|exact Hh].
  rewrite Hdk. injection Halloc as <- <-. by vm_compute.
Defined.

(** * The further properties at concrete states *)

Lemma two_frames_bound_files (d0 d1 : BufDesc) (hand : N) :
  valid d0 = true → valid d1 = true →
  ∀ (j : nat) dj, bufDescTable (two_frames d0 d1 hand) !! j = Some dj →
                  valid dj = false → file dj = None.
Proof.
  intros H0 H1 [|[|j]] dj Hdj Hv; cbn in Hdj; [| |done];
    injection Hdj as <-; congruence.
Qed.

(** A manager of three frames, and the two sizes at the edge of what the
    constructor is defined for. *)
Lemma BufMgr_ctor_spec_witness :
  hashTblSize 3 = Some 4%Z ∧
  BufMgr_ctor 3 = inr (BufMgr_new 3) ∧
  clockHand (mgr (advanceClock (fresh 3 disk0)).2) = 0 ∧
  hashTblSize 894784853 = Some 1073741824%Z ∧
  BufMgr_ctor 894784854 = inl UndefinedBehaviour.
Proof.
  destruct (BufMgr_ctor_spec 3 disk0) as ([Hsize Hctor] & _ & Hwf); [lia|lia|].
  destruct (Hwf (BufMgr_new 3) Hctor) as (_ & _ & _ & _ & Hfirst & _); [lia|].
  destruct (BufMgr_ctor_spec 894784853 disk0) as ([Hlast _] & _ & _); [lia|lia|].
  destruct (BufMgr_ctor_spec 894784854 disk0) as (_ & [_ Hundef] & _); [lia|lia|].
  split; [exact Hsize|]. split; [exact Hctor|]. split; [exact Hfirst|].
  split; [exact Hlast|exact Hundef].
Defined.

(** Two advances on a pool of two frames. *)
Lemma advanceClock_cycle_witness :
  advance_n 2 (pinned_and_free false 1) = pinned_and_free false 1.
Proof.
  destruct (advanceClock_cycle (pinned_and_free false 1)) as [Hback _].
  - apply two_frames_wf. lia.
  - exact Hback.
Defined.

Lemma allocBuf_terminates_witness :
  (allocBuf (pinned_and_free true 0)).1 ≠ OutOfFuel.
Proof.
  destruct (allocBuf_terminates (pinned_and_free true 0)) as [Hend _].
  - cbn. lia.
  - exact Hend.
Defined.

Lemma allocBuf_all_pinned_exceeded_witness :
  ∃ s', allocBuf both_pinned = (Throw BufferExceededException, s') ∧
        iolog s' = [] ∧
        readPage 7 3 both_pinned = (Throw BufferExceededException, s').
Proof.
  destruct (allocBuf_all_pinned_exceeded both_pinned)
    as (s' & Hrun & _ & _ & _ & Hio & _ & Hread).
  - apply two_frames_wf. lia.
  - intros [|[|j]] d Hd; cbn in Hd; [| |done]; injection Hd as <-; cbn; lia.
  - exists s'. split; [exact Hrun|]. split; [exact Hio|]. by apply Hread.
Defined.

(** The pool of C4: frame 1 is unpinned, and has its reference bit set. *)
Lemma allocBuf_exceeded_only_if_witness :
  0 < pinCnt (bound 1 2 0 false true) ∨ refbit (bound 1 2 0 false true) = true.
Proof.
  pose (s := on_disk (two_frames (bound 0 1 1 false false)
                                 (bound 1 2 0 false true) 0) disk0).
  assert (Hshape : shape_ok (mgr s)) by (apply two_frames_wf; lia).
  assert (Hrun : allocBuf s = (Throw BufferExceededException, (allocBuf s).2))
    by (by vm_compute).
  exact (allocBuf_exceeded_only_if s (allocBuf s).2 Hshape Hrun 1%nat
           (bound 1 2 0 false true) eq_refl).
Defined.

Lemma allocBuf_Ok_effect_witness :
  ∃ d0, bufDescTable (mgr (pinned_and_free true 0)) !! 1%nat = Some d0 ∧
        pinCnt d0 = 0 ∧ 1 = frameNo d0 ∧
        hashTable (mgr (allocBuf (pinned_and_free true 0)).2)
          = delete (file d0, pageNo d0) (hashTable (mgr (pinned_and_free true 0))).
Proof.
  destruct (allocBuf_Ok_effect (pinned_and_free true 0) 1
              (allocBuf (pinned_and_free true 0)).2)
    as (d0 & Hd0 & Hp & Hi & _ & _ & Hh & _); [by vm_compute|].
  exists d0. split; [exact Hd0|]. split; [exact Hp|]. split; [exact Hi|exact Hh].
Defined.

Lemma readPage_hit_then_unPinPage_witness :
  readPage 7 2 (pinned_and_free false 0)
    = (Ok 1, put_frame 1 (bound 1 2 1 false true) (pinned_and_free false 0)) ∧
  unPinPage 7 2 true (put_frame 1 (bound 1 2 1 false true) (pinned_and_free false 0))
    = (Ok tt, put_frame 1 (bound 1 2 0 true true) (pinned_and_free false 0)).
Proof.
  exact (readPage_hit_then_unPinPage 7 2 1 true (bound 1 2 0 false false)
           (pinned_and_free false 0) eq_refl eq_refl).
Defined.

(** Page 3 is read into frame 1, which held the unpinned page 2. *)
Lemma readPage_miss_then_hit_witness :
  ∃ d0, bufDescTable (mgr (readPage 7 3 (pinned_and_free false 1)).2) !! N.to_nat 1
          = Some (BufDesc_Set 7 3 d0) ∧
        (readPage 7 3 (readPage 7 3 (pinned_and_free false 1)).2).1 = Ok 1.
Proof.
  destruct (readPage_miss_then_hit 7 3 1 (pinned_and_free false 1)
              (readPage 7 3 (pinned_and_free false 1)).2)
    as (d0 & pg & s1 & _ & _ & _ & _ & _ & _ & _ & _ & Hd & Hagain);
    [done|by vm_compute|].
  exists d0. split; [exact Hd|]. by rewrite Hagain.
Defined.

(** Page 1, pinned in frame 0, stays put while page 3 is read in. *)
Lemma pinned_frames_are_stable_witness :
  hashTable (mgr (readPage 7 3 (pinned_and_free false 1)).2) !! (Some 7, 1) = Some 0 ∧
  bufPool (mgr (readPage 7 3 (pinned_and_free false 1)).2) !! 0%nat = Some page1 ∧
  bufPool (mgr (allocBuf (pinned_and_free false 1)).2) !! 0%nat = Some page1.
Proof.
  destruct (pinned_frames_are_stable (pinned_and_free false 1) 0%nat
              (bound 0 1 1 false false)) as [Hbuf Hread].
  - apply two_frames_wf. lia.
  - by apply two_frames_bound_files.
  - done.
  - cbn. lia.
  - destruct (Hread 7 3 (readPage 7 3 (pinned_and_free false 1)).1
                (readPage 7 3 (pinned_and_free false 1)).2) as (_ & Hk & Hp);
      [by destruct (readPage 7 3 (pinned_and_free false 1))|done|].
    destruct (Hbuf (allocBuf (pinned_and_free false 1)).1
                (allocBuf (pinned_and_free false 1)).2) as (_ & _ & Hp' & _);
      [by destruct (allocBuf (pinned_and_free false 1))|].
    split; [exact Hk|]. split; [exact Hp|exact Hp'].
Defined.

(** Frame 0 is flushed before the pinned frame 1 stops the call. *)
Lemma flushFile_refusal_no_rollback_witness :
  ∃ (i : nat) d,
    bufDescTable (mgr (dirty_then 1)) !! i = Some d ∧ 0 < pinCnt d ∧
    (flushFile 7 (dirty_then 1)).1
      = Throw (PagePinnedException 7 (pageNo d) (frameNo d)) ∧
    bufDescTable (mgr (flushFile 7 (dirty_then 1)).2) !! 0%nat = Some (BufDesc_init 0).
Proof.
  destruct (flushFile_refusal_no_rollback 7 (dirty_then 1)
              (PagePinnedException 7 2 1) (flushFile 7 (dirty_then 1)).2)
    as (i & d & Hd & _ & [[He Hp]|[He _]] & _); [by vm_compute|done| |discriminate He].
  exists i, d. split; [exact Hd|]. split; [exact Hp|]. split; [|by vm_compute].
  rewrite <- He. by vm_compute.
Defined.

Lemma flushFile_outcome_witness :
  (flushFile 7 (dirty_then 0)).1 = Ok tt ∨
  ∃ e, (flushFile 7 (dirty_then 0)).1 = Throw (FileException e).
Proof.
  destruct (flushFile_outcome 7 (dirty_then 0)) as [Hres _].
  - done.
  - done.
  - apply two_frames_wf. lia.
  - intros [|[|j]] d Hd _; cbn in Hd; [| |done]; by injection Hd as <-.
  - exact Hres.
Defined.

(** Page 2 is disposed of while pinned and dirty. *)
Lemma disposePage_of_pooled_page_witness :
  let s := on_disk (two_frames (bound 0 1 0 false false) (bound 1 2 1 true false) 0)
                   disk0 in
  iolog (disposePage 7 2 s).2 = [EvDeletePage 7 2] ∧
  unPinPage 7 2 false (disposePage 7 2 s).2 = (Ok tt, (disposePage 7 2 s).2).
Proof.
  intros s.
  destruct (disposePage_of_pooled_page 7 2 1 false (bound 1 2 1 true false) s)
    as [Hvalid _]; [done..|].
  destruct (Hvalid eq_refl) as (_ & _ & _ & Hio & Hunpin & _).
  split; [exact Hio|exact Hunpin].
Defined.

Lemma fresh_manager_never_binds_witness :
  mgr (run_ops [OpReadPage 7 1; OpAllocPage 7; OpFlushFile 7] (fresh 2 disk0))
    = BufMgr_new 2.
Proof.
  destruct (fresh_manager_never_binds 2 disk0
              [OpReadPage 7 1; OpAllocPage 7; OpFlushFile 7] 7 1 false) as [Hm _].
  - lia.
  - exact Hm.
Defined.

Lemma run_ops_shape_witness :
  shape_ok (mgr (run_ops [OpReadPage 7 3; OpUnPinPage 7 1 true; OpAllocPage 7;
                          OpFlushFile 7; OpDisposePage 7 4]
                         (pinned_and_free false 1))).
Proof.
  destruct (run_ops_shape [OpReadPage 7 3; OpUnPinPage 7 1 true; OpAllocPage 7;
                           OpFlushFile 7; OpDisposePage 7 4]
              (pinned_and_free false 1)) as [Hshape _].
  - apply two_frames_wf. lia.
  - exact Hshape.
Defined.

(** From the hand on the pinned frame 0, frame 1 is one step ahead. *)
Lemma allocBuf_takes_first_candidate_witness :
  clockHand (mgr (allocBuf (pinned_and_free true 0)).2) = 1.
Proof.
  destruct (allocBuf_takes_first_candidate (pinned_and_free true 0) 1
              (bound 1 2 0 false false)) as (s1 & _ & _ & _ & Hhand).
  - apply two_frames_wf. lia.
  - cbn. lia.
  - done.
  - done.
  - done.
  - intros δ' d' Hδ' Hd'. assert (δ' = 0) as -> by lia.
    cbn in Hd'. injection Hd' as <-. left. cbn. lia.
  - exact Hhand.
Defined.

(** On a disk that refuses writes, with the hand on a dirty unpinned frame.
    *)
Lemma allocBuf_FileException_origin_witness :
  let s := {| mgr := two_frames (bound 0 1 1 false false)
                                (bound 1 2 0 true false) 1;
              disk := disk_ro; iolog := [] |} in
  let s' := log_io (EvWritePage 7 page2) s in
  allocBuf s = (Throw (FileException 2), s') ∧
  hashTable (mgr s') = hashTable (mgr s) ∧
  bufDescTable (mgr s') !! 1%nat = Some (bound 1 2 0 true false) ∧
  readPage 7 3 s = (Throw (FileException 2), s').
Proof.
  intros s s'.
  assert (Hrun : allocBuf s = (Throw (FileException 2), s')) by (by vm_compute).
  assert (Hclean : ∀ (i : nat) (d : BufDesc),
            bufDescTable (mgr s) !! i = Some d → valid d = false → dirty d = false).
  { intros [|[|i]] d Hd; cbn in Hd; [| |done]; by injection Hd as <-. }
  destruct (allocBuf_FileException_origin s 2 s' Hclean Hrun)
    as (_ & Hh & _ & _ & Hread & _).
  split; [done|]. split; [exact Hh|]. split; [done|].
  by apply Hread.
Defined.

(** A page read in over an evicted one, unpinned dirty, a [flushFile] that
    stops at the pinned frame 0 and the disposal of the page in it. *)
Lemma frames_ok_kept_without_allocPage_witness :
  let ops := [OpReadPage 7 3; OpUnPinPage 7 3 true; OpFlushFile 7;
              OpDisposePage 7 1] in
  hash_frames_bijection (mgr (run_ops ops (pinned_and_free false 1))) ∧
  hashTable (mgr (run_ops ops (pinned_and_free false 1))) = {[ (Some 7, 3) := 1 ]}.
Proof.
  intros ops.
  destruct (frames_ok_kept_without_allocPage ops (pinned_and_free false 1))
    as [_ Hbij].
  - repeat constructor.
  - destruct (two_frames_wf 1 0 false false false false 1) as (_ & Hdesc & Hb);
      [lia|].
    split; [exact Hdesc|]. split; [exact Hb|].
    by apply two_frames_bound_files.
  - split; [exact Hbij|]. by vm_compute.
Defined.
